(** * microf: renaming and converting microscope image files

    A shallow embedding of [microf/__main__.py] (Python 2) and the
    properties of its two planners (rename, convert), of the command
    dispatcher [run] and of the SLURM array-job generator
    [submit_to_slurm].

    - Python [str] values are byte strings: [string].  Integers: [Z].
      The [channels] dict and the groups of a match: [gmap string string].
    - What the program calls from the Python library is modelled after
      CPython 2.7: the methods of [str], [os.path] (posixpath), the
      backtracking matcher of [re] on the fragment that the pattern
      uses, and [itertools.izip_longest] with its slots and its count
      of active iterators.
    - The float arithmetic of the walltime is IEEE 754 binary64, from
      [SpecFloat].
    - Printing, logging, queries of the file system, the temporary
      script and the external processes are events of a trace, threaded
      through a small monad together with the exceptions.  The streams
      are taken to be writable and the external programs startable. *)

From Stdlib Require Import ZArith List Lia Ascii String DecimalString SpecFloat.
From stdpp Require Import base strings gmap list.
Import ListNotations.

Local Open Scope string_scope.
Local Open Scope list_scope.

(** ** Python built-ins on [str] *)

Module Py.

(** [str(n)] for an integer. *)
Definition str_of_Z (n : Z) : string := NilZero.string_of_int (Z.to_int n).
Definition str_of_nat (n : nat) : string := str_of_Z (Z.of_nat n).

(** [s.replace(old, new)] where [old] is a single character. *)
Fixpoint replace (old : ascii) (new : string) (s : string) : string :=
  match s with
  | EmptyString => EmptyString
  | String c s' =>
      if Ascii.eqb c old then new +:+ replace old new s'
      else String c (replace old new s')
  end.

(** [s.split(sep)] where [sep] is a single character: never empty. *)
Fixpoint split (sep : ascii) (s : string) : list string :=
  match s with
  | EmptyString => [EmptyString]
  | String c s' =>
      if Ascii.eqb c sep then EmptyString :: split sep s'
      else match split sep s' with
           | h :: t => String c h :: t
           | [] => [String c EmptyString]
           end
  end.

Fixpoint zeros (n : nat) : string :=
  match n with O => EmptyString | S n' => String "0" (zeros n') end.

(** [s.zfill(width)]: left padding with zeros, after a leading sign. *)
Definition zfill (width : nat) (s : string) : string :=
  if (width <=? String.length s)%nat then s
  else
    let fill := (width - String.length s)%nat in
    match s with
    | String c s' =>
        if Ascii.eqb c "+" || Ascii.eqb c "-" then String c (zeros fill +:+ s')
        else zeros fill +:+ s
    | EmptyString => zeros fill
    end.

(** ASCII lower-casing of one character and of a string ([s.lower()]). *)
Definition lower_ascii (c : ascii) : ascii :=
  let n := nat_of_ascii c in
  if (65 <=? n)%nat && (n <=? 90)%nat then ascii_of_nat (n + 32) else c.

Fixpoint lower (s : string) : string :=
  match s with
  | EmptyString => EmptyString
  | String c s' => String (lower_ascii c) (lower s')
  end.

Definition startswith (c : ascii) (s : string) : bool :=
  match s with String a _ => Ascii.eqb a c | EmptyString => false end.

Fixpoint endswith (c : ascii) (s : string) : bool :=
  match s with
  | EmptyString => false
  | String a EmptyString => Ascii.eqb a c
  | String _ s' => endswith c s'
  end.

(** [s.rfind(c)]: index of the last occurrence, [-1] when there is none. *)
Fixpoint rfind (c : ascii) (s : string) : Z :=
  match s with
  | EmptyString => (-1)%Z
  | String a s' =>
      let r := rfind c s' in
      if (0 <=? r)%Z then (r + 1)%Z
      else if Ascii.eqb a c then 0%Z else (-1)%Z
  end.

(** Slices [s[:i]] and [s[i:]] for [0 <= i]. *)
Fixpoint slice_to (i : nat) (s : string) : string :=
  match i, s with
  | S i', String c s' => String c (slice_to i' s')
  | _, _ => EmptyString
  end.

Fixpoint slice_from (i : nat) (s : string) : string :=
  match i, s with
  | S i', String _ s' => slice_from i' s'
  | _, _ => s
  end.

(** [s.rstrip(c)]. *)
Fixpoint rstrip (c : ascii) (s : string) : string :=
  match s with
  | EmptyString => EmptyString
  | String a s' =>
      match rstrip c s' with
      | EmptyString => if Ascii.eqb a c then EmptyString else String a EmptyString
      | t => String a t
      end
  end.

Fixpoint all_chars (c : ascii) (s : string) : bool :=
  match s with
  | EmptyString => true
  | String a s' => Ascii.eqb a c && all_chars c s'
  end.

(** The double quote and the newline, as one-character strings. *)
Definition dquote : ascii := ascii_of_nat 34.
Definition dq : string := String dquote EmptyString.
Definition nl : string := String (ascii_of_nat 10) EmptyString.

(** [repr(s)] of a [str], as it appears when a tuple is formatted. *)
Definition hex_digit (n : nat) : ascii :=
  if (n <? 10)%nat then ascii_of_nat (48 + n) else ascii_of_nat (87 + n).

Fixpoint contains (c : ascii) (s : string) : bool :=
  match s with
  | EmptyString => false
  | String a s' => Ascii.eqb a c || contains c s'
  end.

Definition repr_char (quote : ascii) (c : ascii) : string :=
  let n := nat_of_ascii c in
  if Ascii.eqb c quote || Ascii.eqb c "\" then String "\" (String c EmptyString)
  else if (n =? 9)%nat then "\t"
  else if (n =? 10)%nat then "\n"
  else if (n =? 13)%nat then "\r"
  else if (n <? 32)%nat || (127 <=? n)%nat then
    String "\" (String "x" (String (hex_digit (n / 16)) (String (hex_digit (n mod 16)) EmptyString)))
  else String c EmptyString.

Fixpoint repr_body (quote : ascii) (s : string) : string :=
  match s with
  | EmptyString => EmptyString
  | String c s' => repr_char quote c +:+ repr_body quote s'
  end.

Definition repr (s : string) : string :=
  let quote : ascii :=
    if contains "'" s && negb (contains dquote s) then dquote else "'"%char in
  String quote (repr_body quote s +:+ String quote EmptyString).

End Py.

(** ** [os.path] (posixpath) *)

Module Path.

Definition sep : ascii := "/".

(** [i = p.rfind('/') + 1] *)
Definition after_last_sep (p : string) : nat := Z.to_nat (Py.rfind sep p + 1).

Definition basename (p : string) : string := Py.slice_from (after_last_sep p) p.

Definition dirname (p : string) : string :=
  let head := Py.slice_to (after_last_sep p) p in
  if negb (String.eqb head EmptyString) && negb (Py.all_chars sep head)
  then Py.rstrip sep head else head.

Definition isabs (p : string) : bool := Py.startswith sep p.

(** [join(a, b)] with one component [b]. *)
Definition join (a b : string) : string :=
  if Py.startswith sep b then b
  else if String.eqb a EmptyString || Py.endswith sep a then a +:+ b
  else a +:+ String sep b.

(** The loop of [genericpath._splitext] that skips leading dots: is there
    a character other than the dot in [p[filenameIndex:dotIndex]]? *)
Fixpoint has_non_dot (p : string) (filenameIndex count : nat) : bool :=
  match count with
  | O => false
  | S count' =>
      match String.get filenameIndex p with
      | Some c => if Ascii.eqb c "." then has_non_dot p (S filenameIndex) count' else true
      | None => false
      end
  end.

Definition splitext (p : string) : string * string :=
  let sepIndex := Py.rfind sep p in
  let dotIndex := Py.rfind "." p in
  if (sepIndex <? dotIndex)%Z
     && has_non_dot p (Z.to_nat (sepIndex + 1)) (Z.to_nat (dotIndex - (sepIndex + 1)))
  then (Py.slice_to (Z.to_nat dotIndex) p, Py.slice_from (Z.to_nat dotIndex) p)
  else (p, EmptyString).

End Path.

(** ** Regular expressions ([re], backtracking, leftmost match)

    The fragment of [re] that the pattern of the naming convention
    uses: one-character classes, greedy repetition of a class,
    sequence, alternation and groups, under the flag [re.I]. *)

Module Re.

Inductive charset :=
| Any                      (* [.]: every character but the newline *)
| Digit                    (* [\d] *)
| NotDigit                 (* [\D] *)
| Range (lo hi : ascii)    (* [[lo-hi]] *)
| Lit (c : ascii).

Inductive regex :=
| Eps
| Chr (cs : charset)
| Star (cs : charset)
| Seq (r1 r2 : regex)
| Alt (r1 r2 : regex)
| Group (name : option string) (r : regex).

Definition is_digit (c : ascii) : bool :=
  let n := nat_of_ascii c in (48 <=? n)%nat && (n <=? 57)%nat.

(** Membership of a character in a class; with [ignorecase] the
    character and the class are both lower-cased first. *)
Definition in_charset (ignorecase : bool) (cs : charset) (c : ascii) : bool :=
  let fold := if ignorecase then Py.lower_ascii else (fun a => a) in
  match cs with
  | Any => negb (nat_of_ascii c =? 10)%nat
  | Digit => is_digit c
  | NotDigit => negb (is_digit c)
  | Range lo hi =>
      (nat_of_ascii (fold lo) <=? nat_of_ascii (fold c))%nat
      && (nat_of_ascii (fold c) <=? nat_of_ascii (fold hi))%nat
  | Lit a => Ascii.eqb (fold c) (fold a)
  end.

(** The named groups of a match, [match.groupdict()], are a
    [gmap string string]. *)

Section Matcher.
Variable ignorecase : bool.

(** Greedy [cs*]: the longest run first, then shorter ones. *)
Fixpoint star (cs : charset) (k : string -> option (gmap string string)) (s : string)
  : option (gmap string string) :=
  match s with
  | String c s' =>
      if in_charset ignorecase cs c then
        match star cs k s' with
        | Some g => Some g
        | None => k s
        end
      else k s
  | EmptyString => k s
  end.

(** [sre_match r s g k]: match [r] at the head of [s], then hand the
    rest of the subject and the groups to the continuation [k]. *)
Fixpoint sre_match (r : regex) (s : string) (g : gmap string string)
         (k : string -> gmap string string -> option (gmap string string)) : option (gmap string string) :=
  match r with
  | Eps => k s g
  | Chr cs =>
      match s with
      | String c s' => if in_charset ignorecase cs c then k s' g else None
      | EmptyString => None
      end
  | Star cs => star cs (fun s' => k s' g) s
  | Seq r1 r2 => sre_match r1 s g (fun s' g' => sre_match r2 s' g' k)
  | Alt r1 r2 =>
      match sre_match r1 s g k with
      | Some g' => Some g'
      | None => sre_match r2 s g k
      end
  | Group name r1 =>
      sre_match r1 s g (fun s' g' =>
        let text := Py.slice_to (String.length s - String.length s') s in
        k s' (match name with Some x => <[x := text]> g' | None => g' end))
  end.

(** [pattern.search(s)]: the first position at which [r] matches. *)
Fixpoint search (r : regex) (s : string) : option (gmap string string) :=
  match sre_match r s ∅ (fun _ g => Some g) with
  | Some g => Some g
  | None =>
      match s with
      | String _ s' => search r s'
      | EmptyString => None
      end
  end.
End Matcher.

Fixpoint seq (rs : list regex) : regex :=
  match rs with
  | [] => Eps
  | [r] => r
  | r :: rs' => Seq r (seq rs')
  end.

Fixpoint lits (s : string) : list regex :=
  match s with
  | EmptyString => []
  | String c s' => Chr (Lit c) :: lits s'
  end.

End Re.

(** ** Exceptions and outcomes *)

Inductive exn :=
| KeyError (key : string)
| IndexError
| AttributeError
| UnboundLocalError (name : string)
| OverflowError
| ValueError
| SystemExit (code : Z).

(** [issubclass(e, LookupError)] *)
Definition is_LookupError (e : exn) : bool :=
  match e with
  | KeyError _ | IndexError => true
  | _ => false
  end.

(** How a call ends.  [Timeout] is not a Python outcome: it is what the
    model answers when the fuel of a loop over a generator runs out. *)
Inductive outcome (A : Type) :=
| Ok (a : A)
| Raise (e : exn)
| Timeout.
Arguments Ok {A} a.
Arguments Raise {A} e.
Arguments Timeout {A}.

(** ** Microscope file format data *)

(** [CV7000 = '{}_{}_T0001F{}L01A01Z01C{}.tif'] and [CV7000.format(...)] *)
Definition CV7000 (exp_name well site channel : string) : string :=
  exp_name +:+ "_" +:+ well +:+ "_T0001F" +:+ site +:+ "L01A01Z01C" +:+ channel +:+ ".tif".

(** [params[key]] on the dict of a match; all four named groups of the
    pattern take part in every match. *)
Definition getitem (d : gmap string string) (key : string) : outcome string :=
  match d !! key with
  | Some v => Ok v
  | None => Raise (KeyError key)
  end.

Definition list_item (l : list string) (i : nat) : outcome string :=
  match nth_error l i with
  | Some v => Ok v
  | None => Raise IndexError
  end.

#[global] Instance outcome_bind : MBind outcome := fun A B f x =>
  match x with
  | Ok a => f a
  | Raise e => Raise e
  | Timeout => Timeout
  end.

Definition _IC6000_replace (params channels : gmap string string)
  : outcome (string * string * string * string) :=
  n ← getitem params "n";
  let exp_name := Py.replace "_" "" n in
  w ← getitem params "w";
  well_letter ← list_item (Py.split "-" (Py.replace " " "" w)) 0;
  w ← getitem params "w";
  well_number0 ← list_item (Py.split "-" (Py.replace " " "" w)) 1;
  let well_number := Py.zfill 2 well_number0 in
  s ← getitem params "s";
  let site := Py.zfill 3 s in
  c ← getitem params "c";
  channel ← getitem channels (Py.replace " " "" c);
  Ok (exp_name, well_letter +:+ well_number, site, channel).

Record microscope := {
  pattern : Re.regex;
  channels : gmap string string;
  replace_fn : gmap string string -> gmap string string
               -> outcome (string * string * string * string);
}.

(** The pattern of [IC6000], compiled with [re.I]; its pieces, spaced
    out as under [re.X]:

      (?P<n> .*_.* ) _ (?P<w> [A-Z] \D* \d* ) \( fld \D* (?P<s> \d* ) \D* wv
      (?P<c> .* ) \) . ( tif | png )
*)
Definition IC6000_pattern : Re.regex :=
  Re.seq
    [ Re.Group (Some "n") (Re.seq [Re.Star Re.Any; Re.Chr (Re.Lit "_"); Re.Star Re.Any]);
      Re.Chr (Re.Lit "_");
      Re.Group (Some "w")
        (Re.seq [Re.Chr (Re.Range "A" "Z"); Re.Star Re.NotDigit; Re.Star Re.Digit]);
      Re.Chr (Re.Lit "(");
      Re.seq (Re.lits "fld");
      Re.Star Re.NotDigit;
      Re.Group (Some "s") (Re.Star Re.Digit);
      Re.Star Re.NotDigit;
      Re.seq (Re.lits "wv");
      Re.Group (Some "c") (Re.Star Re.Any);
      Re.Chr (Re.Lit ")");
      Re.Chr Re.Any;
      Re.Group None (Re.Alt (Re.seq (Re.lits "tif")) (Re.seq (Re.lits "png"))) ].

Definition IC6000_channels : gmap string string :=
  <["UV-DAPI" := "01"]> (<["Blue-FITC" := "02"]>
    (<["Green-dsRed" := "03"]> (<["Red-Cy5" := "04"]> ∅))).

Definition IC6000 : microscope := {|
  pattern := IC6000_pattern;
  channels := IC6000_channels;
  replace_fn := _IC6000_replace;
|}.

(** ** Python floats (IEEE 754 binary64) *)

Module Float.

Definition prec : Z := 53.
Definition emax : Z := 1024.

Definition is_finite (x : spec_float) : bool :=
  match x with
  | S754_zero _ | S754_finite _ _ _ => true
  | _ => false
  end.

(** Conversion of an integer operand of a float operation: rounded to
    nearest even, [OverflowError] beyond the range of the doubles. *)
Definition of_int (n : Z) : outcome spec_float :=
  let x := binary_normalize prec emax n 0 false in
  if is_finite x then Ok x else Raise OverflowError.

(** A small integer literal such as [5.0], [60] or [1]. *)
Definition lit (n : Z) : spec_float := binary_normalize prec emax n 0 false.

Definition mul : spec_float -> spec_float -> spec_float := SFmul prec emax.
Definition div : spec_float -> spec_float -> spec_float := SFdiv prec emax.
Definition add : spec_float -> spec_float -> spec_float := SFadd prec emax.

(** [int(x)]: truncation towards zero. *)
Definition to_int (x : spec_float) : outcome Z :=
  match x with
  | S754_zero _ => Ok 0%Z
  | S754_finite s m e =>
      let a := match e with
               | Zneg p => (Z.pos m / Z.pow_pos 2 p)%Z
               | _ => (Z.pos m * 2 ^ e)%Z
               end in
      Ok (if s then (- a)%Z else a)
  | S754_infinity _ => Raise OverflowError
  | S754_nan => Raise ValueError
  end.

End Float.

(** ** The world, events and the monad of effects *)

(** What the program reads from its environment.  External programs
    are taken to be startable and the standard streams writable. *)
Record world := {
  argv0 : string;                   (* [sys.argv[0]] *)
  cwd : string;                     (* [os.getcwd()] *)
  path_exists : string -> bool;     (* [os.path.exists] *)
  path_isdir : string -> bool;      (* [os.path.isdir] *)
  os_walk : string -> list (string * list string * list string);
  tempname : string -> string -> string;
                                    (* name of [NamedTemporaryFile(prefix, suffix)] *)
}.

(** What the program does to its environment, in order. *)
Inductive event :=
| Stdout (line : string)            (* [print(line)] *)
| Log (levelname msg : string)      (* [logging.error], [logging.warn] *)
| Getcwd                            (* [os.getcwd()] *)
| PathExists (path : string)        (* [exists(path)] *)
| PathIsdir (path : string)         (* [isdir(path)] *)
| Walk (path : string)              (* [os.walk(path)], to the end *)
| TempCreate (name : string)        (* entering [with NamedTemporaryFile(...)] *)
| Flush (name content : string)     (* [script.flush()]: the script on disk *)
| TempDelete (name : string)        (* leaving the [with] block *)
| Call (argv : list string)         (* [subprocess.call(argv)] *)
| CheckCall (cmd : string).         (* [subprocess.check_call(cmd, shell=True)] *)

(** Does a shell command end with status 0?  It may depend on all that
    happened before it. *)
Definition shell := list event -> string -> bool.

(** A computation reads the world, extends the trace and ends with an
    outcome. *)
Definition M (A : Type) : Type := world -> shell -> list event -> list event * outcome A.

#[global] Instance M_ret : MRet M := fun A a _ _ t => (t, Ok a).

#[global] Instance M_bind : MBind M := fun A B f m w sh t =>
  match m w sh t with
  | (t', Ok a) => f a w sh t'
  | (t', Raise e) => (t', Raise e)
  | (t', Timeout) => (t', Timeout)
  end.

Definition emit (ev : event) : M unit := fun _ _ t => (t ++ [ev], Ok tt).
Definition raise {A} (e : exn) : M A := fun _ _ t => (t, Raise e).
Definition timeout {A} : M A := fun _ _ t => (t, Timeout).
Definition ask {A} (f : world -> A) : M A := fun w _ t => (t, Ok (f w)).
Definition lift {A} (x : outcome A) : M A := fun _ _ t => (t, x).

(** [try: m finally: emit ev] *)
Definition finally {A} (m : M A) (ev : event) : M A := fun w sh t =>
  let '(t', r) := m w sh t in (t' ++ [ev], r).

(** [check_call(cmd, shell=True)] inside [try ... except
    CalledProcessError]: [true] when the command succeeded. *)
Definition check_call (cmd : string) : M bool := fun _ sh t =>
  (t ++ [CheckCall cmd], Ok (sh t cmd)).

(** [for x in xs: body x] *)
Fixpoint for_ {A} (xs : list A) (body : A -> M unit) : M unit :=
  match xs with
  | [] => mret tt
  | x :: xs' => body x ≫= fun _ => for_ xs' body
  end.

Definition print (line : string) : M unit := emit (Stdout line).

(** A value that is [None], a [str] or a pair of [str]. *)
Inductive pyval :=
| PyNone
| PyStr (s : string)
| PyPair (a b : string).

(** [str(v)], as [format] renders a field. *)
Definition str_of_pyval (v : pyval) : string :=
  match v with
  | PyNone => "None"
  | PyStr s => s
  | PyPair a b => "(" +:+ Py.repr a +:+ ", " +:+ Py.repr b +:+ ")"
  end.

(** ** [itertools.izip_longest] and [grouper] *)

Module Itertools.
Section IzipLongest.
Context {V : Type}.

(** The object that [izip_longest] returns when every one of its
    arguments is one and the same list iterator, as in
    [[iter(iterable)] * size]: the slots share [source]. *)
Record iziplongest := {
  source : list V;       (* what the shared iterator has left to give *)
  ittuple : list bool;   (* slot by slot: does it still hold the iterator? *)
  numactive : nat;       (* slots whose iterator is not yet known exhausted *)
  fillvalue : V;
}.

Definition izip_longest (count : nat) (iterable : list V) (fill : V) : iziplongest :=
  {| source := iterable; ittuple := repeat true count;
     numactive := count; fillvalue := fill |}.

(** One pass over the slots, left to right.  A slot that finds the
    iterator exhausted gives it up and takes the fill value; the pass
    is abandoned when the last active slot gives up. *)
Fixpoint fill_tuple (fill : V) (slots : list bool) (src : list V) (active : nat)
  : option (list V) * list bool * list V * nat :=
  match slots with
  | [] => (Some [], [], src, active)
  | held :: slots' =>
      if held then
        match src with
        | x :: src' =>
            let '(r, sl, s', a) := fill_tuple fill slots' src' active in
            (cons x <$> r, true :: sl, s', a)
        | [] =>
            let active' := pred active in
            if (active' =? 0)%nat then (None, slots, src, 0%nat)
            else
              let '(r, sl, s', a) := fill_tuple fill slots' src active' in
              (cons fill <$> r, false :: sl, s', a)
        end
      else
        let '(r, sl, s', a) := fill_tuple fill slots' src active in
        (cons fill <$> r, false :: sl, s', a)
  end.

(** [next(it)]: [None] is [StopIteration]. *)
Definition next (st : iziplongest) : option (list V) * iziplongest :=
  if (length (ittuple st) =? 0)%nat then (None, st)
  else if (numactive st =? 0)%nat then (None, st)
  else
    let '(r, sl, s', a) :=
      fill_tuple (fillvalue st) (ittuple st) (source st) (numactive st) in
    (r, {| source := s'; ittuple := sl; numactive := a; fillvalue := fillvalue st |}).

(** The tuples a [for] loop receives before [StopIteration]; [None]
    when [fuel] calls of [next] did not reach it. *)
Fixpoint tuples (fuel : nat) (st : iziplongest) : option (list (list V)) :=
  match fuel with
  | O => None
  | S fuel' =>
      match next st with
      | (None, _) => Some []
      | (Some tup, st') => cons tup <$> tuples fuel' st'
      end
  end.
End IzipLongest.
Arguments iziplongest : clear implicits.
End Itertools.

(** [grouper(iterable, size, fillvalue)]; [[x] * size] is empty for
    [size <= 0]. *)
Definition grouper {V} (iterable : list V) (size : Z) (fillvalue : V)
  : Itertools.iziplongest V :=
  Itertools.izip_longest (Z.to_nat size) iterable fillvalue.

(** ** The batch job script generator *)

(** [int(1 + (5.0 * size)/60)] *)
Definition walltime (size : Z) : outcome Z :=
  x ← Float.of_int size;
  Float.to_int
    (Float.add (Float.lit 1) (Float.div (Float.mul (Float.lit 5) x) (Float.lit 60))).

Definition unlines (lines : list string) : string :=
  fold_right (fun l acc => l +:+ Py.nl +:+ acc) EmptyString lines.

(** The text written before the cases: it ends inside the line that
    the first case label completes. *)
Definition script_header (cwd : string) (minutes : Z) (prefix : string) : string :=
  unlines
    [ "#!/bin/sh";
      "#SBATCH -c 1";
      "#SBATCH --mem-per-cpu=256m";
      "#SBATCH --time=" +:+ Py.str_of_Z minutes;
      "#SBATCH --output=" +:+ cwd +:+ "/" +:+ prefix +:+ "%A_%a.log";
      "#SBATCH --error=" +:+ cwd +:+ "/" +:+ prefix +:+ "%A_%a.log";
      "";
      "case " +:+ Py.dq +:+ "$SLURM_ARRAY_TASK_ID" +:+ Py.dq +:+ " in" ]
  +:+ "        ".

Definition script_footer : string :=
  unlines
    [ "";
      "esac";
      "";
      "echo 1>&2 " +:+ Py.dq
        +:+ "Array job ID $SLURM_ARRAY_TASK_ID not matched in script" +:+ Py.dq;
      "exit 70  # EX_SOFTWARE" ].

(** [for cmd in batch: if cmd is None: break; print("    {cmd}", file=script)] *)
Fixpoint write_batch (batch : list (option string)) (script : string) : string :=
  match batch with
  | Some cmd :: batch' => write_batch batch' (script +:+ "    " +:+ cmd +:+ Py.nl)
  | None :: _ | [] => script
  end.

(** The loop over [enumerate(grouper(cmds, size, None))], from index
    [i] on: the script so far and the loop variable [n], unbound
    ([None]) until the body has run once. *)
Fixpoint write_cases (batches : list (list (option string))) (i : nat)
         (n : option nat) (script : string) : option nat * string :=
  match batches with
  | [] => (n, script)
  | batch :: batches' =>
      let script := script +:+ "  " +:+ Py.str_of_nat i +:+ ")" +:+ Py.nl in
      let script := script +:+ "    set -e -x" +:+ Py.nl in
      let script := write_batch batch script in
      let script := script +:+ "    exit 0;;" +:+ Py.nl in
      write_cases batches' (S i) (Some i) script
  end.

Definition submit_to_slurm (cmds : list string) (size : Z) (prefix : pyval) : M unit :=
  prefix ← match prefix with
            | PyNone =>
                a0 ← ask argv0;
                mret (PyStr (fst (Path.splitext (Path.basename a0))))
            | _ => mret prefix
            end;
  prefix ← match prefix with
            | PyStr p => mret (if Py.endswith "." p then p else p +:+ ".")
            | _ => raise AttributeError
            end;
  name ← ask (fun w => tempname w prefix ".sh");
  emit (TempCreate name);;
  finally
    (emit Getcwd;;
     cwd ← ask cwd;
     minutes ← lift (walltime size);
     let script := script_header cwd minutes prefix in
     match Itertools.tuples (S (length cmds)) (grouper (Some <$> cmds) size None) with
     | None => timeout
     | Some batches =>
         let '(n, script) := write_cases batches 0 None script in
         let script := script +:+ script_footer in
         emit (Flush name script);;
         match n with
         | None => raise (UnboundLocalError "n")
         | Some n => emit (Call ["sbatch"; "--array=0-" +:+ Py.str_of_nat n; name])
         end
     end)
    (TempDelete name).

(** ** The command dispatcher *)

(** [quote(arg)] *)
Definition quote (arg : string) : string := "'" +:+ arg +:+ "'".

(** The immediate mode of [run]: the counters after the loop. *)
Fixpoint run_direct (cmds : list string) (done errored : Z) : M (Z * Z) :=
  match cmds with
  | [] => mret (done, errored)
  | cmd :: cmds' =>
      ok ← check_call cmd;
      if ok : bool then run_direct cmds' (done + 1)%Z errored
      else run_direct cmds' done (errored + 1)%Z
  end.

(** [run(cmds, just_print, batch, verb)]; [batch] is the integer that
    [elif batch:] tests and that becomes the chunk size. *)
Definition run (cmds : list string) (just_print : bool) (batch : Z) (verb : pyval)
  : M unit :=
  verb ← match verb with
          | PyNone =>
              a0 ← ask argv0;
              let '(stem, ext) := Path.splitext (Path.basename a0) in
              mret (PyPair stem ext)
          | _ => mret verb
          end;
  if just_print then for_ cmds print
  else if negb (batch =? 0)%Z then submit_to_slurm cmds batch verb
  else
    '(done, errored) ← run_direct cmds 0%Z 0%Z;
    print ("Successfully applied " +:+ str_of_pyval verb +:+ " to "
           +:+ Py.str_of_Z done +:+ " files, " +:+ Py.str_of_Z errored +:+ " errors.").

(** ** Collecting the files *)

(** [walker(path)]: every file name of the tree rooted at [path]. *)
Definition walker (path : string) : M (list string) :=
  emit (Walk path);;
  tree ← ask (fun w => os_walk w path);
  mret (concat (map (fun '(dirpath, _, filenames) => map (Path.join dirpath) filenames)
                    (tree : list (string * list string * list string)))).

Fixpoint build_file_list_loop (cwd : string) (paths result : list string)
  : M (list string) :=
  match paths with
  | [] => mret result
  | path :: paths' =>
      emit (PathExists path);;
      found ← ask (fun w => path_exists w path);
      if negb found then
        emit (Log "ERROR" ("Path `" +:+ path +:+ "` does not exist, ignoring."));;
        build_file_list_loop cwd paths' result
      else
        let path := if Path.isabs path then path else Path.join cwd path in
        emit (PathIsdir path);;
        dir ← ask (fun w => path_isdir w path);
        if dir : bool then
          files ← walker path;
          build_file_list_loop cwd paths' (result ++ files)
        else build_file_list_loop cwd paths' (result ++ [path])
  end.

Definition build_file_list (paths : list string) : M (list string) :=
  emit Getcwd;;
  cwd ← ask cwd;
  build_file_list_loop cwd paths [].

(** ** The command line, once parsed *)

Module Args.
Inductive action := convert | rename.
Record t := {
  action_ : action;
  path : list string;
  keep : bool;
  check : bool;
  batch : bool;
  batch_size : Z;
}.
End Args.

(** ** The renamer *)

(** First loop of [rename_func]: keep the paths whose base name the
    pattern matches, count the others. *)
Fixpoint rename_filter (pat : Re.regex) (inbox to_do : list string) (ignored : Z)
  : M (list string * Z) :=
  match inbox with
  | [] => mret (to_do, ignored)
  | path :: inbox' =>
      let image_name := Path.basename path in
      match Re.search true pat image_name with
      | Some _ => rename_filter pat inbox' (to_do ++ [path]) ignored
      | None =>
          emit (Log "WARNING" (image_name +:+ ": Pattern does not match, ignored!"));;
          rename_filter pat inbox' to_do (ignored + 1)%Z
      end
  end.

(** ["mv '{old}' '{new}'".format(old=old, new=new)] *)
Definition mv_fmt (old new : string) : string :=
  "mv '" +:+ old +:+ "' '" +:+ new +:+ "'".

(** Second loop of [rename_func]: one command per kept path.  A
    failed search would make [match.groupdict()] raise
    [AttributeError]. *)
Fixpoint rename_cmds (m : microscope) (to_do cmds : list string)
  : outcome (list string) :=
  match to_do with
  | [] => Ok cmds
  | path :: to_do' =>
      let image_name := Path.basename path in
      match Re.search true (pattern m) image_name with
      | None => Raise AttributeError
      | Some params =>
          '(exp_name, well, site, channel) ← replace_fn m params (channels m);
          let old := path in
          let new := Path.join (Path.dirname path) (CV7000 exp_name well site channel) in
          rename_cmds m to_do' (cmds ++ [mv_fmt old new])
      end
  end.

Definition is_nil {A} (l : list A) : bool :=
  match l with [] => true | _ => false end.

Definition report (verb : string) (total to_do : nat) (ignored : Z) : string :=
  "Examined " +:+ Py.str_of_nat total +:+ " files: " +:+ Py.str_of_nat to_do
  +:+ " to " +:+ verb +:+ ", " +:+ Py.str_of_Z ignored +:+ " ignored.".

Definition rename_func (args : Args.t) (m : microscope) : M unit :=
  inbox ← build_file_list (Args.path args);
  '(to_do, ignored) ← rename_filter (pattern m) inbox [] 0%Z;
  print (report "rename" (length inbox) (length to_do) ignored);;
  if is_nil to_do then mret tt
  else
    cmds ← lift (rename_cmds m to_do []);
    run cmds (Args.check args) (Z.b2z (Args.batch args)) (PyStr "rename").

(** ** The converter *)

Definition is_tiff (ext : string) : bool :=
  String.eqb (Py.lower ext) ".tif" || String.eqb (Py.lower ext) ".tiff".

Fixpoint convert_filter (inbox : list string) (to_do : list (string * string))
         (ignored : Z) : M (list (string * string) * Z) :=
  match inbox with
  | [] => mret (to_do, ignored)
  | path :: inbox' =>
      let '(stem, ext) := Path.splitext path in
      if is_tiff ext then convert_filter inbox' (to_do ++ [(path, stem +:+ ".png")]) ignored
      else
        print (path +:+ ": no TIFF extension, ignored!");;
        convert_filter inbox' to_do (ignored + 1)%Z
  end.

Definition convert_fmt (keep : bool) (old new : string) : string :=
  "convert -depth 16 -colorspace gray '" +:+ old +:+ "' '" +:+ new +:+ "'"
  +:+ (if keep then "" else "; rm -f '" +:+ old +:+ "'").

Definition convert_func (args : Args.t) : M unit :=
  inbox ← build_file_list (Args.path args);
  '(to_do, ignored) ← convert_filter inbox [] 0%Z;
  print (report "convert" (length inbox) (length to_do) ignored);;
  if is_nil to_do then mret tt
  else
    let cmds := map (fun '(old, new) => convert_fmt (Args.keep args) old new) to_do in
    run cmds (Args.check args) (Z.b2z (Args.batch args)) (PyStr "convert").

(** ** [main] *)

Definition EX_USAGE : Z := 64.

Section Main.
(** [cmdline.parse_args]: the name space of the options, or the exit
    of [argparse] on a malformed command line. *)
Variable parse_args : list string -> outcome Args.t.

Definition main (argv : list string) : M unit :=
  args ← lift (parse_args argv);
  match Args.action_ args with
  | Args.rename =>
      if Args.keep args then
        emit (Log "ERROR" "Cannot use option `--keep` with `rename` action.");;
        raise (SystemExit EX_USAGE)
      else rename_func args IC6000
  | Args.convert => convert_func args
  end.
End Main.

(** * Vocabulary of the properties *)

(** [ceil(a / b)] for [0 < b], from the floor division of [Z]. *)
Definition ceil_div (a b : Z) : Z := (- ((- a) / b))%Z.

(** A computation only ever extends the trace it is given. *)
Definition extends {A} (m : M A) : Prop :=
  forall w sh t, exists t', (m w sh t).1 = t ++ t'.

(** Does the pattern match the base name of a path? *)
Definition matches (pat : Re.regex) (path : string) : bool :=
  match Re.search true pat (Path.basename path) with
  | Some _ => true
  | None => false
  end.

Definition unmatched_log (path : string) : event :=
  Log "WARNING" (Path.basename path +:+ ": Pattern does not match, ignored!").

Definition tiff_path (path : string) : bool := is_tiff (Path.splitext path).2.

Definition convert_op (path : string) : string * string :=
  (path, (Path.splitext path).1 +:+ ".png").

(** Slicing: consecutive runs of [size] items, the last one possibly
    shorter; [n] bounds the number of slices. *)
Fixpoint slices {A} (n size : nat) (l : list A) : list (list A) :=
  match n, l with
  | S n', _ :: _ => firstn size l :: slices n' size (skipn size l)
  | _, _ => []
  end.

Definition chunks_of (cmds : list string) (size : Z) : list (list string) :=
  slices (length cmds) (Z.to_nat size) cmds.

(** A slice, padded on the right up to [size] items. *)
Definition pad {V} (fill : V) (size : nat) (c : list V) : list V :=
  c ++ repeat fill (size - length c).

(** The commands that [write_batch] writes for a tuple: those before
    the first [None]. *)
Fixpoint emitted (batch : list (option string)) : list string :=
  match batch with
  | Some cmd :: batch' => cmd :: emitted batch'
  | None :: _ | [] => []
  end.

(** The text of the cases of the script, from its chunks. *)
Definition lines_text (cmds : list string) : string :=
  fold_right (fun cmd acc => "    " +:+ cmd +:+ Py.nl +:+ acc) EmptyString cmds.

Definition case_text (i : nat) (chunk : list string) : string :=
  "  " +:+ Py.str_of_nat i +:+ ")" +:+ Py.nl
  +:+ "    set -e -x" +:+ Py.nl
  +:+ lines_text chunk
  +:+ "    exit 0;;" +:+ Py.nl.

Fixpoint cases_text (i : nat) (chunks : list (list string)) : string :=
  match chunks with
  | [] => EmptyString
  | chunk :: chunks' => case_text i chunk +:+ cases_text (S i) chunks'
  end.

(** The argument [prefix] of [submit_to_slurm] when it is [None] or a
    [str], and the prefix of the names of the script and of the logs
    that results. *)
Definition prefix_val (prefix : option string) : pyval :=
  match prefix with
  | None => PyNone
  | Some p => PyStr p
  end.

Definition script_prefix (w : world) (prefix : option string) : string :=
  let stem := match prefix with
              | None => (Path.splitext (Path.basename (argv0 w))).1
              | Some p => p
              end in
  if Py.endswith "." stem then stem else stem +:+ ".".



(** The commands of the immediate mode that end with status 0, each
    one judged on the trace as it stands when the command starts. *)
Fixpoint successes (sh : shell) (t : list event) (cmds : list string) : nat :=
  match cmds with
  | [] => 0
  | cmd :: cmds' =>
      (if sh t cmd then 1 else 0) + successes sh (t ++ [CheckCall cmd]) cmds'
  end.

(** The line that closes the immediate mode. *)
Definition summary (verb : string) (done errored : Z) : string :=
  "Successfully applied " +:+ verb +:+ " to " +:+ Py.str_of_Z done
  +:+ " files, " +:+ Py.str_of_Z errored +:+ " errors.".

(** What happens to the script [name] between its creation and its
    removal. *)
Definition script_event (name : string) (ev : event) : Prop :=
  ev = Getcwd \/ (exists script, ev = Flush name script)
  \/ exists range, ev = Call ["sbatch"; range; name].

(** The command of the converter for one TIFF file. *)
Definition convert_cmd (keep : bool) (path : string) : string :=
  convert_fmt keep path ((Path.splitext path).1 +:+ ".png").

(** What [build_file_list] makes of one of its arguments: the path it
    examines, the files it collects and the events it leaves. *)
Definition abspath (cwd path : string) : string :=
  if Path.isabs path then path else Path.join cwd path.

Definition walked (w : world) (top : string) : list string :=
  concat (map (fun '(dirpath, _, filenames) => map (Path.join dirpath) filenames)
              (os_walk w top : list (string * list string * list string))).

Definition collected (w : world) (path : string) : list string :=
  if path_exists w path then
    let p := abspath (cwd w) path in
    if path_isdir w p then walked w p else [p]
  else [].

Definition probes (w : world) (path : string) : list event :=
  PathExists path ::
  (if path_exists w path then
     let p := abspath (cwd w) path in
     PathIsdir p :: (if path_isdir w p then [Walk p] else [])
   else [Log "ERROR" ("Path `" +:+ path +:+ "` does not exist, ignoring.")]).

(** The events that change something: a script written or removed, a
    process started. *)
Definition acts (ev : event) : bool :=
  match ev with
  | TempCreate _ | Flush _ _ | TempDelete _ | Call _ | CheckCall _ => true
  | _ => false
  end.

(** A string without the character [c]; groups whose texts are all so. *)
Definition lacks (c : ascii) (s : string) : Prop := Py.contains c s = false.

Definition all_lack (c : ascii) (g : gmap string string) : Prop :=
  map_Forall (fun _ v => lacks c v) g.

(** [g'] defines every group that [g] defines. *)
Definition keeps (g g' : gmap string string) : Prop :=
  forall x, is_Some (g !! x) -> is_Some (g' !! x).

(** Did a search find a match? *)
Definition found {A} (o : option A) : bool :=
  match o with Some _ => true | None => false end.


(** [derives r s s']: under [re.I], [r] can match the head of [s] and
    leave [s']. *)
Inductive derives : Re.regex -> string -> string -> Prop :=
| derives_eps s : derives Re.Eps s s
| derives_chr cs x s :
    Re.in_charset true cs x = true -> derives (Re.Chr cs) (String x s) s
| derives_star_stop cs s : derives (Re.Star cs) s s
| derives_star_step cs x s s' :
    Re.in_charset true cs x = true -> derives (Re.Star cs) s s' ->
    derives (Re.Star cs) (String x s) s'
| derives_seq r1 r2 s s1 s2 :
    derives r1 s s1 -> derives r2 s1 s2 -> derives (Re.Seq r1 r2) s s2
| derives_alt_l r1 r2 s s' : derives r1 s s' -> derives (Re.Alt r1 r2) s s'
| derives_alt_r r1 r2 s s' : derives r2 s s' -> derives (Re.Alt r1 r2) s s'
| derives_group name r s s' : derives r s s' -> derives (Re.Group name r) s s'.

(** Does [r] hold a group named [x]? *)
Fixpoint binds (x : string) (r : Re.regex) : bool :=
  match r with
  | Re.Eps | Re.Chr _ | Re.Star _ => false
  | Re.Seq r1 r2 | Re.Alt r1 r2 => binds x r1 || binds x r2
  | Re.Group name r1 =>
      match name with
      | Some y => String.eqb x y || binds x r1
      | None => binds x r1
      end
  end.

(** [s.isdigit()], the empty string let through. *)
Fixpoint all_digits (s : string) : bool :=
  match s with
  | EmptyString => true
  | String c s' => Re.is_digit c && all_digits s'
  end.

(** ** A world for the examples *)

Module Example.

Definition w : world := {|
  argv0 := "/usr/local/bin/microf.py";
  cwd := "/home/user";
  path_exists := fun p => negb (String.eqb p "missing");
  path_isdir := fun p => String.eqb p "/data";
  os_walk := fun _ =>
    [ ("/data", ["plate 1"], ["notes.txt"]);
      ("/data/plate 1", [],
       ["E_1_B - 03(fld 4 wv Blue - FITC).tif"; "E_1_B - 03(fld 4 wv Cy3).tif"]) ];
  tempname := fun prefix suffix => "/tmp/" +:+ prefix +:+ "k3Zq1x" +:+ suffix;
|}.

Definition sh : shell := fun _ _ => true.

(** A reader of plain command lines: the action first, then options
    and paths in any order. *)
Fixpoint scan (argv : list string) (a : Args.t) : Args.t :=
  match argv with
  | [] => a
  | arg :: argv' =>
      scan argv'
        (if String.eqb arg "--keep" then
           {| Args.action_ := Args.action_ a; Args.path := Args.path a;
              Args.keep := true; Args.check := Args.check a;
              Args.batch := Args.batch a; Args.batch_size := Args.batch_size a |}
         else if String.eqb arg "--check" then
           {| Args.action_ := Args.action_ a; Args.path := Args.path a;
              Args.keep := Args.keep a; Args.check := true;
              Args.batch := Args.batch a; Args.batch_size := Args.batch_size a |}
         else if String.eqb arg "--batch" then
           {| Args.action_ := Args.action_ a; Args.path := Args.path a;
              Args.keep := Args.keep a; Args.check := Args.check a;
              Args.batch := true; Args.batch_size := Args.batch_size a |}
         else
           {| Args.action_ := Args.action_ a; Args.path := Args.path a ++ [arg];
              Args.keep := Args.keep a; Args.check := Args.check a;
              Args.batch := Args.batch a; Args.batch_size := Args.batch_size a |})
  end.

Definition parse_args (argv : list string) : outcome Args.t :=
  let start action := {| Args.action_ := action; Args.path := []; Args.keep := false;
                         Args.check := false; Args.batch := false;
                         Args.batch_size := 200 |} in
  match argv with
  | action :: argv' =>
      if String.eqb action "rename" then Ok (scan argv' (start Args.rename))
      else if String.eqb action "convert" then Ok (scan argv' (start Args.convert))
      else Raise (SystemExit 2)
  | [] => Raise (SystemExit 2)
  end.

End Example.

(** * Properties *)


(** ** The monad: one-step equations *)

Lemma bind_ok {A B} (m : M A) (f : A -> M B) w sh t t' a :
  m w sh t = (t', Ok a) -> (m ≫= f) w sh t = f a w sh t'.
Proof. intros H. unfold mbind, M_bind. now rewrite H. Qed.

Lemma bind_raise {A B} (m : M A) (f : A -> M B) w sh t t' e :
  m w sh t = (t', Raise e) -> (m ≫= f) w sh t = (t', Raise e).
Proof. intros H. unfold mbind, M_bind. now rewrite H. Qed.

Lemma bind_emit {B} ev (f : unit -> M B) w sh t :
  (emit ev ≫= f) w sh t = f tt w sh (t ++ [ev]).
Proof. reflexivity. Qed.

Lemma bind_print {B} line (f : unit -> M B) w sh t :
  (print line ≫= f) w sh t = f tt w sh (t ++ [Stdout line]).
Proof. reflexivity. Qed.

Lemma bind_ask {A B} (g : world -> A) (f : A -> M B) w sh t :
  (ask g ≫= f) w sh t = f (g w) w sh t.
Proof. reflexivity. Qed.

Lemma bind_ret {A B} (a : A) (f : A -> M B) w sh t :
  (mret a ≫= f) w sh t = f a w sh t.
Proof. reflexivity. Qed.

Ltac munfold :=
  unfold mbind, M_bind, mret, M_ret, ask, emit, raise, lift, timeout in *; simpl.

(** ** Preview mode *)

Lemma for_print cmds w sh t :
  for_ cmds print w sh t = (t ++ map Stdout cmds, Ok tt).
Proof.
  revert t. induction cmds as [|cmd cmds IH]; intros t.
  - simpl. unfold mret, M_ret. now rewrite app_nil_r.
  - change (for_ (cmd :: cmds) print) with (print cmd ≫= fun _ => for_ cmds print).
    rewrite bind_print, IH, <- app_assoc. reflexivity.
Qed.

(** C9. In preview mode ([just_print] set) [run] prints every command,
    in order, on the standard output and does nothing else: no command
    is executed, no script is written, the scheduler is not called, and
    the call returns normally; whatever [batch] and [verb] are. *)
Theorem run_preview cmds batch verb w sh t :
  run cmds true batch verb w sh t = (t ++ map Stdout cmds, Ok tt).
Proof.
  unfold run. destruct verb as [|s|a b]; munfold;
    try destruct (Path.splitext _) as [stem ext]; apply for_print.
Qed.

(** C8. When the command line asks for the action [rename] together
    with [--keep], [main] logs one error and exits with [EX_USAGE]:
    the trace holds nothing else, so no path was collected and no
    pattern was tried. *)
Theorem keep_with_rename_exits parse_args argv args w sh t :
  parse_args argv = Ok args ->
  Args.action_ args = Args.rename ->
  Args.keep args = true ->
  main parse_args argv w sh t =
    (t ++ [Log "ERROR" "Cannot use option `--keep` with `rename` action."],
     Raise (SystemExit 64)).
Proof.
  intros Hp Ha Hk. unfold main. rewrite Hp. unfold lift.
  unfold mbind at 1, M_bind. rewrite Ha, Hk. reflexivity.
Qed.

(** ** Computations only ever extend the trace *)

Lemma extends_ret {A} (a : A) : extends (mret a).
Proof. intros w sh t. exists []. simpl. now rewrite app_nil_r. Qed.

Lemma extends_bind {A B} (m : M A) (f : A -> M B) :
  extends m -> (forall a, extends (f a)) -> extends (m ≫= f).
Proof.
  intros Hm Hf w sh t. destruct (Hm w sh t) as [t1 H1].
  unfold mbind, M_bind. destruct (m w sh t) as [t' [a|e|]]; simpl in *; subst.
  - destruct (Hf a w sh (t ++ t1)) as [t2 H2]. exists (t1 ++ t2).
    now rewrite H2, app_assoc.
  - now exists t1.
  - now exists t1.
Qed.

Lemma extends_emit ev : extends (emit ev).
Proof. intros w sh t. now exists [ev]. Qed.

Lemma extends_ask {A} (g : world -> A) : extends (ask g).
Proof. intros w sh t. exists []. simpl. now rewrite app_nil_r. Qed.

Lemma extends_lift {A} (x : outcome A) : extends (lift x).
Proof. intros w sh t. exists []. simpl. now rewrite app_nil_r. Qed.

Lemma extends_raise {A} e : extends (@raise A e).
Proof. intros w sh t. exists []. simpl. now rewrite app_nil_r. Qed.

Lemma extends_timeout {A} : extends (@timeout A).
Proof. intros w sh t. exists []. simpl. now rewrite app_nil_r. Qed.

Lemma extends_finally {A} (m : M A) ev : extends m -> extends (finally m ev).
Proof.
  intros Hm w sh t. destruct (Hm w sh t) as [t1 H1]. unfold finally.
  destruct (m w sh t) as [t' r]; simpl in *; subst.
  exists (t1 ++ [ev]). now rewrite app_assoc.
Qed.

Lemma extends_check_call cmd : extends (check_call cmd).
Proof. intros w sh t. now exists [CheckCall cmd]. Qed.

Lemma extends_for {A} (xs : list A) body :
  (forall x, extends (body x)) -> extends (for_ xs body).
Proof.
  intros Hb. induction xs as [|x xs IH]; simpl.
  - apply extends_ret.
  - apply extends_bind; auto.
Qed.

Create HintDb extends.
#[export] Hint Resolve extends_ret extends_emit extends_ask extends_lift
  extends_raise extends_timeout extends_check_call : extends.

Ltac extends_step :=
  first [ apply extends_bind; [|intros ?]
        | apply extends_finally
        | apply extends_for; intros ?
        | solve [auto with extends] ].

Lemma extends_submit cmds size prefix : extends (submit_to_slurm cmds size prefix).
Proof.
  unfold submit_to_slurm.
  extends_step. { destruct prefix; repeat extends_step. }
  extends_step. { destruct a; repeat extends_step. }
  repeat extends_step.
  destruct (Itertools.tuples _ _); [|extends_step].
  destruct (write_cases _ _ _ _) as [n script].
  repeat extends_step. destruct n; repeat extends_step.
Qed.

Lemma extends_run_direct cmds done errored : extends (run_direct cmds done errored).
Proof.
  revert done errored. induction cmds as [|cmd cmds IH]; intros done errored; simpl.
  - extends_step.
  - extends_step; [extends_step|]. destruct a; apply IH.
Qed.

Lemma extends_run cmds just_print batch verb : extends (run cmds just_print batch verb).
Proof.
  unfold run. extends_step.
  { destruct verb; repeat extends_step.
    destruct (Path.splitext _); extends_step. }
  destruct just_print; [unfold print; repeat extends_step|].
  destruct (negb _); [apply extends_submit|].
  extends_step; [apply extends_run_direct|].
  destruct a0. unfold print. extends_step.
Qed.

(** ** Collecting never fails *)

Lemma walker_ok path w sh t :
  exists files, walker path w sh t = (t ++ [Walk path], Ok files).
Proof. eexists. reflexivity. Qed.

Lemma build_file_list_loop_ok cwd paths result w sh t :
  exists t' files,
    build_file_list_loop cwd paths result w sh t = (t ++ t', Ok (result ++ files)).
Proof.
  revert result t. induction paths as [|path paths IH]; intros result t.
  - exists [], []. simpl. unfold mret, M_ret. now rewrite !app_nil_r.
  - cbn [build_file_list_loop]. rewrite bind_emit, bind_ask.
    destruct (path_exists w path); cbn [negb].
    + rewrite bind_emit, bind_ask.
      set (p := if Path.isabs path then path else Path.join cwd path).
      destruct (path_isdir w p).
      * destruct (walker_ok p w sh ((t ++ [PathExists path]) ++ [PathIsdir p])) as [files Hw].
        rewrite (bind_ok _ _ _ _ _ _ _ Hw).
        destruct (IH (result ++ files) (((t ++ [PathExists path]) ++ [PathIsdir p]) ++ [Walk p]))
          as (t' & fs & ->).
        exists ([PathExists path; PathIsdir p; Walk p] ++ t'), (files ++ fs).
        now rewrite <- !app_assoc.
      * destruct (IH (result ++ [p]) ((t ++ [PathExists path]) ++ [PathIsdir p]))
          as (t' & fs & ->).
        exists ([PathExists path; PathIsdir p] ++ t'), ([p] ++ fs).
        now rewrite <- !app_assoc.
    + rewrite bind_emit.
      destruct (IH result ((t ++ [PathExists path])
                  ++ [Log "ERROR" ("Path `" +:+ path +:+ "` does not exist, ignoring.")]))
        as (t' & fs & ->).
      eexists (_ :: _ :: t'), fs. now rewrite <- !app_assoc.
Qed.

Lemma build_file_list_ok paths w sh t :
  exists t' inbox, build_file_list paths w sh t = (t ++ t', Ok inbox).
Proof.
  unfold build_file_list. rewrite bind_emit, bind_ask.
  destruct (build_file_list_loop_ok (cwd w) paths [] w sh (t ++ [Getcwd]))
    as (t' & files & ->).
  exists (Getcwd :: t'), files. now rewrite <- app_assoc.
Qed.

(** ** The two filtering loops *)

Lemma rename_filter_spec pat inbox to_do ignored w sh t :
  rename_filter pat inbox to_do ignored w sh t =
    (t ++ map unmatched_log (List.filter (fun p => negb (matches pat p)) inbox),
     Ok (to_do ++ List.filter (matches pat) inbox,
         (ignored + Z.of_nat (length (List.filter (fun p => negb (matches pat p)) inbox)))%Z)).
Proof.
  revert to_do ignored t.
  induction inbox as [|path inbox IH]; intros to_do ignored t.
  - simpl. unfold mret, M_ret. now rewrite !app_nil_r, Z.add_0_r.
  - cbn [rename_filter List.filter]. cbn zeta.
    assert (E : matches pat path =
                match Re.search true pat (Path.basename path) with
                | Some _ => true | None => false end) by reflexivity.
    destruct (Re.search true pat (Path.basename path)) as [g|];
      rewrite E; cbn [negb].
    + rewrite IH. now rewrite <- app_assoc.
    + rewrite bind_emit, IH.
      cbn [map length]. rewrite <- app_assoc. do 3 f_equal. lia.
Qed.

Lemma convert_filter_spec inbox to_do ignored w sh t :
  convert_filter inbox to_do ignored w sh t =
    (t ++ map (fun p => Stdout (p +:+ ": no TIFF extension, ignored!"))
            (List.filter (fun p => negb (tiff_path p)) inbox),
     Ok (to_do ++ map convert_op (List.filter tiff_path inbox),
         (ignored + Z.of_nat (length (List.filter (fun p => negb (tiff_path p)) inbox)))%Z)).
Proof.
  revert to_do ignored t.
  induction inbox as [|path inbox IH]; intros to_do ignored t.
  - simpl. unfold mret, M_ret. now rewrite !app_nil_r, Z.add_0_r.
  - cbn [convert_filter List.filter].
    assert (E : tiff_path path = is_tiff (Path.splitext path).2) by reflexivity.
    assert (E' : convert_op path = (path, (Path.splitext path).1 +:+ ".png"))
      by reflexivity.
    destruct (Path.splitext path) as [stem ext]. cbn [fst snd] in E, E'.
    rewrite E. destruct (is_tiff ext); cbn [negb].
    + rewrite IH. cbn [map]. rewrite E'. now rewrite <- app_assoc.
    + rewrite bind_print, IH.
      cbn [map length]. rewrite <- app_assoc. do 3 f_equal. lia.
Qed.

Lemma filter_split_length {A} (f : A -> bool) (l : list A) :
  length (List.filter f l) + length (List.filter (fun x => negb (f x)) l) = length l.
Proof.
  induction l as [|x l IH]; [reflexivity|].
  simpl. destruct (f x); simpl; lia.
Qed.

(** ** The reports *)

Lemma extends_tail {A} (m : M A) w sh t :
  extends m -> exists t', m w sh t = (t ++ t', (m w sh t).2).
Proof.
  intros H. destruct (H w sh t) as [t' Ht]. exists t'.
  rewrite <- Ht. apply surjective_pairing.
Qed.

Lemma rename_func_report args m w sh t t1 inbox :
  build_file_list (Args.path args) w sh t = (t1, Ok inbox) ->
  let to_do := List.filter (matches (pattern m)) inbox in
  let ignored := List.filter (fun p => negb (matches (pattern m) p)) inbox in
  rename_func args m w sh t =
    (if is_nil to_do then mret tt
     else
       cmds ← lift (rename_cmds m to_do []);
       run cmds (Args.check args) (Z.b2z (Args.batch args)) (PyStr "rename"))
      w sh
      ((t1 ++ map unmatched_log ignored)
         ++ [Stdout (report "rename" (length inbox) (length to_do)
                            (Z.of_nat (length ignored)))]).
Proof.
  intros Hb to_do ignored. unfold rename_func.
  rewrite (bind_ok _ _ _ _ _ _ _ Hb).
  rewrite (bind_ok _ _ _ _ _ _ _ (rename_filter_spec _ _ _ _ _ _ _)).
  cbn [app]. rewrite bind_print. reflexivity.
Qed.

Lemma convert_func_report args w sh t t1 inbox :
  build_file_list (Args.path args) w sh t = (t1, Ok inbox) ->
  let to_do := map convert_op (List.filter tiff_path inbox) in
  let ignored := List.filter (fun p => negb (tiff_path p)) inbox in
  convert_func args w sh t =
    (if is_nil to_do then mret tt
     else
       run (map (fun '(old, new) => convert_fmt (Args.keep args) old new) to_do)
           (Args.check args) (Z.b2z (Args.batch args)) (PyStr "convert"))
      w sh
      ((t1 ++ map (fun p => Stdout (p +:+ ": no TIFF extension, ignored!")) ignored)
         ++ [Stdout (report "convert" (length inbox) (length to_do)
                            (Z.of_nat (length ignored)))]).
Proof.
  intros Hb to_do ignored. unfold convert_func.
  rewrite (bind_ok _ _ _ _ _ _ _ Hb).
  rewrite (bind_ok _ _ _ _ _ _ _ (convert_filter_spec _ _ _ _ _ _)).
  cbn [app]. rewrite bind_print. reflexivity.
Qed.

(** C7. Collecting never fails, and for the [n] collected files both
    the renamer and the converter print a report whose counts satisfy
    [to_do + ignored = n]: the files to process are those the filter
    keeps, the ignored ones are the others. *)
Theorem reports_complete args m w sh t :
  exists t1 inbox,
    build_file_list (Args.path args) w sh t = (t1, Ok inbox) /\
    (exists to_do ignored t2 t3 r,
        rename_func args m w sh t =
          (t2 ++ [Stdout (report "rename" (length inbox) to_do ignored)] ++ t3, r)
        /\ to_do = length (List.filter (matches (pattern m)) inbox)
        /\ ignored = Z.of_nat (length (List.filter
                                  (fun p => negb (matches (pattern m) p)) inbox))
        /\ (Z.of_nat to_do + ignored = Z.of_nat (length inbox))%Z) /\
    (exists to_do ignored t2 t3 r,
        convert_func args w sh t =
          (t2 ++ [Stdout (report "convert" (length inbox) to_do ignored)] ++ t3, r)
        /\ to_do = length (List.filter tiff_path inbox)
        /\ ignored = Z.of_nat (length (List.filter
                                  (fun p => negb (tiff_path p)) inbox))
        /\ (Z.of_nat to_do + ignored = Z.of_nat (length inbox))%Z).
Proof.
  destruct (build_file_list_ok (Args.path args) w sh t) as (t' & inbox & Hb).
  exists (t ++ t'), inbox. split; [exact Hb|]. split.
  - rewrite (rename_func_report _ m _ _ _ _ _ Hb).
    match goal with |- context [?k w sh (?a ++ [?ev])] =>
      destruct (extends_tail k w sh (a ++ [ev])) as [t3 ->] end.
    { destruct (is_nil _); [apply extends_ret|].
      apply extends_bind; [apply extends_lift|intros; apply extends_run]. }
    do 5 eexists. split; [rewrite <- app_assoc; reflexivity|].
    split; [reflexivity|]. split; [reflexivity|].
    pose proof (filter_split_length (matches (pattern m)) inbox). lia.
  - rewrite (convert_func_report _ _ _ _ _ _ Hb).
    match goal with |- context [?k w sh (?a ++ [?ev])] =>
      destruct (extends_tail k w sh (a ++ [ev])) as [t3 ->] end.
    { destruct (is_nil _); [apply extends_ret|apply extends_run]. }
    do 5 eexists. split; [rewrite <- app_assoc; rewrite length_map; reflexivity|].
    split; [reflexivity|]. split; [reflexivity|].
    pose proof (filter_split_length tiff_path inbox). lia.
Qed.

(** ** The two searches of the renamer agree *)

Lemma rename_cmds_raise m to_do cmds e :
  Forall (fun p => matches (pattern m) p = true) to_do ->
  rename_cmds m to_do cmds = Raise e ->
  exists path params,
    In path to_do
    /\ Re.search true (pattern m) (Path.basename path) = Some params
    /\ replace_fn m params (channels m) = Raise e.
Proof.
  intros Hall. revert cmds.
  induction Hall as [|path to_do Hm Hall IH]; intros cmds H; [discriminate|].
  cbn [rename_cmds] in H. cbn zeta in H. unfold matches in Hm.
  destruct (Re.search true (pattern m) (Path.basename path)) as [params|] eqn:Hs;
    [|discriminate].
  destruct (replace_fn m params (channels m)) as [[[[exp_name well] site] channel]|e'|] eqn:Hr.
  - cbn in H. destruct (IH _ H) as (p & g & Hin & Hg). exists p, g. split; [now right|exact Hg].
  - cbn in H. inversion H; subst. exists path, params. split; [now left|]. now split.
  - discriminate.
Qed.

Lemma rename_cmds_no_timeout m to_do cmds :
  (forall params, replace_fn m params (channels m) <> Timeout) ->
  rename_cmds m to_do cmds <> Timeout.
Proof.
  intros Hr. revert cmds. induction to_do as [|path to_do IH]; intros cmds; [discriminate|].
  cbn [rename_cmds]. cbn zeta.
  destruct (Re.search true (pattern m) (Path.basename path)) as [params|]; [|discriminate].
  specialize (Hr params).
  destruct (replace_fn m params (channels m)) as [[[[exp_name well] site] channel]|e'|];
    cbn; [apply IH|discriminate|congruence].
Qed.

Lemma filter_matches pat inbox :
  Forall (fun p => matches pat p = true) (List.filter (matches pat) inbox).
Proof. apply List.Forall_forall. intros p Hp. now apply filter_In in Hp. Qed.

(** C10. Every path that the first loop of the renamer puts in
    [to_do] is matched again by the second search on its base name;
    so whatever the second loop raises was raised by the translation
    function on the groups of a successful match, never by taking the
    groups of a failed one. *)
Theorem second_search_matches m inbox w sh t t' to_do ignored :
  rename_filter (pattern m) inbox [] 0%Z w sh t = (t', Ok (to_do, ignored)) ->
  (forall path, In path to_do ->
     exists params, Re.search true (pattern m) (Path.basename path) = Some params)
  /\ (forall e, rename_cmds m to_do [] = Raise e ->
        exists path params,
          In path to_do
          /\ Re.search true (pattern m) (Path.basename path) = Some params
          /\ replace_fn m params (channels m) = Raise e).
Proof.
  rewrite rename_filter_spec. intros H. inversion H; subst. cbn [app]. split.
  - intros path Hin. apply filter_In in Hin as [_ Hm]. unfold matches in Hm.
    destruct (Re.search _ _ _) as [params|]; [now exists params|discriminate].
  - intros e He. eapply rename_cmds_raise; [apply filter_matches|exact He].
Qed.

(** ** Translation of the metadata *)

Lemma getitem_cases d key :
  (exists v, d !! key = Some v /\ getitem d key = Ok v)
  \/ getitem d key = Raise (KeyError key).
Proof. unfold getitem. destruct (d !! key) as [v|]; [left; now exists v|now right]. Qed.

Lemma list_item_cases l i :
  (exists v, list_item l i = Ok v) \/ list_item l i = Raise IndexError.
Proof. unfold list_item. destruct (nth_error _ _) as [v|]; [left; eexists; reflexivity|right; reflexivity]. Qed.

(** Whatever [_IC6000_replace] raises is a [LookupError]. *)
Lemma IC6000_replace_outcome params chans :
  match _IC6000_replace params chans with
  | Ok _ => True
  | Raise e => is_LookupError e = true
  | Timeout => False
  end.
Proof.
  unfold _IC6000_replace.
  repeat match goal with
  | |- context [getitem ?d ?k] =>
      destruct (getitem_cases d k) as [(? & _ & ->)| ->]; cbn [mbind outcome_bind]
  | |- context [list_item ?l ?i] =>
      destruct (list_item_cases l i) as [(? & ->)| ->]; cbn [mbind outcome_bind]
  end; cbn; auto.
Qed.

(** An unknown channel label makes it raise. *)
Lemma IC6000_replace_unknown_channel params chans c :
  params !! "c" = Some c ->
  chans !! Py.replace " " "" c = None ->
  exists e, _IC6000_replace params chans = Raise e /\ is_LookupError e = true.
Proof.
  intros Hc Hch. pose proof (IC6000_replace_outcome params chans) as Ho.
  destruct (_IC6000_replace params chans) as [r|e|] eqn:E; [|now exists e|easy].
  exfalso. clear Ho. revert E. unfold _IC6000_replace.
  repeat match goal with
  | |- context [getitem params ?k] =>
      destruct (getitem_cases params k) as [(? & ? & ->)| ->];
      cbn [mbind outcome_bind]; [|discriminate]
  | |- context [list_item ?l ?i] =>
      destruct (list_item_cases l i) as [(? & ->)| ->];
      cbn [mbind outcome_bind]; [|discriminate]
  end.
  match goal with H : params !! "c" = Some ?x |- _ =>
    rewrite Hc in H; inversion H; subst x end.
  unfold getitem. rewrite Hch. discriminate.
Qed.

Lemma rename_cmds_bad path params c to_do cmds :
  Forall (fun p => matches IC6000_pattern p = true) to_do ->
  In path to_do ->
  Re.search true IC6000_pattern (Path.basename path) = Some params ->
  params !! "c" = Some c ->
  IC6000_channels !! Py.replace " " "" c = None ->
  exists e, rename_cmds IC6000 to_do cmds = Raise e /\ is_LookupError e = true.
Proof.
  intros Hall Hin Hs Hc Hch. revert cmds.
  induction Hall as [|p to_do Hm Hall IH]; intros cmds; [destruct Hin|].
  cbn [rename_cmds pattern channels replace_fn IC6000]. cbn zeta.
  unfold matches in Hm.
  destruct (Re.search true IC6000_pattern (Path.basename p)) as [g|] eqn:Hg;
    [|discriminate].
  pose proof (IC6000_replace_outcome g IC6000_channels) as Ho.
  destruct (_IC6000_replace g IC6000_channels) as [[[[exp_name well] site] channel]|e|] eqn:Hr;
    [|now exists e|easy].
  cbn. destruct Hin as [->|Hin]; [|now apply IH].
  rewrite Hs in Hg. inversion Hg; subst g.
  destruct (IC6000_replace_unknown_channel _ _ _ Hc Hch) as (e & He & _). congruence.
Qed.

(** C6. If a collected file matches the pattern of IC6000 and its
    channel label, spaces removed, is not a key of the channel map,
    then the translation of its groups raises a [LookupError], and so
    does [rename_func]: the exception leaves the renamer right after
    the report, before any command is printed, run or submitted. *)
Theorem unknown_channel_raises args w sh t t1 inbox path params c :
  build_file_list (Args.path args) w sh t = (t1, Ok inbox) ->
  In path inbox ->
  Re.search true IC6000_pattern (Path.basename path) = Some params ->
  params !! "c" = Some c ->
  IC6000_channels !! Py.replace " " "" c = None ->
  (exists e, _IC6000_replace params IC6000_channels = Raise e
             /\ is_LookupError e = true)
  /\ exists e,
       rename_func args IC6000 w sh t =
         (t1 ++ map unmatched_log
                  (List.filter (fun p => negb (matches IC6000_pattern p)) inbox)
             ++ [Stdout (report "rename" (length inbox)
                           (length (List.filter (matches IC6000_pattern) inbox))
                           (Z.of_nat (length (List.filter
                              (fun p => negb (matches IC6000_pattern p)) inbox))))],
          Raise e)
       /\ is_LookupError e = true.
Proof.
  intros Hb Hin Hs Hc Hch. split.
  - eapply IC6000_replace_unknown_channel; eauto.
  - assert (Hin' : In path (List.filter (matches IC6000_pattern) inbox)).
    { apply filter_In. split; [exact Hin|]. unfold matches. now rewrite Hs. }
    destruct (rename_cmds_bad path params c _ [] (filter_matches _ inbox) Hin' Hs Hc Hch)
      as (e & He & Hl).
    exists e. split; [|exact Hl].
    rewrite (rename_func_report _ IC6000 _ _ _ _ _ Hb). cbn [pattern IC6000].
    destruct (List.filter (matches IC6000_pattern) inbox) as [|p l] eqn:Hf; [destruct Hin'|].
    cbn [is_nil]. rewrite <- Hf in *. unfold lift, mbind, M_bind. rewrite He.
    now rewrite <- app_assoc.
Qed.

(** ** Paths: the directory of a joined name *)

Lemma rfind_lower c s : (-1 <= Py.rfind c s)%Z.
Proof.
  induction s as [|a s IH]; cbn [Py.rfind]; [lia|].
  destruct (0 <=? Py.rfind c s)%Z eqn:E; [apply Z.leb_le in E; lia|].
  destruct (Ascii.eqb a c); lia.
Qed.

Lemma rfind_none c s : Py.contains c s = false -> Py.rfind c s = (-1)%Z.
Proof.
  induction s as [|a s IH]; cbn [Py.rfind Py.contains]; [reflexivity|].
  intros H. apply orb_false_iff in H as [Ha Hs]. rewrite (IH Hs), Ha. reflexivity.
Qed.

Lemma rfind_app_found c a b :
  (0 <= Py.rfind c b)%Z ->
  Py.rfind c (a +:+ b) = (Z.of_nat (String.length a) + Py.rfind c b)%Z.
Proof.
  intros Hb. induction a as [|x a IH].
  { change (EmptyString +:+ b) with b. cbn [String.length]. lia. }
  change (String x a +:+ b) with (String x (a +:+ b)).
  cbn [Py.rfind String.length]. rewrite IH.
  destruct (Z.leb_spec 0 (Z.of_nat (String.length a) + Py.rfind c b)); lia.
Qed.

Lemma rfind_app_none c a b :
  Py.rfind c b = (-1)%Z -> Py.rfind c (a +:+ b) = Py.rfind c a.
Proof.
  intros Hb. induction a as [|x a IH]; [exact Hb|].
  change (String x a +:+ b) with (String x (a +:+ b)).
  cbn [Py.rfind]. now rewrite IH.
Qed.

Lemma rfind_endswith c a :
  Py.endswith c a = true -> Py.rfind c a = (Z.of_nat (String.length a) - 1)%Z.
Proof.
  induction a as [|x a IH]; [discriminate|].
  cbn [Py.endswith Py.rfind String.length]. destruct a as [|y a].
  - intros ->. reflexivity.
  - intros H. rewrite (IH H).
    destruct (Z.leb_spec 0 (Z.of_nat (String.length (String y a)) - 1));
      cbn [String.length] in *; lia.
Qed.

Lemma slice_to_app a b : Py.slice_to (String.length a) (a +:+ b) = a.
Proof.
  induction a as [|x a IH]; [now destruct b|].
  change (String x a +:+ b) with (String x (a +:+ b)).
  cbn [String.length Py.slice_to]. now rewrite IH.
Qed.

Lemma slice_from_app a b : Py.slice_from (String.length a) (a +:+ b) = b.
Proof.
  induction a as [|x a IH]; [now destruct b|].
  change (String x a +:+ b) with (String x (a +:+ b)).
  cbn [String.length Py.slice_from]. exact IH.
Qed.

Lemma length_append a b :
  String.length (a +:+ b) = (String.length a + String.length b)%nat.
Proof.
  induction a as [|x a IH]; [reflexivity|].
  change (String x a +:+ b) with (String x (a +:+ b)).
  cbn [String.length]. now rewrite IH.
Qed.

Lemma rstrip_no_end c s : Py.endswith c (Py.rstrip c s) = false.
Proof.
  induction s as [|a s IH]; [reflexivity|]. cbn [Py.rstrip].
  destruct (Py.rstrip c s) as [|y t] eqn:E.
  - destruct (Ascii.eqb a c) eqn:Ea; [reflexivity|]. cbn. exact Ea.
  - cbn [Py.endswith]. exact IH.
Qed.

Lemma rstrip_id c s : Py.endswith c s = false -> Py.rstrip c s = s.
Proof.
  induction s as [|a s IH]; [reflexivity|]. cbn [Py.endswith Py.rstrip].
  destruct s as [|y s].
  - intros ->. reflexivity.
  - intros H. rewrite (IH H). reflexivity.
Qed.

Lemma rstrip_snoc c s : Py.rstrip c (s +:+ String c EmptyString) = Py.rstrip c s.
Proof.
  induction s as [|a s IH].
  - change (EmptyString +:+ String c EmptyString) with (String c EmptyString).
    cbn [Py.rstrip]. now rewrite Ascii.eqb_refl.
  - change (String a s +:+ String c EmptyString)
      with (String a (s +:+ String c EmptyString)).
    cbn [Py.rstrip]. now rewrite IH.
Qed.

Lemma rstrip_all c s : Py.rstrip c s = EmptyString -> Py.all_chars c s = true.
Proof.
  induction s as [|a s IH]; [reflexivity|]. cbn [Py.rstrip Py.all_chars].
  destruct (Py.rstrip c s) eqn:E; [|discriminate].
  destruct (Ascii.eqb a c); [intros _; now apply IH|discriminate].
Qed.

Lemma all_chars_rstrip c s :
  Py.all_chars c s = false -> Py.all_chars c (Py.rstrip c s) = false.
Proof.
  induction s as [|a s IH]; [discriminate|]. cbn [Py.all_chars Py.rstrip].
  intros H. destruct (Py.rstrip c s) as [|y t] eqn:E.
  - pose proof (rstrip_all c s E) as Hall. rewrite Hall, andb_true_r in H.
    rewrite H. cbn. now rewrite H.
  - cbn [Py.all_chars]. destruct (Ascii.eqb a c); [|reflexivity].
    cbn [andb] in *. destruct (Py.all_chars c s); [|now apply IH].
    discriminate.
Qed.

Lemma all_chars_snoc c s :
  Py.all_chars c (s +:+ String c EmptyString) = Py.all_chars c s.
Proof.
  induction s as [|a s IH].
  { change (EmptyString +:+ String c EmptyString) with (String c EmptyString).
    cbn [Py.all_chars]. now rewrite Ascii.eqb_refl. }
  change (String a s +:+ String c EmptyString)
    with (String a (s +:+ String c EmptyString)).
  cbn [Py.all_chars]. now rewrite IH.
Qed.

Lemma all_chars_endswith c s :
  Py.all_chars c s = true -> s <> EmptyString -> Py.endswith c s = true.
Proof.
  induction s as [|a s IH]; [congruence|]. cbn [Py.all_chars Py.endswith].
  intros H _. apply andb_true_iff in H as [Ha Hs].
  destruct s as [|y s]; [exact Ha|]. apply IH; [exact Hs|discriminate].
Qed.

Lemma startswith_none c s : Py.contains c s = false -> Py.startswith c s = false.
Proof. destruct s as [|a s]; [reflexivity|]. cbn. intros H. now apply orb_false_iff in H. Qed.

Lemma dirname_cases path :
  let D := Path.dirname path in
  D = EmptyString
  \/ (D <> EmptyString /\ Py.all_chars Path.sep D = true)
  \/ (D <> EmptyString /\ Py.all_chars Path.sep D = false
      /\ Py.endswith Path.sep D = false).
Proof.
  unfold Path.dirname. set (head := Py.slice_to _ _).
  destruct head as [|x h] eqn:E; [now left|].
  cbn [String.eqb negb andb].
  destruct (Py.all_chars Path.sep (String x h)) eqn:Ha; cbn [negb].
  - right. left. split; [discriminate|exact Ha].
  - right. right. pose proof (all_chars_rstrip _ _ Ha) as Hr.
    split; [|split; [exact Hr|apply rstrip_no_end]].
    intros Hn. rewrite Hn in Hr. discriminate.
Qed.

(** Joining the directory of a path and a name without separator
    gives a path in that directory, with that base name. *)
Lemma dirname_join path name :
  Py.contains Path.sep name = false ->
  Path.dirname (Path.join (Path.dirname path) name) = Path.dirname path
  /\ Path.basename (Path.join (Path.dirname path) name) = name.
Proof.
  intros Hname. pose proof (rfind_none _ _ Hname) as Hr.
  pose proof (startswith_none _ _ Hname) as Hst.
  destruct (dirname_cases path) as [HD|[[HD Hall]|(HD & Hall & Hend)]];
    set (D := Path.dirname path) in *; clearbody D; unfold Path.join; rewrite Hst.
  - subst D. cbn [String.eqb orb]. change (EmptyString +:+ name) with name.
    unfold Path.dirname, Path.basename, Path.after_last_sep. rewrite Hr. cbn.
    split; [now destruct name|reflexivity].
  - pose proof (all_chars_endswith _ _ Hall HD) as Hend. rewrite Hend, orb_true_r.
    assert (Hi : Path.after_last_sep (D +:+ name) = String.length D).
    { unfold Path.after_last_sep. rewrite rfind_app_none, (rfind_endswith _ _ Hend) by exact Hr.
      lia. }
    unfold Path.dirname, Path.basename. rewrite Hi, slice_to_app, slice_from_app.
    split; [|reflexivity]. rewrite Hall. cbn [negb andb]. now rewrite andb_false_r.
  - rewrite Hend, orb_false_r.
    destruct (String.eqb_spec D EmptyString) as [|_]; [contradiction|].
    assert (Hs : Py.rfind Path.sep (String Path.sep name) = 0%Z).
    { cbn [Py.rfind]. rewrite Hr. reflexivity. }
    assert (Hi : Path.after_last_sep (D +:+ String Path.sep name)
                 = String.length (D +:+ String Path.sep EmptyString)).
    { unfold Path.after_last_sep. rewrite rfind_app_found by (rewrite Hs; lia).
      rewrite Hs, length_append. cbn [String.length]. lia. }
    assert (Happ : D +:+ String Path.sep name
                   = (D +:+ String Path.sep EmptyString) +:+ name).
    { clear. induction D as [|x D IH]; [reflexivity|].
      change (String x D +:+ String Path.sep name)
        with (String x (D +:+ String Path.sep name)).
      now rewrite IH. }
    unfold Path.dirname, Path.basename. rewrite Hi, Happ, slice_to_app, slice_from_app.
    split; [|reflexivity].
    rewrite all_chars_snoc, Hall, rstrip_snoc, (rstrip_id _ _ Hend).
    destruct (D +:+ String Path.sep EmptyString) eqn:E; [|reflexivity].
    destruct D; discriminate.
Qed.

(** ** The canonical name of a matched file *)

(** The second loop only ever adds commands, one per file. *)
Lemma rename_cmds_grows m to_do : forall cmds0 cmds,
  rename_cmds m to_do cmds0 = Ok cmds ->
  length cmds = length cmds0 + length to_do
  /\ forall j x, nth_error cmds0 j = Some x -> nth_error cmds j = Some x.
Proof.
  induction to_do as [|p to_do IH]; intros cmds0 cmds H.
  - cbn in H. inversion H; subst. cbn [length]. split; [lia|auto].
  - cbn [rename_cmds] in H. cbn zeta in H.
    destruct (Re.search true (pattern m) (Path.basename p)) as [g|]; [|discriminate].
    destruct (replace_fn m g (channels m)) as [[[[e w] s] c]|x|];
      cbn [mbind outcome_bind] in H; try discriminate.
    apply IH in H as [Hl Hp]. rewrite length_app in Hl. cbn [length] in *.
    split; [lia|]. intros j x Hj. apply Hp.
    rewrite nth_error_app1; [exact Hj|]. apply nth_error_Some. congruence.
Qed.

Lemma rename_cmds_nth m to_do : forall cmds0 cmds i path params e w s c,
  rename_cmds m to_do cmds0 = Ok cmds ->
  nth_error to_do i = Some path ->
  Re.search true (pattern m) (Path.basename path) = Some params ->
  replace_fn m params (channels m) = Ok (e, w, s, c) ->
  nth_error cmds (length cmds0 + i)
  = Some (mv_fmt path (Path.join (Path.dirname path) (CV7000 e w s c))).
Proof.
  induction to_do as [|p to_do IH]; intros cmds0 cmds i path params e w s c H Hi Hs Hr;
    [now destruct i|].
  cbn [rename_cmds] in H. cbn zeta in H.
  destruct i as [|i]; cbn [nth_error] in Hi.
  - inversion Hi; subst p. rewrite Hs, Hr in H. cbn [mbind outcome_bind] in H.
    apply rename_cmds_grows in H as [_ Hp]. apply Hp.
    rewrite Nat.add_0_r, nth_error_app2, Nat.sub_diag by lia. reflexivity.
  - destruct (Re.search true (pattern m) (Path.basename p)) as [g|]; [|discriminate].
    destruct (replace_fn m g (channels m)) as [[[[e' w'] s'] c']|x|];
      cbn [mbind outcome_bind] in H; try discriminate.
    pose proof (IH _ _ i _ _ _ _ _ _ H Hi Hs Hr) as E.
    rewrite length_app in E. cbn [length] in E.
    replace (length cmds0 + S i) with (length cmds0 + 1 + i) by lia. exact E.
Qed.

(** C2. A collected file whose name matches the pattern of IC6000
    with experiment "E1" (underscores removed), well "B-03" and channel
    "Blue-FITC" (spaces removed) and site "4" is translated to
    ("E1", "B03", "004", "02").  When the renamer has built its
    commands it hands them to [run], one per matched file, and the
    command of this file moves it to the path [new] whose base name is
    [E1_B03_T0001F004L01A01Z01C02.tif] and whose directory is the
    directory of the source.  The renamer hands nothing to [run] only
    if the translation of another matched file raises. *)
Theorem rename_E1_B03 args w sh t t1 inbox path params n w_ c :
  build_file_list (Args.path args) w sh t = (t1, Ok inbox) ->
  In path inbox ->
  Re.search true IC6000_pattern (Path.basename path) = Some params ->
  params !! "n" = Some n -> Py.replace "_" "" n = "E1" ->
  params !! "w" = Some w_ -> Py.replace " " "" w_ = "B-03" ->
  params !! "s" = Some "4" ->
  params !! "c" = Some c -> Py.replace " " "" c = "Blue-FITC" ->
  let to_do := List.filter (matches IC6000_pattern) inbox in
  let ignored := List.filter (fun p => negb (matches IC6000_pattern p)) inbox in
  let t2 := t1 ++ map unmatched_log ignored
               ++ [Stdout (report "rename" (length inbox) (length to_do)
                                  (Z.of_nat (length ignored)))] in
  let new := Path.join (Path.dirname path) "E1_B03_T0001F004L01A01Z01C02.tif" in
  _IC6000_replace params IC6000_channels = Ok ("E1", "B03", "004", "02")
  /\ Path.basename new = "E1_B03_T0001F004L01A01Z01C02.tif"
  /\ Path.dirname new = Path.dirname path
  /\ match rename_cmds IC6000 to_do [] with
     | Ok cmds =>
         rename_func args IC6000 w sh t
         = run cmds (Args.check args) (Z.b2z (Args.batch args)) (PyStr "rename") w sh t2
         /\ length cmds = length to_do
         /\ exists i, nth_error to_do i = Some path
                      /\ nth_error cmds i = Some (mv_fmt path new)
     | Raise e =>
         rename_func args IC6000 w sh t = (t2, Raise e)
         /\ exists other params',
              In other to_do /\ other <> path
              /\ Re.search true IC6000_pattern (Path.basename other) = Some params'
              /\ _IC6000_replace params' IC6000_channels = Raise e
     | Timeout => False
     end.
Proof.
  intros Hb Hin Hs Hn En Hw Ew Hsite Hc Ec to_do ignored t2 new.
  assert (Hr : _IC6000_replace params IC6000_channels = Ok ("E1", "B03", "004", "02")).
  { unfold _IC6000_replace, getitem.
    rewrite Hn, Hw, Hsite, Hc. cbn [mbind outcome_bind]. rewrite En, Ew, Ec.
    reflexivity. }
  destruct (dirname_join path "E1_B03_T0001F004L01A01Z01C02.tif" eq_refl) as [Hd Hbn].
  split; [exact Hr|]. split; [exact Hbn|]. split; [exact Hd|].
  assert (Hin' : In path to_do).
  { apply filter_In. split; [exact Hin|]. unfold matches. now rewrite Hs. }
  assert (Hf : rename_func args IC6000 w sh t
               = (cmds ← lift (rename_cmds IC6000 to_do []);
                  run cmds (Args.check args) (Z.b2z (Args.batch args)) (PyStr "rename"))
                   w sh t2).
  { rewrite (rename_func_report _ IC6000 _ _ _ _ _ Hb). cbn [pattern IC6000].
    fold to_do ignored. unfold t2. rewrite app_assoc.
    destruct to_do as [|p ps]; [destruct Hin'|reflexivity]. }
  destruct (rename_cmds IC6000 to_do []) as [cmds|e|] eqn:Ecmds.
  - split; [rewrite Hf; unfold lift; now rewrite (bind_ok _ _ _ _ _ _ _ eq_refl)|].
    split; [now apply rename_cmds_grows in Ecmds as [Hl _]|].
    apply In_nth_error in Hin' as [i Hi]. exists i. split; [exact Hi|].
    exact (rename_cmds_nth IC6000 to_do [] cmds i path params _ _ _ _ Ecmds Hi Hs Hr).
  - split; [rewrite Hf; unfold lift; now rewrite (bind_raise _ _ _ _ _ _ _ eq_refl)|].
    destruct (rename_cmds_raise IC6000 to_do [] e (filter_matches _ inbox) Ecmds)
      as (other & params' & Ho & Hso & Hro).
    exists other, params'. split; [exact Ho|]. split; [|now split].
    intros ->. cbn [pattern IC6000] in Hso. rewrite Hs in Hso. inversion Hso; subst params'.
    cbn [replace_fn channels IC6000] in Hro. congruence.
  - eapply (rename_cmds_no_timeout IC6000); [|exact Ecmds].
    intros g. cbn [replace_fn channels IC6000].
    pose proof (IC6000_replace_outcome g IC6000_channels) as Ho.
    intros E. now rewrite E in Ho.
Qed.

Lemma rename_E1_B03_witness :
  let args := {| Args.action_ := Args.rename;
                 Args.path := ["missing"; "E_1_B - 03(fld 4 wv Blue - FITC).tif"];
                 Args.keep := false; Args.check := true; Args.batch := false;
                 Args.batch_size := 200 |} in
  rename_func args IC6000 Example.w Example.sh []
  = ([Getcwd; PathExists "missing";
      Log "ERROR" "Path `missing` does not exist, ignoring.";
      PathExists "E_1_B - 03(fld 4 wv Blue - FITC).tif";
      PathIsdir "/home/user/E_1_B - 03(fld 4 wv Blue - FITC).tif";
      Stdout "Examined 1 files: 1 to rename, 0 ignored.";
      Stdout "mv '/home/user/E_1_B - 03(fld 4 wv Blue - FITC).tif' '/home/user/E1_B03_T0001F004L01A01Z01C02.tif'"],
     Ok tt).
Proof.
  intros args.
  pose (params := <["n" := "E_1"]> (<["w" := "B - 03"]> (<["s" := "4"]>
                    (<["c" := " Blue - FITC"]> (∅ : gmap string string))))).
  assert (Hb : build_file_list (Args.path args) Example.w Example.sh []
               = ([Getcwd; PathExists "missing";
                   Log "ERROR" "Path `missing` does not exist, ignoring.";
                   PathExists "E_1_B - 03(fld 4 wv Blue - FITC).tif";
                   PathIsdir "/home/user/E_1_B - 03(fld 4 wv Blue - FITC).tif"],
                  Ok ["/home/user/E_1_B - 03(fld 4 wv Blue - FITC).tif"]))
    by (vm_compute; reflexivity).
  assert (Hs : Re.search true IC6000_pattern
                 (Path.basename "/home/user/E_1_B - 03(fld 4 wv Blue - FITC).tif")
               = Some params) by (vm_compute; reflexivity).
  pose proof (rename_E1_B03 args Example.w Example.sh [] _ _ _ params
                "E_1" "B - 03" " Blue - FITC" Hb (or_introl eq_refl) Hs
                eq_refl eq_refl eq_refl eq_refl eq_refl eq_refl eq_refl) as H.
  cbv zeta in H. destruct H as (_ & _ & _ & H).
  vm_compute in H. destruct H as [H _]. exact H.
Defined.

(** ** Strings *)

Lemma append_cons x (a b : string) : String x a +:+ b = String x (a +:+ b).
Proof. reflexivity. Qed.

Lemma append_assoc (a b c : string) : (a +:+ b) +:+ c = a +:+ (b +:+ c).
Proof. induction a as [|x a IH]; [reflexivity|]. now rewrite !append_cons, IH. Qed.

Lemma append_nil_r (a : string) : a +:+ EmptyString = a.
Proof. induction a as [|x a IH]; [reflexivity|]. now rewrite append_cons, IH. Qed.

(** ** [izip_longest] over one shared iterator *)

Section Grouper.
Context {V : Type}.
Variable fill : V.

(** While the source holds a full tuple, a pass takes it and leaves
    every slot active. *)
Lemma fill_tuple_full k (l : list V) a :
  k <= length l ->
  Itertools.fill_tuple fill (repeat true k) l a
  = (Some (firstn k l), repeat true k, skipn k l, a).
Proof.
  revert l. induction k as [|k IH]; intros l Hk; [reflexivity|].
  destruct l as [|x l]; [simpl in Hk; lia|].
  cbn [repeat Itertools.fill_tuple]. rewrite IH by (simpl in Hk; lia).
  reflexivity.
Qed.

(** A source that runs dry in the middle of a pass: the tuple is
    padded and the slots that asked in vain are given up. *)
Lemma fill_tuple_partial k (l : list V) a :
  length l < k -> k - length l < a ->
  Itertools.fill_tuple fill (repeat true k) l a
  = (Some (l ++ repeat fill (k - length l)),
     repeat true (length l) ++ repeat false (k - length l),
     [], a - (k - length l)).
Proof.
  revert l a. induction k as [|k IH]; intros l a Hl Ha; [lia|].
  destruct l as [|x l].
  - cbn [repeat Itertools.fill_tuple length app]. cbn [length] in Ha.
    destruct (Nat.eqb_spec (pred a) 0) as [E|E]; [lia|].
    destruct k as [|k'].
    + cbn. f_equal. lia.
    + rewrite (IH [] (pred a)) by (simpl; lia).
      cbn [length app repeat fmap option_fmap option_map Nat.sub].
      f_equal. lia.
  - cbn [repeat Itertools.fill_tuple length]. cbn [length] in Hl, Ha.
    rewrite (IH l a) by lia. reflexivity.
Qed.

(** An empty source and no more active slots than slots that will
    ask: the pass is abandoned. *)
Lemma fill_tuple_stop k rest a :
  1 <= a <= k ->
  exists sl s' a',
    Itertools.fill_tuple fill (repeat true k ++ rest) [] a = (None, sl, s', a').
Proof.
  revert a. induction k as [|k IH]; intros a Ha; [lia|].
  cbn [repeat app Itertools.fill_tuple].
  destruct (Nat.eqb_spec (pred a) 0) as [E|E]; [now eauto|].
  destruct (IH (pred a)) as (sl & s' & a' & ->); [lia|]. now eauto.
Qed.

Lemma next_empty size :
  exists st, Itertools.next (Itertools.izip_longest size [] fill) = (None, st).
Proof.
  unfold Itertools.next, Itertools.izip_longest. cbn [Itertools.ittuple
    Itertools.numactive Itertools.source Itertools.fillvalue].
  rewrite repeat_length. destruct size as [|k]; [now eauto|].
  cbn [Nat.eqb].
  destruct (fill_tuple_stop (S k) [] (S k)) as (sl & s' & a' & H); [lia|].
  rewrite app_nil_r in H. rewrite H. now eauto.
Qed.

Lemma next_full size (l : list V) :
  1 <= size -> size <= length l ->
  Itertools.next (Itertools.izip_longest size l fill)
  = (Some (firstn size l), Itertools.izip_longest size (skipn size l) fill).
Proof.
  intros Hs Hl. unfold Itertools.next, Itertools.izip_longest.
  cbn [Itertools.ittuple Itertools.numactive Itertools.source Itertools.fillvalue].
  rewrite repeat_length.
  destruct (Nat.eqb_spec size 0) as [E|_]; [lia|].
  now rewrite fill_tuple_full.
Qed.

Lemma next_partial size (l : list V) :
  1 <= length l -> length l < size ->
  exists st',
    Itertools.next (Itertools.izip_longest size l fill) = (Some (pad fill size l), st')
    /\ forall fuel, Itertools.tuples (S fuel) st' = Some [].
Proof.
  intros Hl Hs. unfold Itertools.next at 1, Itertools.izip_longest.
  cbn [Itertools.ittuple Itertools.numactive Itertools.source Itertools.fillvalue].
  rewrite repeat_length.
  destruct (Nat.eqb_spec size 0) as [E|_]; [lia|].
  rewrite fill_tuple_partial by lia.
  eexists. split; [reflexivity|]. intros fuel.
  cbn [Itertools.tuples]. unfold Itertools.next.
  cbn [Itertools.ittuple Itertools.numactive Itertools.source Itertools.fillvalue].
  rewrite length_app, !repeat_length.
  destruct (Nat.eqb_spec (length l + (size - length l)) 0); [reflexivity|].
  destruct (Nat.eqb_spec (size - (size - length l)) 0); [reflexivity|].
  destruct (fill_tuple_stop (length l) (repeat false (size - length l))
              (size - (size - length l))) as (sl & s' & a' & ->); [lia|].
  reflexivity.
Qed.

Lemma slices_nil {A} n size : @slices A n size [] = [].
Proof. now destruct n. Qed.

Lemma tuples_grouper size n (l : list V) :
  1 <= size -> length l <= n ->
  Itertools.tuples (S n) (Itertools.izip_longest size l fill)
  = Some (map (pad fill size) (slices n size l)).
Proof.
  intros Hs. revert l. induction n as [|n IH]; intros l Hl.
  - destruct l; [|simpl in Hl; lia].
    cbn [Itertools.tuples slices map].
    destruct (next_empty size) as [st ->]. reflexivity.
  - destruct l as [|x l].
    { cbn [Itertools.tuples slices map].
      destruct (next_empty size) as [st ->]. reflexivity. }
    set (xl := x :: l) in *.
    assert (Hne : 1 <= length xl) by (simpl; lia).
    change (slices (S n) size xl) with (firstn size xl :: slices n size (skipn size xl)).
    change (Itertools.tuples (S (S n)) (Itertools.izip_longest size xl fill)) with
      (match Itertools.next (Itertools.izip_longest size xl fill) with
       | (None, _) => Some []
       | (Some tup, st') => cons tup <$> Itertools.tuples (S n) st'
       end).
    destruct (le_lt_dec size (length xl)) as [Hfull|Hpart].
    + rewrite next_full by assumption.
      rewrite IH by (rewrite length_skipn; lia).
      cbn [fmap option_fmap option_map map]. do 2 f_equal.
      unfold pad. rewrite length_firstn, Nat.min_l by exact Hfull.
      rewrite Nat.sub_diag. cbn [repeat]. now rewrite app_nil_r.
    + destruct (next_partial size xl Hne Hpart) as (st' & -> & Hst).
      rewrite Hst.
      rewrite firstn_all2, skipn_all2, slices_nil by lia.
      reflexivity.
Qed.
End Grouper.

(** ** Slices *)

Lemma ceil_div_0 b : ceil_div 0 b = 0%Z.
Proof. unfold ceil_div. cbn. now rewrite Zdiv_0_l. Qed.

Lemma ceil_div_small a b : (0 < a <= b)%Z -> ceil_div a b = 1%Z.
Proof.
  intros H. unfold ceil_div.
  assert ((- a) / b = -1)%Z; [|lia].
  symmetry. apply (Z.div_unique_pos (- a) b (-1) (b - a)); lia.
Qed.

Lemma ceil_div_step a b : (0 < b)%Z -> ceil_div (a + b) b = (ceil_div a b + 1)%Z.
Proof.
  intros H. unfold ceil_div.
  replace (- (a + b))%Z with (- a + (-1) * b)%Z by lia.
  rewrite Z.div_add by lia. lia.
Qed.

Section Slices.
Context {A : Type}.
Variable size : nat.
Hypothesis size_pos : 1 <= size.

Lemma slices_concat n (l : list A) : length l <= n -> concat (slices n size l) = l.
Proof.
  revert l. induction n as [|n IH]; intros l Hl.
  - destruct l; [reflexivity|simpl in Hl; lia].
  - destruct l as [|x l]; [reflexivity|]. set (xl := x :: l) in *.
    change (slices (S n) size xl) with (firstn size xl :: slices n size (skipn size xl)).
    cbn [concat]. rewrite IH; [apply firstn_skipn|].
    rewrite length_skipn. simpl in Hl |- *. lia.
Qed.

Lemma slices_bounded n (l : list A) :
  Forall (fun c => 1 <= length c <= size) (slices n size l).
Proof.
  revert l. induction n as [|n IH]; intros l; [constructor|].
  destruct l as [|x l]; [constructor|]. set (xl := x :: l) in *.
  change (slices (S n) size xl) with (firstn size xl :: slices n size (skipn size xl)).
  constructor; [|apply IH]. rewrite length_firstn. simpl. lia.
Qed.

Lemma slices_full n (l : list A) i c :
  nth_error (slices n size l) i = Some c ->
  S i < length (slices n size l) ->
  length c = size.
Proof.
  revert l i. induction n as [|n IH]; intros l i Hc Hi; [simpl in Hi; lia|].
  destruct l as [|x l]; [simpl in Hi; lia|]. set (xl := x :: l) in *.
  change (slices (S n) size xl)
    with (firstn size xl :: slices n size (skipn size xl)) in Hc, Hi.
  destruct i as [|i].
  - cbn in Hc. inversion Hc; subst c. cbn [length] in Hi.
    rewrite length_firstn. apply Nat.min_l.
    destruct (le_lt_dec size (length xl)) as [|Hlt]; [assumption|].
    rewrite skipn_all2, slices_nil in Hi by lia. simpl in Hi. lia.
  - cbn in Hc. cbn [length] in Hi. eapply IH; [exact Hc|lia].
Qed.

Lemma slices_length n (l : list A) :
  length l <= n ->
  Z.of_nat (length (slices n size l))
  = ceil_div (Z.of_nat (length l)) (Z.of_nat size).
Proof.
  revert l. induction n as [|n IH]; intros l Hl.
  - destruct l; [now rewrite ceil_div_0|simpl in Hl; lia].
  - destruct l as [|x l]; [now rewrite ceil_div_0|]. set (xl := x :: l) in *.
    assert (Hxl : 1 <= length xl) by (simpl; lia).
    change (slices (S n) size xl) with (firstn size xl :: slices n size (skipn size xl)).
    cbn [length]. rewrite Nat2Z.inj_succ, IH by (rewrite length_skipn; lia).
    rewrite length_skipn.
    destruct (le_lt_dec size (length xl)) as [Hge|Hlt].
    + replace (Z.of_nat (length xl))
        with (Z.of_nat (length xl - size) + Z.of_nat size)%Z by lia.
      rewrite ceil_div_step by lia. lia.
    + replace (length xl - size) with 0 by lia.
      rewrite ceil_div_0, ceil_div_small by lia. reflexivity.
Qed.

Lemma slices_map {B} (f : A -> B) n (l : list A) :
  slices n size (map f l) = map (map f) (slices n size l).
Proof.
  revert l. induction n as [|n IH]; intros l; [reflexivity|].
  destruct l as [|x l]; [reflexivity|]. set (xl := x :: l) in *.
  change (map f xl) with (f x :: map f l).
  change (slices (S n) size xl) with (firstn size xl :: slices n size (skipn size xl)).
  change (slices (S n) size (f x :: map f l))
    with (firstn size (map f xl) :: slices n size (skipn size (map f xl))).
  cbn [map]. now rewrite firstn_map, skipn_map, IH.
Qed.
End Slices.

(** ** What a case of the script holds *)

Lemma emitted_app_nones (c : list string) k :
  emitted (map Some c ++ repeat None k) = c.
Proof.
  induction c as [|x c IH]; cbn [map app emitted].
  - now destruct k.
  - now f_equal.
Qed.

Lemma emitted_pad size (c : list string) :
  emitted (pad None size (map Some c)) = c.
Proof. apply emitted_app_nones. Qed.

(** ** The text of the cases *)

Lemma write_batch_spec batch script :
  write_batch batch script = script +:+ lines_text (emitted batch).
Proof.
  revert script. induction batch as [|[cmd|] batch IH]; intros script;
    cbn [write_batch emitted lines_text fold_right].
  - now rewrite append_nil_r.
  - rewrite IH. fold (lines_text (emitted batch)). now rewrite !append_assoc.
  - now rewrite append_nil_r.
Qed.

Lemma write_cases_spec batches i n script :
  write_cases batches i n script
  = (match batches with [] => n | _ :: _ => Some (i + length batches - 1) end,
     script +:+ cases_text i (map emitted batches)).
Proof.
  revert i n script. induction batches as [|batch batches IH]; intros i n script.
  - cbn. now rewrite append_nil_r.
  - cbn [write_cases]. cbn zeta. rewrite IH, write_batch_spec.
    cbn [map cases_text length]. f_equal.
    + destruct batches; f_equal; cbn [length]; lia.
    + unfold case_text. now rewrite !append_assoc.
Qed.

(** ** The generator, end to end *)

Lemma grouper_tuples (cmds : list string) (size : Z) :
  (0 < size)%Z ->
  Itertools.tuples (S (length cmds)) (grouper (map Some cmds) size None)
  = Some (map (pad None (Z.to_nat size)) (map (map Some) (chunks_of cmds size))).
Proof.
  intros Hs. unfold grouper, chunks_of.
  rewrite <- (length_map Some cmds) at 1.
  rewrite tuples_grouper by (rewrite ?length_map; lia).
  now rewrite length_map, slices_map.
Qed.

Lemma emitted_chunks size (chunks : list (list string)) :
  map emitted (map (pad None size) (map (map Some) chunks)) = chunks.
Proof.
  rewrite !map_map. rewrite <- (map_id chunks) at 2.
  apply map_ext. intros c. apply emitted_pad.
Qed.

Lemma submit_to_slurm_spec cmds size prefix minutes w sh t :
  (0 < size)%Z ->
  walltime size = Ok minutes ->
  let p := script_prefix w prefix in
  let name := tempname w p ".sh" in
  let chunks := chunks_of cmds size in
  let script := script_header (cwd w) minutes p +:+ cases_text 0 chunks
                +:+ script_footer in
  submit_to_slurm cmds size (prefix_val prefix) w sh t
  = match chunks with
    | [] => (t ++ [TempCreate name; Getcwd; Flush name script; TempDelete name],
             Raise (UnboundLocalError "n"))
    | _ :: _ =>
        (t ++ [TempCreate name; Getcwd; Flush name script;
               Call ["sbatch"; "--array=0-" +:+ Py.str_of_nat (length chunks - 1); name];
               TempDelete name],
         Ok tt)
    end.
Proof.
  intros Hs Hw p name chunks script.
  assert (E : submit_to_slurm cmds size (prefix_val prefix) w sh t
              = finally
                  (emit Getcwd;;
                   cwd ← ask cwd;
                   minutes ← lift (walltime size);
                   let script := script_header cwd minutes p in
                   match Itertools.tuples (S (length cmds))
                           (grouper (Some <$> cmds) size None) with
                   | None => timeout
                   | Some batches =>
                       let '(n, script) := write_cases batches 0 None script in
                       let script := script +:+ script_footer in
                       emit (Flush name script);;
                       match n with
                       | None => raise (UnboundLocalError "n")
                       | Some n =>
                           emit (Call ["sbatch"; "--array=0-" +:+ Py.str_of_nat n; name])
                       end
                   end)
                  (TempDelete name) w sh (t ++ [TempCreate name])).
  { unfold submit_to_slurm, name, p, script_prefix. destruct prefix as [s|]; reflexivity. }
  rewrite E. clear E. unfold finally.
  rewrite bind_emit, bind_ask. rewrite Hw. unfold lift at 1.
  rewrite (bind_ok _ _ _ _ _ _ _ eq_refl).
  change (Some <$> cmds) with (map Some cmds).
  rewrite grouper_tuples by exact Hs.
  rewrite write_cases_spec, emitted_chunks. fold chunks.
  rewrite bind_emit. rewrite append_assoc. fold script.
  rewrite length_map, length_map.
  destruct chunks as [|c chunks'] eqn:Ec.
  - cbn [map]. unfold raise. rewrite <- !app_assoc. reflexivity.
  - cbn [map]. unfold emit. rewrite <- !app_assoc. cbn [app Nat.add]. reflexivity.
Qed.

(** C1. For a positive chunk size the loop of [submit_to_slurm] over
    [grouper] ends, and the script that it flushes holds, between the
    header and the footer, one case per chunk, labelled from 0 in
    order: the chunks (the commands of each tuple up to the first
    [None]) concatenate to the command list, hold at most [size]
    commands each and exactly [size] but for the last, and are
    [ceil(L / size)] in number.  Nothing else is written to the
    script. *)
Theorem chunks_partition cmds size prefix minutes w sh t :
  (0 < size)%Z ->
  walltime size = Ok minutes ->
  let p := script_prefix w prefix in
  let name := tempname w p ".sh" in
  exists batches chunks rest r,
    Itertools.tuples (S (length cmds)) (grouper (Some <$> cmds) size None) = Some batches
    /\ chunks = map emitted batches
    /\ submit_to_slurm cmds size (prefix_val prefix) w sh t
       = (t ++ [TempCreate name; Getcwd;
                Flush name (script_header (cwd w) minutes p +:+ cases_text 0 chunks
                            +:+ script_footer)] ++ rest,
          r)
    /\ (rest = [TempDelete name]
        \/ exists range, rest = [Call ["sbatch"; range; name]; TempDelete name])
    /\ concat chunks = cmds
    /\ Forall (fun c => (Z.of_nat (length c) <= size)%Z) chunks
    /\ (forall i c, nth_error chunks i = Some c -> S i < length chunks ->
                    Z.of_nat (length c) = size)
    /\ Z.of_nat (length chunks) = ceil_div (Z.of_nat (length cmds)) size.
Proof.
  intros Hs Hw p name.
  assert (Hn : 1 <= Z.to_nat size) by lia.
  pose proof (submit_to_slurm_spec cmds size prefix minutes w sh t Hs Hw) as Hsub.
  cbv zeta in Hsub. fold p name in Hsub.
  exists (map (pad None (Z.to_nat size)) (map (map Some) (chunks_of cmds size))),
         (chunks_of cmds size).
  destruct (chunks_of cmds size) as [|c0 cs] eqn:Ec.
  - exists [TempDelete name], (Raise (UnboundLocalError "n")).
    split; [rewrite <- Ec; now apply grouper_tuples|].
    split; [reflexivity|]. split; [exact Hsub|]. split; [now left|].
    rewrite <- Ec. unfold chunks_of.
    split; [now apply slices_concat|]. split; [|split].
    + eapply List.Forall_impl; [|apply slices_bounded; exact Hn]. cbn. intros c Hc. lia.
    + intros i c Hc Hi. rewrite (slices_full _ Hn _ _ _ _ Hc Hi). lia.
    + rewrite slices_length by lia. f_equal. lia.
  - exists [Call ["sbatch"; "--array=0-" +:+ Py.str_of_nat (length (c0 :: cs) - 1); name];
            TempDelete name], (Ok tt).
    split; [rewrite <- Ec; now apply grouper_tuples|].
    split; [now rewrite <- Ec, emitted_chunks|]. split; [exact Hsub|].
    split; [right; eauto|].
    rewrite <- Ec. unfold chunks_of.
    split; [now apply slices_concat|]. split; [|split].
    + eapply List.Forall_impl; [|apply slices_bounded; exact Hn]. cbn. intros c Hc. lia.
    + intros i c Hc Hi. rewrite (slices_full _ Hn _ _ _ _ Hc Hi). lia.
    + rewrite slices_length by lia. f_equal. lia.
Qed.

Lemma chunks_partition_witness :
  exists name rest r,
    submit_to_slurm ["a"; "b"; "c"; "d"; "e"] 2 (PyStr "rename") Example.w Example.sh []
    = ([TempCreate name; Getcwd;
        Flush name (script_header "/home/user" 1 "rename."
                    +:+ cases_text 0 [["a"; "b"]; ["c"; "d"]; ["e"]]
                    +:+ script_footer)] ++ rest, r).
Proof.
  destruct (chunks_partition ["a"; "b"; "c"; "d"; "e"] 2 (Some "rename") 1
              Example.w Example.sh [] ltac:(reflexivity) ltac:(vm_compute; reflexivity))
    as (batches & chunks & rest & r & Hb & -> & H & _).
  cbv in Hb. inversion Hb; subst batches. do 3 eexists. exact H.
Defined.

(** C4. For a non-empty command list and a positive chunk size,
    [submit_to_slurm] calls [sbatch] once, with the range
    [--array=0-N] where [N = ceil(L / size) - 1], and returns. *)
Theorem array_bound cmds size prefix minutes w sh t :
  cmds <> [] ->
  (0 < size)%Z ->
  walltime size = Ok minutes ->
  exists name script,
    submit_to_slurm cmds size (prefix_val prefix) w sh t
    = (t ++ [TempCreate name; Getcwd; Flush name script;
             Call ["sbatch";
                   "--array=0-"
                     +:+ Py.str_of_Z (ceil_div (Z.of_nat (length cmds)) size - 1);
                   name];
             TempDelete name],
       Ok tt).
Proof.
  intros Hne Hs Hw. rewrite (submit_to_slurm_spec _ _ _ _ _ _ _ Hs Hw).
  assert (Hlen : Z.of_nat (length (chunks_of cmds size))
                 = ceil_div (Z.of_nat (length cmds)) size).
  { unfold chunks_of. rewrite slices_length by lia. f_equal. lia. }
  destruct (chunks_of cmds size) as [|c chunks] eqn:Ec.
  - exfalso. unfold chunks_of in Ec. destruct cmds; [congruence|discriminate].
  - do 2 eexists. unfold Py.str_of_nat. rewrite <- Hlen.
    replace (Z.of_nat (length (c :: chunks) - 1))
      with (Z.of_nat (length (c :: chunks)) - 1)%Z by (cbn [length]; lia).
    reflexivity.
Qed.

(** C5. Given an empty command list, [submit_to_slurm] ends with an
    exception and its trace holds no call of the scheduler, whatever
    the chunk size and the prefix. *)
Theorem empty_not_submitted size prefix w sh t :
  exists t' e,
    submit_to_slurm [] size prefix w sh t = (t ++ t', Raise e)
    /\ forall argv, ~ In (Call argv) t'.
Proof.
  assert (Ht : Itertools.tuples 1 (grouper (@nil (option string)) size None) = Some []).
  { unfold grouper. cbn [Itertools.tuples].
    destruct (next_empty (@None string) (Z.to_nat size)) as [st ->]. reflexivity. }
  assert (H : forall p : string, exists t' e,
     finally
       (emit Getcwd;;
        cwd ← ask cwd;
        minutes ← lift (walltime size);
        let script := script_header cwd minutes p in
        match Itertools.tuples 1 (grouper (@nil (option string)) size None) with
        | None => timeout
        | Some batches =>
            let '(n, script) := write_cases batches 0 None script in
            let script := script +:+ script_footer in
            emit (Flush (tempname w p ".sh") script);;
            match n with
            | None => raise (UnboundLocalError "n")
            | Some n =>
                emit (Call ["sbatch"; "--array=0-" +:+ Py.str_of_nat n;
                            tempname w p ".sh"])
            end
        end)
       (TempDelete (tempname w p ".sh")) w sh (t ++ [TempCreate (tempname w p ".sh")])
     = (t ++ t', Raise e) /\ forall argv, ~ In (Call argv) t').
  { intros p. rewrite Ht. unfold finally. rewrite bind_emit, bind_ask.
    destruct (walltime size) as [minutes|e|] eqn:Hw.
    - unfold lift at 1. rewrite (bind_ok _ _ _ _ _ _ _ eq_refl).
      cbn [write_cases]. rewrite bind_emit. unfold raise.
      eexists [_; _; _; _], _. split; [now rewrite <- !app_assoc|].
      intros argv [H|[H|[H|[H|[]]]]]; discriminate.
    - unfold lift at 1. rewrite (bind_raise _ _ _ _ _ _ _ eq_refl).
      eexists [_; _; _], _. split; [now rewrite <- !app_assoc|].
      intros argv [H|[H|[H|[]]]]; discriminate.
    - exfalso. revert Hw. unfold walltime, Float.of_int, Float.to_int.
      destruct (Float.is_finite _); cbn [mbind outcome_bind]; [|discriminate].
      destruct (Float.add _ _); discriminate. }
  unfold submit_to_slurm. destruct prefix as [|p|a b].
  - apply H.
  - apply H.
  - exists [], AttributeError. split; [now rewrite app_nil_r|]. intros argv [].
Qed.

(** ** The fuel of the loop over [grouper] is enough *)

Lemma grouper_total (cmds : list string) (size : Z) :
  exists batches,
    Itertools.tuples (S (length cmds)) (grouper (map Some cmds) size None)
    = Some batches.
Proof.
  destruct (Z.lt_ge_cases 0 size) as [Hs|Hs].
  - eexists. apply grouper_tuples. exact Hs.
  - exists []. unfold grouper. replace (Z.to_nat size) with 0%nat by lia.
    reflexivity.
Qed.

Lemma walltime_no_timeout size : walltime size <> Timeout.
Proof.
  unfold walltime, Float.of_int, Float.to_int.
  destruct (Float.is_finite _); cbn [mbind outcome_bind]; [|discriminate].
  destruct (Float.add _ _); discriminate.
Qed.

Lemma submit_to_slurm_no_timeout cmds size prefix w sh t :
  (submit_to_slurm cmds size prefix w sh t).2 <> Timeout.
Proof.
  assert (H : forall (p : string) t0,
     (finally
       (emit Getcwd;;
        cwd ← ask cwd;
        minutes ← lift (walltime size);
        let script := script_header cwd minutes p in
        match Itertools.tuples (S (length cmds)) (grouper (Some <$> cmds) size None) with
        | None => timeout
        | Some batches =>
            let '(n, script) := write_cases batches 0 None script in
            let script := script +:+ script_footer in
            emit (Flush (tempname w p ".sh") script);;
            match n with
            | None => raise (UnboundLocalError "n")
            | Some n =>
                emit (Call ["sbatch"; "--array=0-" +:+ Py.str_of_nat n;
                            tempname w p ".sh"])
            end
        end)
       (TempDelete (tempname w p ".sh")) w sh t0).2 <> Timeout).
  { intros p t0. unfold finally. rewrite bind_emit, bind_ask.
    pose proof (walltime_no_timeout size) as Hw.
    destruct (walltime size) as [minutes|e|] eqn:Ew; [| |congruence].
    - unfold lift at 1. rewrite (bind_ok _ _ _ _ _ _ _ eq_refl).
      destruct (grouper_total cmds size) as [batches Hb].
      change (Some <$> cmds) with (map Some cmds). rewrite Hb.
      destruct (write_cases batches 0 None _) as [n script].
      rewrite bind_emit. destruct n; discriminate.
    - unfold lift at 1. rewrite (bind_raise _ _ _ _ _ _ _ eq_refl). discriminate. }
  unfold submit_to_slurm. destruct prefix as [|p|a b].
  - apply H.
  - apply H.
  - discriminate.
Qed.

(** ** Binary64 arithmetic of the walltime *)

Section Binary64.
Local Open Scope Z_scope.

(** ** Binary64 rounding *)

































End Binary64.



(** ** The properties on the example world *)

Lemma array_bound_witness :
  exists name script,
    submit_to_slurm ["a"; "b"; "c"; "d"; "e"] 2 (PyStr "rename") Example.w Example.sh []
    = ([TempCreate name; Getcwd; Flush name script;
        Call ["sbatch"; "--array=0-2"; name]; TempDelete name],
       Ok tt).
Proof.
  exact (array_bound ["a"; "b"; "c"; "d"; "e"] 2 (Some "rename") 1 Example.w Example.sh []
           ltac:(discriminate) ltac:(reflexivity) ltac:(vm_compute; reflexivity)).
Defined.

Lemma keep_with_rename_exits_witness :
  main Example.parse_args ["rename"; "--keep"; "/data"] Example.w Example.sh []
  = ([Log "ERROR" "Cannot use option `--keep` with `rename` action."],
     Raise (SystemExit 64)).
Proof.
  exact (keep_with_rename_exits Example.parse_args ["rename"; "--keep"; "/data"] _
           Example.w Example.sh [] eq_refl eq_refl eq_refl).
Defined.

Lemma second_search_matches_witness :
  exists params,
    Re.search true IC6000_pattern "E_1_B - 03(fld 4 wv Cy3).tif" = Some params.
Proof.
  refine (proj1 (second_search_matches IC6000
                   ["/data/notes.txt"; "/data/plate 1/E_1_B - 03(fld 4 wv Cy3).tif"]
                   Example.w Example.sh [] _ _ _ _)
                "/data/plate 1/E_1_B - 03(fld 4 wv Cy3).tif" _).
  - vm_compute. reflexivity.
  - left. reflexivity.
Defined.

Lemma unknown_channel_raises_witness :
  exists t e,
    rename_func
      {| Args.action_ := Args.rename; Args.path := ["/data"]; Args.keep := false;
         Args.check := true; Args.batch := false; Args.batch_size := 200 |}
      IC6000 Example.w Example.sh []
    = (t, Raise e)
    /\ is_LookupError e = true.
Proof.
  pose (args := {| Args.action_ := Args.rename; Args.path := ["/data"];
                   Args.keep := false; Args.check := true; Args.batch := false;
                   Args.batch_size := 200 |}).
  destruct (unknown_channel_raises args Example.w Example.sh []
              [Getcwd; PathExists "/data"; PathIsdir "/data"; Walk "/data"]
              ["/data/notes.txt"; "/data/plate 1/E_1_B - 03(fld 4 wv Blue - FITC).tif";
               "/data/plate 1/E_1_B - 03(fld 4 wv Cy3).tif"]
              "/data/plate 1/E_1_B - 03(fld 4 wv Cy3).tif"
              (<["n" := "E_1"]> (<["w" := "B - 03"]> (<["s" := "4"]>
                 (<["c" := " Cy3"]> ∅))))
              " Cy3")
    as [_ (e & He & Hl)].
  - vm_compute. reflexivity.
  - right. right. left. reflexivity.
  - vm_compute. reflexivity.
  - vm_compute. reflexivity.
  - vm_compute. reflexivity.
  - eexists _, e. split; [exact He|exact Hl].
Defined.

(** * Further properties *)

(** ** The immediate mode of [run] *)

Lemma successes_le sh t cmds : successes sh t cmds <= length cmds.
Proof.
  revert t. induction cmds as [|cmd cmds IH]; intros t; cbn [successes length]; [lia|].
  specialize (IH (t ++ [CheckCall cmd])). destruct (sh t cmd); lia.
Qed.

Lemma run_direct_spec cmds done errored w sh t :
  run_direct cmds done errored w sh t =
    (t ++ map CheckCall cmds,
     Ok ((done + Z.of_nat (successes sh t cmds))%Z,
         (errored + (Z.of_nat (length cmds) - Z.of_nat (successes sh t cmds)))%Z)).
Proof.
  revert done errored t. induction cmds as [|cmd cmds IH]; intros done errored t.
  - cbn. unfold mret, M_ret. rewrite app_nil_r. do 3 f_equal; lia.
  - cbn [run_direct successes map length].
    assert (E : forall k : bool -> M (Z * Z),
               (check_call cmd ≫= k) w sh t = k (sh t cmd) w sh (t ++ [CheckCall cmd]))
      by reflexivity.
    rewrite E. destruct (sh t cmd); rewrite IH, <- app_assoc; cbn [app];
      do 3 f_equal; lia.
Qed.

(** X1. Without [just_print] and with [batch] zero, [run] hands every
    command to the shell, in order and whatever the fate of the
    commands before it, then prints one summary: [done] counts the
    commands that ended with status 0, [errored] the others, and the
    call returns normally. *)
Theorem run_immediate cmds verb w sh t :
  let done := Z.of_nat (successes sh t cmds) in
  let errored := (Z.of_nat (length cmds) - done)%Z in
  run cmds false 0 (PyStr verb) w sh t =
    (t ++ map CheckCall cmds ++ [Stdout (summary verb done errored)], Ok tt)
  /\ (0 <= errored)%Z.
Proof.
  intros done errored. split.
  - unfold run. rewrite bind_ret. cbn [negb Z.eqb].
    rewrite (bind_ok _ _ _ _ _ _ _ (run_direct_spec _ _ _ _ _ _)).
    cbn [str_of_pyval]. unfold print, emit. rewrite <- app_assoc. reflexivity.
  - pose proof (successes_le sh t cmds). unfold errored, done. lia.
Qed.

(** ** The default verb of [run] is a pair *)

(** X2. When [verb] is left to its default, [run] sets it to the pair
    that [splitext] returns; in batch mode that pair reaches
    [submit_to_slurm] as [prefix], and [prefix.endswith] raises
    [AttributeError] before anything is written or submitted. *)
Theorem run_default_verb_batch cmds batch w sh t :
  batch <> 0%Z ->
  run cmds false batch PyNone w sh t = (t, Raise AttributeError).
Proof.
  intros Hb. unfold run. unfold mbind at 1. unfold M_bind at 1.
  rewrite bind_ask. destruct (Path.splitext _) as [stem ext].
  unfold mret at 1. unfold M_ret at 1. cbv iota beta.
  destruct (Z.eqb_spec batch 0) as [|_]; [contradiction|].
  reflexivity.
Qed.

Lemma run_default_verb_batch_witness :
  run ["mv 'a' 'b'"] false 1 PyNone Example.w Example.sh [] = ([], Raise AttributeError).
Proof.
  exact (run_default_verb_batch ["mv 'a' 'b'"] 1 Example.w Example.sh []
           ltac:(discriminate)).
Defined.

(** X3. In the immediate mode with [verb] left to its default, the
    summary names the pair [(stem, ext)] of the program's file name,
    printed as a tuple, where a verb was meant. *)
Theorem run_default_verb_summary cmds w sh t :
  let stem := (Path.splitext (Path.basename (argv0 w))).1 in
  let ext := (Path.splitext (Path.basename (argv0 w))).2 in
  let done := Z.of_nat (successes sh t cmds) in
  run cmds false 0 PyNone w sh t =
    (t ++ map CheckCall cmds
       ++ [Stdout (summary ("(" +:+ Py.repr stem +:+ ", " +:+ Py.repr ext +:+ ")")
                           done (Z.of_nat (length cmds) - done))],
     Ok tt).
Proof.
  cbv zeta. unfold run. unfold mbind at 1. unfold M_bind at 1.
  rewrite bind_ask. destruct (Path.splitext _) as [stem ext].
  unfold mret at 1. unfold M_ret at 1. cbv iota beta.
  cbn [negb Z.eqb fst snd].
  rewrite (bind_ok _ _ _ _ _ _ _ (run_direct_spec _ _ _ _ _ _)).
  cbn [str_of_pyval]. unfold print, emit. rewrite <- app_assoc. reflexivity.
Qed.

(** ** The life of the job script *)

Lemma submit_to_slurm_str cmds size prefix w sh t :
  let p := script_prefix w prefix in
  let name := tempname w p ".sh" in
  submit_to_slurm cmds size (prefix_val prefix) w sh t
  = finally
      (emit Getcwd;;
       cwd ← ask cwd;
       minutes ← lift (walltime size);
       let script := script_header cwd minutes p in
       match Itertools.tuples (S (length cmds))
               (grouper (Some <$> cmds) size None) with
       | None => timeout
       | Some batches =>
           let '(n, script) := write_cases batches 0 None script in
           let script := script +:+ script_footer in
           emit (Flush name script);;
           match n with
           | None => raise (UnboundLocalError "n")
           | Some n =>
               emit (Call ["sbatch"; "--array=0-" +:+ Py.str_of_nat n; name])
           end
       end)
      (TempDelete name) w sh (t ++ [TempCreate name]).
Proof.
  intros p name. unfold submit_to_slurm, name, p, script_prefix.
  destruct prefix as [s|]; reflexivity.
Qed.

Lemma endswith_snoc c s : Py.endswith c (s +:+ String c EmptyString) = true.
Proof.
  induction s as [|a s IH]; [cbn; apply Ascii.eqb_refl|].
  rewrite append_cons. cbn [Py.endswith].
  destruct (s +:+ String c EmptyString) eqn:E; [destruct s; discriminate|exact IH].
Qed.

Ltac script_events :=
  repeat first [ apply List.Forall_nil
               | apply List.Forall_cons; [unfold script_event; eauto 6|] ].

(** X4. Whatever the commands, the chunk size and the outcome,
    [submit_to_slurm] removes the script it created: the trace it adds
    starts with the creation of the script, ends with its removal, and
    holds in between only the reading of the working directory, the
    writing of that script and the call of [sbatch] on it.  The prefix
    of the script's name always ends with a dot. *)
Theorem script_always_deleted cmds size prefix w sh t :
  let name := tempname w (script_prefix w prefix) ".sh" in
  exists body r,
    submit_to_slurm cmds size (prefix_val prefix) w sh t
    = (t ++ [TempCreate name] ++ body ++ [TempDelete name], r)
    /\ Forall (script_event name) body
    /\ Py.endswith "." (script_prefix w prefix) = true.
Proof.
  intros name. rewrite submit_to_slurm_str. fold name. unfold finally.
  rewrite bind_emit, bind_ask.
  assert (Hp : Py.endswith "." (script_prefix w prefix) = true).
  { unfold script_prefix.
    match goal with |- context [if Py.endswith "." ?s then _ else _] =>
      destruct (Py.endswith "." s) eqn:E; [exact E|apply endswith_snoc] end. }
  destruct (walltime size) as [minutes|e|] eqn:Hw.
  - unfold lift at 1. rewrite (bind_ok _ _ _ _ _ _ _ eq_refl).
    destruct (grouper_total cmds size) as [batches Hb].
    change (Some <$> cmds) with (map Some cmds). rewrite Hb.
    destruct (write_cases batches 0 None _) as [n script].
    rewrite bind_emit. destruct n as [n|].
    + exists [Getcwd; Flush name (script +:+ script_footer);
              Call ["sbatch"; "--array=0-" +:+ Py.str_of_nat n; name]], (Ok tt).
      split; [unfold emit; now rewrite <- !app_assoc|]. split; [|exact Hp].
      script_events.
    + exists [Getcwd; Flush name (script +:+ script_footer)],
             (Raise (UnboundLocalError "n")).
      split; [unfold raise; now rewrite <- !app_assoc|]. split; [|exact Hp].
      script_events.
  - unfold lift at 1. rewrite (bind_raise _ _ _ _ _ _ _ eq_refl).
    exists [Getcwd], (Raise e). split; [now rewrite <- !app_assoc|]. split; [|exact Hp].
    script_events.
  - now destruct (walltime_no_timeout size).
Qed.

(** X5. For a chunk size of zero or less [grouper] yields no tuple at
    all, whatever the commands: the script is written without a single
    case, the loop variable [n] is never bound and [submit_to_slurm]
    raises [UnboundLocalError] without calling [sbatch]. *)
Theorem nonpositive_size_not_submitted cmds size prefix minutes w sh t :
  (size <= 0)%Z ->
  walltime size = Ok minutes ->
  let p := script_prefix w prefix in
  let name := tempname w p ".sh" in
  submit_to_slurm cmds size (prefix_val prefix) w sh t
  = (t ++ [TempCreate name; Getcwd;
           Flush name (script_header (cwd w) minutes p +:+ script_footer);
           TempDelete name],
     Raise (UnboundLocalError "n")).
Proof.
  intros Hs Hw p name. rewrite submit_to_slurm_str. fold p name. unfold finally.
  rewrite bind_emit, bind_ask, Hw. unfold lift at 1.
  rewrite (bind_ok _ _ _ _ _ _ _ eq_refl).
  unfold grouper. replace (Z.to_nat size) with 0%nat by lia.
  cbn [Itertools.tuples Itertools.next Itertools.izip_longest Itertools.ittuple repeat
       length Nat.eqb write_cases].
  rewrite bind_emit. unfold raise. now rewrite <- !app_assoc.
Qed.

Lemma nonpositive_size_not_submitted_witness :
  exists name script,
    submit_to_slurm ["a"; "b"] (-3) (PyStr "rename") Example.w Example.sh []
    = ([TempCreate name; Getcwd; Flush name script; TempDelete name],
       Raise (UnboundLocalError "n")).
Proof.
  do 2 eexists.
  exact (nonpositive_size_not_submitted ["a"; "b"] (-3) (Some "rename") 0
           Example.w Example.sh [] ltac:(discriminate) ltac:(vm_compute; reflexivity)).
Defined.

(** ** Every task of the array has its case *)

Lemma cases_text_nth chunks : forall j i chunk,
  nth_error chunks i = Some chunk ->
  exists pre post, cases_text j chunks = pre +:+ case_text (j + i) chunk +:+ post.
Proof.
  induction chunks as [|c chunks IH]; intros j i chunk H; [now destruct i|].
  destruct i as [|i]; cbn in H.
  - inversion H; subst c. exists EmptyString, (cases_text (S j) chunks).
    cbn [cases_text]. now rewrite Nat.add_0_r.
  - destruct (IH (S j) i chunk H) as (pre & post & E).
    exists (case_text j c +:+ pre), post. cbn [cases_text]. rewrite E.
    replace (S j + i) with (j + S i) by lia. now rewrite !append_assoc.
Qed.

(** X6. For a non-empty command list and a positive chunk size, the
    script that is on disk when [sbatch] is called is the header, the
    cases of the chunks and the footer; the range of the array is
    [0-N] with [N + 1] chunks, and every index [i] of that range has
    its case in the script, labelled [i] and holding chunk [i]. *)
Theorem script_cases_cover_array cmds size prefix minutes w sh t :
  cmds <> [] ->
  (0 < size)%Z ->
  walltime size = Ok minutes ->
  let p := script_prefix w prefix in
  let name := tempname w p ".sh" in
  let chunks := chunks_of cmds size in
  exists N,
    submit_to_slurm cmds size (prefix_val prefix) w sh t
    = (t ++ [TempCreate name; Getcwd;
             Flush name (script_header (cwd w) minutes p +:+ cases_text 0 chunks
                         +:+ script_footer);
             Call ["sbatch"; "--array=0-" +:+ Py.str_of_nat N; name];
             TempDelete name],
       Ok tt)
    /\ length chunks = S N
    /\ forall i, i <= N ->
         exists chunk pre post,
           nth_error chunks i = Some chunk
           /\ cases_text 0 chunks = pre +:+ case_text i chunk +:+ post.
Proof.
  intros Hne Hs Hw p name chunks.
  rewrite (submit_to_slurm_spec _ _ _ _ _ _ _ Hs Hw). fold p name chunks.
  destruct chunks as [|c chunks'] eqn:Ec.
  - exfalso. unfold chunks, chunks_of in Ec. destruct cmds; [congruence|discriminate].
  - exists (length chunks'). split; [|split].
    + cbn [length]. replace (S (length chunks') - 1) with (length chunks') by lia.
      reflexivity.
    + reflexivity.
    + intros i Hi.
      destruct (nth_error (c :: chunks') i) as [chunk|] eqn:En.
      * destruct (cases_text_nth _ 0 i chunk En) as (pre & post & E).
        exists chunk, pre, post. split; [reflexivity|exact E].
      * apply nth_error_None in En. cbn [length] in En. lia.
Qed.

Lemma script_cases_cover_array_witness :
  exists name script,
    submit_to_slurm ["a"; "b"; "c"; "d"; "e"] 2 (PyStr "rename") Example.w Example.sh []
    = ([TempCreate name; Getcwd; Flush name script;
        Call ["sbatch"; "--array=0-2"; name]; TempDelete name],
       Ok tt).
Proof.
  destruct (script_cases_cover_array ["a"; "b"; "c"; "d"; "e"] 2 (Some "rename") 1
              Example.w Example.sh []
              ltac:(discriminate) ltac:(reflexivity) ltac:(vm_compute; reflexivity))
    as (N & H & Hlen & _).
  cbv in Hlen. inversion Hlen; subst N. do 2 eexists. exact H.
Defined.

(** ** [grouper] pads the last tuple *)

Lemma pad_length {V} (fill : V) size (c : list V) :
  length c <= size -> length (pad fill size c) = size.
Proof. intros H. unfold pad. rewrite length_app, repeat_length. lia. Qed.

Lemma concat_pad_slices {V} (fill : V) size n (l : list V) :
  1 <= size -> length l <= n ->
  exists k, k < size
    /\ concat (map (pad fill size) (slices n size l)) = l ++ repeat fill k.
Proof.
  intros Hs. revert l. induction n as [|n IH]; intros l Hl.
  - destruct l; [|simpl in Hl; lia]. exists 0. split; [lia|reflexivity].
  - destruct l as [|x l]; [exists 0; split; [lia|reflexivity]|].
    set (xl := x :: l) in *.
    assert (Hne : 1 <= length xl) by (simpl; lia).
    change (slices (S n) size xl) with (firstn size xl :: slices n size (skipn size xl)).
    cbn [map concat].
    destruct (le_lt_dec size (length xl)) as [Hfull|Hpart].
    + destruct (IH (skipn size xl)) as (k & Hk & ->); [rewrite length_skipn; lia|].
      exists k. split; [exact Hk|].
      unfold pad. rewrite length_firstn, Nat.min_l, Nat.sub_diag by exact Hfull.
      cbn [repeat]. rewrite app_nil_r, app_assoc. now rewrite firstn_skipn.
    + rewrite firstn_all2, skipn_all2, slices_nil by lia.
      exists (size - length xl). split; [lia|].
      cbn [map concat]. now rewrite app_nil_r.
Qed.

(** X7. For a positive size, [grouper(iterable, size, fillvalue)]
    yields [ceil(L / size)] tuples of exactly [size] items each; put
    end to end they are the items of the iterable, in order, followed
    by fewer than [size] copies of the fill value. *)
Theorem grouper_pads {V} (l : list V) (size : Z) (fill : V) :
  (0 < size)%Z ->
  exists tups k,
    Itertools.tuples (S (length l)) (grouper l size fill) = Some tups
    /\ Forall (fun tup => Z.of_nat (length tup) = size) tups
    /\ concat tups = l ++ repeat fill k
    /\ (Z.of_nat k < size)%Z
    /\ Z.of_nat (length tups) = ceil_div (Z.of_nat (length l)) size.
Proof.
  intros Hs. assert (Hn : 1 <= Z.to_nat size) by lia.
  destruct (concat_pad_slices fill (Z.to_nat size) (length l) l Hn (le_n _))
    as (k & Hk & Hc).
  exists (map (pad fill (Z.to_nat size)) (slices (length l) (Z.to_nat size) l)), k.
  split; [unfold grouper; now apply tuples_grouper|].
  split; [|split; [exact Hc|split; [lia|]]].
  - apply List.Forall_forall. intros tup Hin. apply in_map_iff in Hin as (c & <- & Hin).
    pose proof (slices_bounded _ Hn (length l) l) as Hb.
    rewrite List.Forall_forall in Hb. specialize (Hb c Hin).
    rewrite pad_length by lia. lia.
  - rewrite length_map, slices_length by lia. f_equal. lia.
Qed.

Lemma grouper_pads_witness :
  Itertools.tuples 8 (grouper ["A"; "B"; "C"; "D"; "E"; "F"; "G"] 3 "x")
  = Some [["A"; "B"; "C"]; ["D"; "E"; "F"]; ["G"; "x"; "x"]].
Proof.
  destruct (grouper_pads ["A"; "B"; "C"; "D"; "E"; "F"; "G"] 3 "x" ltac:(reflexivity))
    as (tups & k & Ht & _).
  pose proof Ht as Hv. cbv in Hv. inversion Hv; subst tups. exact Ht.
Defined.

(** ** The flag [--batch] is the chunk size *)

Lemma slices_one {A} n (l : list A) :
  length l <= n -> slices n 1 l = map (fun x => [x]) l.
Proof.
  revert l. induction n as [|n IH]; intros l Hl.
  - destruct l; [reflexivity|simpl in Hl; lia].
  - destruct l as [|x l]; [reflexivity|].
    cbn [slices firstn skipn map].
    change (firstn 0 l) with (@nil A). change (skipn 0 l) with l.
    rewrite IH by (simpl in Hl; lia). reflexivity.
Qed.

Lemma walltime_1 : walltime 1 = Ok 1%Z.
Proof. vm_compute. reflexivity. Qed.

(** X8. The converter passes the flag [args.batch] to [run] where the
    chunk size is expected, and never reads [args.batch_size]: with
    [--batch] and without [--check], every command gets a case and an
    array task of its own, under a walltime of one minute, whatever
    the batch size asked for. *)
Theorem batch_flag_one_task_each args w sh t t1 inbox :
  build_file_list (Args.path args) w sh t = (t1, Ok inbox) ->
  Args.check args = false ->
  Args.batch args = true ->
  let cmds := map (convert_cmd (Args.keep args)) (List.filter tiff_path inbox) in
  cmds <> [] ->
  let name := tempname w "convert." ".sh" in
  exists t2,
    convert_func args w sh t
    = (t2 ++ [TempCreate name; Getcwd;
              Flush name (script_header (cwd w) 1 "convert."
                          +:+ cases_text 0 (map (fun cmd => [cmd]) cmds)
                          +:+ script_footer);
              Call ["sbatch"; "--array=0-" +:+ Py.str_of_nat (length cmds - 1); name];
              TempDelete name],
       Ok tt).
Proof.
  intros Hb Hcheck Hbatch cmds Hne name.
  rewrite (convert_func_report _ _ _ _ _ _ Hb), Hcheck, Hbatch.
  assert (Ec : map (fun '(old, new) => convert_fmt (Args.keep args) old new)
                 (map convert_op (List.filter tiff_path inbox)) = cmds).
  { unfold cmds. rewrite map_map. reflexivity. }
  rewrite Ec.
  destruct (map convert_op (List.filter tiff_path inbox)) as [|op ops] eqn:Eo.
  { exfalso. apply Hne. rewrite <- Ec. reflexivity. }
  cbn [is_nil]. eexists.
  unfold run. rewrite bind_ret. cbn [Z.b2z Z.eqb negb].
  pose proof (submit_to_slurm_spec cmds 1 (Some "convert") 1 w sh) as Hsub.
  cbv zeta in Hsub. cbn [prefix_val] in Hsub.
  rewrite Hsub by (reflexivity || apply walltime_1).
  change (script_prefix w (Some "convert")) with "convert.".
  unfold chunks_of. change (Z.to_nat 1) with 1. rewrite slices_one by lia.
  fold name. destruct cmds as [|c cs] eqn:E; [congruence|].
  cbn [map length]. rewrite length_map. reflexivity.
Qed.

Lemma batch_flag_one_task_each_witness :
  let args := {| Args.action_ := Args.convert; Args.path := ["/data"];
                 Args.keep := false; Args.check := false; Args.batch := true;
                 Args.batch_size := 200 |} in
  exists t2 name script,
    convert_func args Example.w Example.sh []
    = (t2 ++ [TempCreate name; Getcwd; Flush name script;
              Call ["sbatch"; "--array=0-1"; name]; TempDelete name], Ok tt).
Proof.
  intros args.
  destruct (batch_flag_one_task_each args Example.w Example.sh [] _ _
              ltac:(vm_compute; reflexivity) eq_refl eq_refl
              ltac:(vm_compute; discriminate))
    as [t2 H].
  exists t2. do 2 eexists. exact H.
Defined.

(** ** What [build_file_list] collects *)

Lemma build_file_list_loop_spec paths result w sh t :
  build_file_list_loop (cwd w) paths result w sh t
  = (t ++ flat_map (probes w) paths, Ok (result ++ flat_map (collected w) paths)).
Proof.
  revert result t. induction paths as [|path paths IH]; intros result t.
  - cbn. unfold mret, M_ret. now rewrite !app_nil_r.
  - cbn [build_file_list_loop flat_map]. rewrite bind_emit, bind_ask.
    unfold probes at 1, collected at 1.
    destruct (path_exists w path); cbn [negb].
    + rewrite bind_emit, bind_ask. fold (abspath (cwd w) path). cbv zeta.
      destruct (path_isdir w (abspath (cwd w) path)).
      * assert (Hw : forall t0, walker (abspath (cwd w) path) w sh t0
                     = (t0 ++ [Walk (abspath (cwd w) path)],
                        Ok (walked w (abspath (cwd w) path)))) by reflexivity.
        rewrite (bind_ok _ _ _ _ _ _ _ (Hw _)), IH.
        now rewrite <- !app_assoc.
      * rewrite IH. now rewrite <- !app_assoc.
    + rewrite bind_emit, IH. now rewrite <- !app_assoc.
Qed.

(** X9. [build_file_list] never raises.  A path that does not exist is
    logged and skipped; a file is collected under its absolute name; a
    directory gives the files of its tree, each joined to the directory
    that holds it.  The result follows the order of the arguments and
    keeps a file as many times as it is reached. *)
Theorem build_file_list_spec paths w sh t :
  build_file_list paths w sh t
  = (t ++ Getcwd :: flat_map (probes w) paths, Ok (flat_map (collected w) paths)).
Proof.
  unfold build_file_list. rewrite bind_emit, bind_ask, build_file_list_loop_spec.
  now rewrite <- app_assoc.
Qed.

Lemma isabs_join a b : Path.isabs a = true -> Path.isabs (Path.join a b) = true.
Proof.
  unfold Path.isabs, Path.join. intros Ha.
  destruct (Py.startswith Path.sep b) eqn:Hb; [exact Hb|].
  destruct a as [|x a]; [discriminate|].
  destruct (_ || _); rewrite append_cons; exact Ha.
Qed.

(** X10. When the working directory is absolute and [os.walk] of an
    absolute directory yields absolute directories, every path that
    [build_file_list] collects is absolute: the commands built from
    them do not depend on the directory they are run from. *)
Theorem collected_absolute paths w sh t :
  Path.isabs (cwd w) = true ->
  (forall top dirpath dirnames filenames,
      Path.isabs top = true ->
      In (dirpath, dirnames, filenames) (os_walk w top) ->
      Path.isabs dirpath = true) ->
  exists t' inbox,
    build_file_list paths w sh t = (t', Ok inbox)
    /\ Forall (fun p => Path.isabs p = true) inbox.
Proof.
  intros Hcwd Hwalk. unfold build_file_list.
  rewrite bind_emit, bind_ask, build_file_list_loop_spec.
  do 2 eexists. split; [reflexivity|]. cbn [app].
  apply List.Forall_forall. intros p Hin.
  apply in_flat_map in Hin as (path & _ & Hin). unfold collected in Hin.
  destruct (path_exists w path); [|destruct Hin].
  assert (Habs : Path.isabs (abspath (cwd w) path) = true).
  { unfold abspath. destruct (Path.isabs path) eqn:E; [exact E|now apply isabs_join]. }
  cbv zeta in Hin. destruct (path_isdir w _).
  - unfold walked in Hin. apply in_concat in Hin as (fs & Hfs & Hin).
    apply in_map_iff in Hfs as ([[dirpath dirnames] filenames] & <- & Hd).
    apply in_map_iff in Hin as (f & <- & _).
    apply isabs_join. eapply Hwalk; [exact Habs|exact Hd].
  - destruct Hin as [<-|[]]. exact Habs.
Qed.

Lemma collected_absolute_witness :
  exists t' inbox,
    build_file_list ["missing"; "/data"; "x.tif"] Example.w Example.sh [] = (t', Ok inbox)
    /\ Forall (fun p => Path.isabs p = true) inbox.
Proof.
  apply collected_absolute; [reflexivity|].
  intros top dirpath dirnames filenames _ [H|[H|[]]]; inversion H; reflexivity.
Defined.

(** ** Paths: stem and extension *)

Lemma rfind_upper c s : (Py.rfind c s < Z.of_nat (String.length s))%Z.
Proof.
  induction s as [|a s IH]; cbn [Py.rfind String.length]; [lia|].
  destruct (Z.leb_spec 0 (Py.rfind c s)); [lia|]. destruct (Ascii.eqb a c); lia.
Qed.

Lemma rfind_slice_from c s : forall i,
  (Py.rfind c s < Z.of_nat i)%Z -> Py.rfind c (Py.slice_from i s) = (-1)%Z.
Proof.
  induction s as [|a s IH]; intros i Hi; [now destruct i|].
  destruct i as [|i]; cbn [Py.slice_from].
  - pose proof (rfind_lower c (String a s)). lia.
  - apply IH. cbn [Py.rfind] in Hi. pose proof (rfind_lower c s).
    destruct (Z.leb_spec 0 (Py.rfind c s)); lia.
Qed.

Lemma slice_split s : forall i, Py.slice_to i s +:+ Py.slice_from i s = s.
Proof.
  induction s as [|a s IH]; intros [|i]; try reflexivity.
  cbn [Py.slice_to Py.slice_from]. now rewrite append_cons, IH.
Qed.

Lemma slice_to_app_le a b : forall i,
  i <= String.length a -> Py.slice_to i (a +:+ b) = Py.slice_to i a.
Proof.
  induction a as [|x a IH]; intros [|i] Hi; cbn [String.length] in *.
  - now destruct b.
  - lia.
  - reflexivity.
  - rewrite append_cons. cbn [Py.slice_to]. rewrite IH; [reflexivity|lia].
Qed.

Lemma append_inj_l (a b c : string) : a +:+ b = a +:+ c -> b = c.
Proof.
  induction a as [|x a IH]; [easy|]. rewrite !append_cons. intros H.
  inversion H. now apply IH.
Qed.

(** The directory of [stem ++ x] is that of [stem] when [x] holds no
    separator. *)
Lemma dirname_app stem x :
  Py.rfind Path.sep x = (-1)%Z ->
  Path.dirname (stem +:+ x) = Path.dirname stem.
Proof.
  intros Hx. unfold Path.dirname, Path.after_last_sep.
  rewrite (rfind_app_none _ _ _ Hx).
  rewrite slice_to_app_le; [reflexivity|].
  pose proof (rfind_upper Path.sep stem). pose proof (rfind_lower Path.sep stem). lia.
Qed.

Lemma splitext_cases p :
  Path.splitext p = (p, EmptyString)
  \/ exists stem ext,
       Path.splitext p = (stem, ext) /\ p = stem +:+ ext
       /\ Py.rfind Path.sep ext = (-1)%Z.
Proof.
  unfold Path.splitext.
  destruct (Z.ltb_spec (Py.rfind Path.sep p) (Py.rfind "." p)) as [Hlt|]; [|now left].
  cbn [andb]. destruct (Path.has_non_dot _ _ _); [|now left].
  right. do 2 eexists. split; [reflexivity|]. split; [now rewrite slice_split|].
  apply rfind_slice_from. pose proof (rfind_lower Path.sep p). lia.
Qed.

(** ** The converter *)

(** X11. Every pair (source, destination) that the converter plans
    comes from the inbox; the destination is the source with its
    extension, [.tif] or [.tiff] in any case, replaced by [.png]: it is
    another path than the source, so that the [rm -f] that follows the
    conversion never removes the image just written, and it lies in
    the directory of the source. *)
Theorem convert_targets inbox w sh t t' to_do ignored :
  convert_filter inbox [] 0%Z w sh t = (t', Ok (to_do, ignored)) ->
  Forall (fun '(old, new) =>
            In old inbox
            /\ (exists stem ext,
                  old = stem +:+ ext /\ new = stem +:+ ".png" /\ is_tiff ext = true)
            /\ new <> old
            /\ Path.dirname new = Path.dirname old) to_do.
Proof.
  rewrite convert_filter_spec. intros H. inversion H; subst. clear H. cbn [app].
  apply List.Forall_forall. intros [old new] Hin.
  apply in_map_iff in Hin as (p & E & Hin). apply filter_In in Hin as [Hin Ht].
  unfold convert_op in E. inversion E; subst. clear E.
  unfold tiff_path in Ht.
  destruct (splitext_cases old) as [E|(stem & ext & E & Hp & Hsep)]; rewrite E in *;
    cbn [fst snd] in *; [discriminate|].
  split; [exact Hin|]. split; [now exists stem, ext|]. split.
  - intros Heq. rewrite Hp in Heq. apply append_inj_l in Heq. subst ext. discriminate.
  - rewrite Hp, (dirname_app stem ext Hsep).
    now apply dirname_app.
Qed.

Lemma convert_targets_witness :
  Forall (fun '(old, new) => new <> old /\ Path.dirname new = Path.dirname old)
    [("/data/plate 1/a.b.TIF", "/data/plate 1/a.b.png")].
Proof.
  pose proof (convert_targets ["/data/notes.txt"; "/data/plate 1/a.b.TIF"]
                Example.w Example.sh [] _ _ _ ltac:(vm_compute; reflexivity)) as H.
  eapply List.Forall_impl; [|exact H]. intros [old new] (_ & _ & H1 & H2). now split.
Defined.

(** X12. With [--check] the converter prints, after the notices of the
    ignored files and the report, exactly one command per TIFF file of
    the inbox, in the order of the inbox, and returns: the command
    converts the file to the PNG beside it and, unless [--keep] is
    set, removes the file afterwards. *)
Theorem convert_check_prints args w sh t t1 inbox :
  build_file_list (Args.path args) w sh t = (t1, Ok inbox) ->
  Args.check args = true ->
  let to_do := List.filter tiff_path inbox in
  let ignored := List.filter (fun p => negb (tiff_path p)) inbox in
  convert_func args w sh t =
    (t1 ++ map (fun p => Stdout (p +:+ ": no TIFF extension, ignored!")) ignored
        ++ [Stdout (report "convert" (length inbox) (length to_do)
                           (Z.of_nat (length ignored)))]
        ++ map (fun p => Stdout (convert_cmd (Args.keep args) p)) to_do,
     Ok tt).
Proof.
  intros Hb Hc to_do ignored.
  rewrite (convert_func_report _ _ _ _ _ _ Hb), Hc. subst to_do ignored.
  rewrite length_map.
  destruct (List.filter tiff_path inbox) as [|p ps].
  - cbn [map is_nil]. unfold mret, M_ret. now rewrite <- !app_assoc, !app_nil_r.
  - cbn [is_nil map]. unfold run. rewrite bind_ret.
    rewrite for_print, <- !app_assoc. cbn [map]. rewrite !map_map.
    reflexivity.
Qed.

Lemma convert_check_prints_witness :
  let args := {| Args.action_ := Args.convert; Args.path := ["/data"];
                 Args.keep := false; Args.check := true; Args.batch := false;
                 Args.batch_size := 200 |} in
  convert_func args Example.w Example.sh []
  = ([Getcwd; PathExists "/data"; PathIsdir "/data"; Walk "/data";
      Stdout "/data/notes.txt: no TIFF extension, ignored!";
      Stdout "Examined 3 files: 2 to convert, 1 ignored.";
      Stdout "convert -depth 16 -colorspace gray '/data/plate 1/E_1_B - 03(fld 4 wv Blue - FITC).tif' '/data/plate 1/E_1_B - 03(fld 4 wv Blue - FITC).png'; rm -f '/data/plate 1/E_1_B - 03(fld 4 wv Blue - FITC).tif'";
      Stdout "convert -depth 16 -colorspace gray '/data/plate 1/E_1_B - 03(fld 4 wv Cy3).tif' '/data/plate 1/E_1_B - 03(fld 4 wv Cy3).png'; rm -f '/data/plate 1/E_1_B - 03(fld 4 wv Cy3).tif'"],
     Ok tt).
Proof.
  intros args.
  exact (convert_check_prints args Example.w Example.sh [] _ _
           ltac:(vm_compute; reflexivity) eq_refl).
Defined.

(** ** Nothing to do, nothing done *)

Lemma filter_none {A} (f : A -> bool) (l : list A) :
  List.filter f l = [] -> List.filter (fun x => negb (f x)) l = l.
Proof.
  induction l as [|x l IH]; [reflexivity|]. cbn [List.filter].
  destruct (f x); [discriminate|]. intros H. cbn [negb]. now rewrite IH.
Qed.

(** X13. When no collected file matches the pattern, the renamer logs
    one warning per file, prints a report with 0 files to rename and
    returns; when none has a TIFF extension, the converter does the
    same with its notices.  Neither reaches [run], whatever [--check]
    and [--batch] are. *)
Theorem nothing_to_do args m w sh t t1 inbox :
  build_file_list (Args.path args) w sh t = (t1, Ok inbox) ->
  (List.filter (matches (pattern m)) inbox = [] ->
     rename_func args m w sh t =
       (t1 ++ map unmatched_log inbox
           ++ [Stdout (report "rename" (length inbox) 0 (Z.of_nat (length inbox)))],
        Ok tt))
  /\ (List.filter tiff_path inbox = [] ->
        convert_func args w sh t =
          (t1 ++ map (fun p => Stdout (p +:+ ": no TIFF extension, ignored!")) inbox
              ++ [Stdout (report "convert" (length inbox) 0 (Z.of_nat (length inbox)))],
           Ok tt)).
Proof.
  intros Hb. split; intros Hf.
  - rewrite (rename_func_report _ _ _ _ _ _ _ Hb), Hf, (filter_none _ _ Hf).
    cbn [is_nil length]. unfold mret, M_ret. now rewrite <- app_assoc.
  - rewrite (convert_func_report _ _ _ _ _ _ Hb), Hf, (filter_none _ _ Hf).
    cbn [is_nil length map]. unfold mret, M_ret. now rewrite <- app_assoc.
Qed.

Lemma nothing_to_do_witness :
  let args := {| Args.action_ := Args.rename; Args.path := ["notes.txt"];
                 Args.keep := false; Args.check := false; Args.batch := true;
                 Args.batch_size := 200 |} in
  rename_func args IC6000 Example.w Example.sh []
  = ([Getcwd; PathExists "notes.txt"; PathIsdir "/home/user/notes.txt";
      Log "WARNING" "notes.txt: Pattern does not match, ignored!";
      Stdout "Examined 1 files: 0 to rename, 1 ignored."], Ok tt)
  /\ convert_func args Example.w Example.sh []
     = ([Getcwd; PathExists "notes.txt"; PathIsdir "/home/user/notes.txt";
         Stdout "/home/user/notes.txt: no TIFF extension, ignored!";
         Stdout "Examined 1 files: 0 to convert, 1 ignored."], Ok tt).
Proof.
  intros args.
  destruct (nothing_to_do args IC6000 Example.w Example.sh [] _ _
              ltac:(vm_compute; reflexivity)) as [Hr Hc].
  split; [exact (Hr eq_refl)|exact (Hc eq_refl)].
Defined.

(** ** A dry run changes nothing *)

Lemma probes_quiet w path : Forall (fun ev => acts ev = false) (probes w path).
Proof.
  unfold probes. apply List.Forall_cons; [reflexivity|].
  destruct (path_exists w path); cbv zeta.
  - apply List.Forall_cons; [reflexivity|].
    destruct (path_isdir w _); repeat constructor.
  - repeat constructor.
Qed.

Lemma build_file_list_quiet paths w sh t :
  exists t1 inbox,
    build_file_list paths w sh t = (t ++ t1, Ok inbox)
    /\ Forall (fun ev => acts ev = false) t1.
Proof.
  unfold build_file_list. rewrite bind_emit, bind_ask, build_file_list_loop_spec.
  rewrite <- app_assoc. do 2 eexists. split; [reflexivity|].
  apply List.Forall_cons; [reflexivity|].
  apply List.Forall_forall. intros ev Hin. apply in_flat_map in Hin as (path & _ & Hin).
  pose proof (probes_quiet w path) as H. rewrite List.Forall_forall in H. now apply H.
Qed.

Lemma quiet_map {A} (f : A -> event) (l : list A) :
  (forall x, acts (f x) = false) -> Forall (fun ev => acts ev = false) (map f l).
Proof.
  intros H. apply List.Forall_forall. intros ev Hin.
  apply in_map_iff in Hin as (x & <- & _). apply H.
Qed.

Ltac quiet_trace Hq :=
  do 2 eexists; split; [rewrite <- ?app_assoc; reflexivity|];
  apply Forall_app; split; [exact Hq|];
  apply Forall_app; split; [now apply quiet_map|];
  first [ now repeat constructor
        | apply List.Forall_cons; [reflexivity|]; now apply quiet_map ].

(** X14. With [--check], whatever the action and the other options,
    [main] writes no script, removes none and starts no process: all
    that it adds to the trace are queries of the file system, log
    records and printed lines; also when it ends with an exception. *)
Theorem check_never_acts parse_args argv args w sh t :
  parse_args argv = Ok args ->
  Args.check args = true ->
  exists t' r,
    main parse_args argv w sh t = (t ++ t', r)
    /\ Forall (fun ev => acts ev = false) t'.
Proof.
  intros Hp Hc. unfold main. rewrite Hp. unfold lift.
  rewrite (bind_ok _ _ _ _ _ _ _ eq_refl).
  destruct (build_file_list_quiet (Args.path args) w sh t) as (t1 & inbox & Hb & Hq).
  destruct (Args.action_ args).
  - rewrite (convert_func_report _ _ _ _ _ _ Hb), Hc.
    match goal with |- context [is_nil ?l] => destruct l as [|op ops] end; cbn [is_nil].
    + unfold mret, M_ret. quiet_trace Hq.
    + unfold run. rewrite bind_ret, for_print. quiet_trace Hq.
  - destruct (Args.keep args).
    + do 2 eexists. rewrite bind_emit. unfold raise. split; [reflexivity|].
      now repeat constructor.
    + rewrite (rename_func_report _ _ _ _ _ _ _ Hb), Hc.
      destruct (is_nil _).
      * unfold mret, M_ret. quiet_trace Hq.
      * unfold lift, mbind at 1, M_bind.
        destruct (rename_cmds _ _ _) as [cmds|e|].
        -- unfold run. rewrite bind_ret, for_print. quiet_trace Hq.
        -- quiet_trace Hq.
        -- quiet_trace Hq.
Qed.

Lemma check_never_acts_witness :
  exists t' r,
    main Example.parse_args ["convert"; "--check"; "/data"; "missing"]
         Example.w Example.sh [] = (t', r)
    /\ Forall (fun ev => acts ev = false) t'.
Proof.
  exact (check_never_acts Example.parse_args ["convert"; "--check"; "/data"; "missing"] _
           Example.w Example.sh [] eq_refl eq_refl).
Defined.

(** ** Characters that a string does not hold *)

Lemma contains_append c a b :
  Py.contains c (a +:+ b) = Py.contains c a || Py.contains c b.
Proof.
  induction a as [|x a IH]; [reflexivity|].
  rewrite append_cons. cbn [Py.contains]. now rewrite IH, orb_assoc.
Qed.

Lemma contains_tail c x s : lacks c (String x s) -> lacks c s.
Proof. unfold lacks. cbn [Py.contains]. intros H. now apply orb_false_iff in H. Qed.

Lemma contains_replace c old new s :
  Py.contains c new = false -> Py.contains c s = false ->
  Py.contains c (Py.replace old new s) = false.
Proof.
  intros Hn. induction s as [|x s IH]; [reflexivity|].
  cbn [Py.contains Py.replace]. intros H. apply orb_false_iff in H as [Hx Hs].
  destruct (Ascii.eqb x old).
  - rewrite contains_append, Hn. now apply IH.
  - cbn [Py.contains]. rewrite Hx. now apply IH.
Qed.

Lemma replace_removes old s : Py.contains old (Py.replace old "" s) = false.
Proof.
  induction s as [|x s IH]; [reflexivity|]. cbn [Py.replace].
  destruct (Ascii.eqb x old) eqn:E; [exact IH|].
  cbn [Py.contains]. now rewrite E.
Qed.

Lemma contains_split c sep s :
  Py.contains c s = false ->
  Forall (fun part => Py.contains c part = false) (Py.split sep s).
Proof.
  induction s as [|x s IH]; intros H; [now repeat constructor|].
  cbn [Py.contains] in H. apply orb_false_iff in H as [Hx Hs]. specialize (IH Hs).
  cbn [Py.split]. destruct (Ascii.eqb x sep).
  - now constructor.
  - destruct (Py.split sep s) as [|h tl]; [now repeat constructor; cbn; rewrite Hx|].
    inversion IH; subst. constructor; [|assumption]. cbn [Py.contains]. now rewrite Hx.
Qed.

Lemma split_parts sep s :
  Forall (fun part => Py.contains sep part = false) (Py.split sep s).
Proof.
  induction s as [|x s IH]; [now repeat constructor|].
  cbn [Py.split]. destruct (Ascii.eqb x sep) eqn:E.
  - now constructor.
  - destruct (Py.split sep s) as [|h tl]; [repeat constructor; cbn; now rewrite E|].
    inversion IH; subst. constructor; [|assumption]. cbn [Py.contains]. now rewrite E.
Qed.

Lemma split_none sep s : Py.contains sep s = false -> Py.split sep s = [s].
Proof.
  induction s as [|x s IH]; [reflexivity|]. cbn [Py.contains Py.split].
  intros H. apply orb_false_iff in H as [Hx Hs]. now rewrite Hx, (IH Hs).
Qed.

Lemma contains_zeros c n : Ascii.eqb "0" c = false -> Py.contains c (Py.zeros n) = false.
Proof.
  intros H. induction n as [|n IH]; [reflexivity|].
  cbn [Py.zeros Py.contains]. now rewrite H.
Qed.

Lemma contains_zfill c n s :
  Ascii.eqb "0" c = false -> Py.contains c s = false ->
  Py.contains c (Py.zfill n s) = false.
Proof.
  intros H0 Hs. unfold Py.zfill. destruct (n <=? String.length s)%nat; [exact Hs|].
  destruct s as [|a s']; [now apply contains_zeros|].
  destruct (_ || _).
  - cbn [Py.contains] in *. apply orb_false_iff in Hs as [Ha Hs']. rewrite Ha.
    rewrite contains_append, Hs', orb_false_r. now apply contains_zeros.
  - rewrite contains_append, Hs, orb_false_r. now apply contains_zeros.
Qed.

Lemma zeros_length n : String.length (Py.zeros n) = n.
Proof. induction n as [|n IH]; [reflexivity|]. cbn. now rewrite IH. Qed.

Lemma zfill_length n s : n <= String.length (Py.zfill n s).
Proof.
  unfold Py.zfill. destruct (Nat.leb_spec n (String.length s)) as [H|H]; [exact H|].
  destruct s as [|a s']; [rewrite zeros_length; cbn [String.length] in *; lia|].
  destruct (_ || _); cbn [String.length] in *;
    rewrite ?length_append, ?zeros_length; cbn [String.length]; lia.
Qed.

Lemma rfind_neg_contains c s : Py.rfind c s = (-1)%Z -> Py.contains c s = false.
Proof.
  induction s as [|a s IH]; [reflexivity|]. cbn [Py.rfind Py.contains].
  pose proof (rfind_lower c s).
  destruct (Z.leb_spec 0 (Py.rfind c s)); [lia|].
  destruct (Ascii.eqb a c); [lia|]. intros _. apply IH. lia.
Qed.

Lemma basename_no_sep path : Py.contains Path.sep (Path.basename path) = false.
Proof.
  apply rfind_neg_contains. unfold Path.basename, Path.after_last_sep.
  apply rfind_slice_from. pose proof (rfind_lower Path.sep path). lia.
Qed.

Lemma contains_slice_to c s : forall i,
  Py.contains c s = false -> Py.contains c (Py.slice_to i s) = false.
Proof.
  induction s as [|a s IH]; intros [|i] H; try reflexivity.
  cbn [Py.contains Py.slice_to] in *. apply orb_false_iff in H as [Ha Hs].
  now rewrite Ha, IH.
Qed.

(** ** The matcher and its continuation *)

Section Groups.
Variable c : ascii.

(** The groups of a match are pieces of the subject. *)
Lemma star_groups cs (k : string -> option (gmap string string)) s gf :
  lacks c s ->
  (forall s' gf', lacks c s' -> k s' = Some gf' -> all_lack c gf') ->
  Re.star true cs k s = Some gf -> all_lack c gf.
Proof.
  intros Hs K. induction s as [|x s IH]; cbn [Re.star]; [now apply K|].
  pose proof (contains_tail _ _ _ Hs) as Hs'.
  destruct (Re.in_charset true cs x); [|now apply K].
  destruct (Re.star true cs k s) as [g'|] eqn:E.
  - intros H. inversion H; subst. now apply IH.
  - now apply K.
Qed.

Lemma sre_match_groups r : forall s g k gf,
  lacks c s -> all_lack c g ->
  (forall s' g' gf', lacks c s' -> all_lack c g' -> k s' g' = Some gf' -> all_lack c gf') ->
  Re.sre_match true r s g k = Some gf -> all_lack c gf.
Proof.
  induction r as [|cs|cs|r1 IH1 r2 IH2|r1 IH1 r2 IH2|name r1 IH1];
    intros s g k gf Hs Hg K; cbn [Re.sre_match].
  - now apply K.
  - destruct s as [|x s']; [discriminate|].
    destruct (Re.in_charset true cs x); [|discriminate].
    apply K; [|exact Hg]. eapply contains_tail, Hs.
  - apply star_groups; [exact Hs|]. intros s' gf' Hs'. now apply K.
  - apply IH1; [exact Hs|exact Hg|]. intros s' g' gf' Hs' Hg'. now apply IH2.
  - destruct (Re.sre_match true r1 s g k) as [g'|] eqn:E.
    + intros H. inversion H; subst. eapply IH1; eauto.
    + now apply IH2.
  - apply IH1; [exact Hs|exact Hg|]. intros s' g' gf' Hs' Hg'.
    apply K; [exact Hs'|]. destruct name as [x|]; [|exact Hg'].
    apply map_Forall_insert_2; [|exact Hg']. now apply contains_slice_to.
Qed.

Lemma search_groups r s g :
  lacks c s -> Re.search true r s = Some g -> all_lack c g.
Proof.
  assert (Hm : forall s g, lacks c s ->
            Re.sre_match true r s ∅ (fun _ g => Some g) = Some g -> all_lack c g).
  { intros s0 g0 Hs E.
    eapply sre_match_groups; [exact Hs|apply map_Forall_empty| |exact E].
    intros s' g1 gf' _ Hg1 H1. now inversion H1; subst. }
  induction s as [|x s IH]; intros Hs; cbn [Re.search].
  - destruct (Re.sre_match true r "" ∅ _) as [g'|] eqn:E; [|discriminate].
    intros H. inversion H; subst. now apply (Hm "").
  - destruct (Re.sre_match true r (String x s) ∅ _) as [g'|] eqn:E.
    + intros H. inversion H; subst. now apply (Hm (String x s)).
    + apply IH. eapply contains_tail, Hs.
Qed.

(** A subject that lacks [c] cannot be matched up to a continuation
    that needs [c]. *)
Lemma star_needs cs (k : string -> option (gmap string string)) s :
  lacks c s -> (forall s', lacks c s' -> k s' = None) -> Re.star true cs k s = None.
Proof.
  intros Hs K. induction s as [|x s IH]; cbn [Re.star]; [now apply K|].
  pose proof (contains_tail _ _ _ Hs) as Hs'.
  destruct (Re.in_charset true cs x); [|now apply K].
  rewrite (IH Hs'). now apply K.
Qed.

Lemma sre_match_needs r : forall s g k,
  lacks c s -> (forall s' g', lacks c s' -> k s' g' = None) ->
  Re.sre_match true r s g k = None.
Proof.
  induction r as [|cs|cs|r1 IH1 r2 IH2|r1 IH1 r2 IH2|name r1 IH1];
    intros s g k Hs K; cbn [Re.sre_match].
  - now apply K.
  - destruct s as [|x s']; [reflexivity|].
    destruct (Re.in_charset true cs x); [|reflexivity].
    apply K. eapply contains_tail, Hs.
  - apply star_needs; [exact Hs|]. intros s' Hs'. now apply K.
  - apply IH1; [exact Hs|]. intros s' g' Hs'. now apply IH2.
  - rewrite IH1 by assumption. now apply IH2.
  - apply IH1; [exact Hs|]. intros s' g' Hs'. now apply K.
Qed.

Lemma seq_needs r1 r2 s g k :
  lacks c s ->
  (forall s' g', lacks c s' -> Re.sre_match true r2 s' g' k = None) ->
  Re.sre_match true (Re.Seq r1 r2) s g k = None.
Proof. intros Hs K. cbn [Re.sre_match]. now apply sre_match_needs. Qed.
End Groups.

Lemma chr_seq cs r s g k :
  Re.sre_match true (Re.Seq (Re.Chr cs) r) s g k
  = match s with
    | String x s' => if Re.in_charset true cs x then Re.sre_match true r s' g k else None
    | EmptyString => None
    end.
Proof. reflexivity. Qed.

Lemma keeps_refl g : keeps g g.
Proof. now intros x. Qed.

Lemma keeps_trans g1 g2 g3 : keeps g1 g2 -> keeps g2 g3 -> keeps g1 g3.
Proof. intros H1 H2 x Hx. auto. Qed.

Lemma keeps_insert g x v : keeps g (<[x := v]> g).
Proof.
  intros y Hy. destruct (decide (x = y)) as [->|Hne].
  - rewrite lookup_insert_eq. eauto.
  - now rewrite lookup_insert_ne.
Qed.

(** A match is what its continuation answers, on groups that were only
    ever added to. *)
Lemma star_answer cs (k : string -> option (gmap string string)) s gf :
  Re.star true cs k s = Some gf -> exists s', k s' = Some gf.
Proof.
  induction s as [|x s IH]; cbn [Re.star]; [eauto|].
  destruct (Re.in_charset true cs x); [|eauto].
  destruct (Re.star true cs k s) as [g'|]; [|eauto].
  intros H. inversion H; subst. now apply IH.
Qed.

Lemma sre_match_answer r : forall s g k gf,
  Re.sre_match true r s g k = Some gf ->
  exists s' g', k s' g' = Some gf /\ keeps g g'
    /\ match r with
       | Re.Group (Some x) _ => is_Some (g' !! x)
       | _ => True
       end.
Proof.
  induction r as [|cs|cs|r1 IH1 r2 IH2|r1 IH1 r2 IH2|name r1 IH1];
    intros s g k gf; cbn [Re.sre_match].
  - intros H. exists s, g. auto using keeps_refl.
  - destruct s as [|x s']; [discriminate|].
    destruct (Re.in_charset true cs x); [|discriminate].
    intros H. exists s', g. auto using keeps_refl.
  - intros H. apply star_answer in H as [s' H]. exists s', g. auto using keeps_refl.
  - intros H. apply IH1 in H as (s1 & g1 & H & K1 & _).
    apply IH2 in H as (s2 & g2 & H & K2 & _).
    exists s2, g2. eauto using keeps_trans.
  - destruct (Re.sre_match true r1 s g k) as [g'|] eqn:E.
    + intros H. inversion H; subst. apply IH1 in E as (s1 & g1 & H1 & K1 & _).
      exists s1, g1. auto.
    + intros H. apply IH2 in H as (s1 & g1 & H1 & K1 & _). exists s1, g1. auto.
  - intros H. apply IH1 in H as (s1 & g1 & H & K1 & _).
    destruct name as [x|].
    + eexists s1, _. split; [exact H|]. split.
      * eapply keeps_trans; [exact K1|apply keeps_insert].
      * rewrite lookup_insert_eq. eauto.
    + exists s1, g1. auto.
Qed.

Lemma seq_answer r1 r2 s g k gf :
  Re.sre_match true (Re.Seq r1 r2) s g k = Some gf ->
  exists s' g', Re.sre_match true r2 s' g' k = Some gf /\ keeps g g'
    /\ match r1 with
       | Re.Group (Some x) _ => is_Some (g' !! x)
       | _ => True
       end.
Proof. cbn [Re.sre_match]. apply sre_match_answer. Qed.

(** ** The translation of the groups *)

(** X15. A file whose name matches the pattern with a well that holds
    no hyphen passes the filter of the renamer, but its translation
    raises [IndexError]: splitting the well at the hyphen gives a
    single piece, and the renamer takes the second.  The exception
    leaves the loop that builds the commands at that file. *)
Theorem well_without_hyphen path params n w_ chans to_do cmds :
  Re.search true IC6000_pattern (Path.basename path) = Some params ->
  params !! "n" = Some n ->
  params !! "w" = Some w_ ->
  Py.contains "-" w_ = false ->
  _IC6000_replace params chans = Raise IndexError
  /\ rename_cmds IC6000 (path :: to_do) cmds = Raise IndexError.
Proof.
  intros Hs Hn Hw Hh.
  assert (Hr : forall chans, _IC6000_replace params chans = Raise IndexError).
  { intros ch. unfold _IC6000_replace, getitem. rewrite Hn, Hw. cbn [mbind outcome_bind].
    rewrite split_none by (apply contains_replace; [reflexivity|exact Hh]).
    reflexivity. }
  split; [apply Hr|].
  cbn [rename_cmds pattern channels replace_fn IC6000]. cbn zeta.
  now rewrite Hs, Hr.
Qed.

Lemma well_without_hyphen_witness :
  rename_cmds IC6000 ["/data/E_1_B03(fld 4 wv Blue - FITC).tif"] [] = Raise IndexError.
Proof.
  refine (proj2 (well_without_hyphen "/data/E_1_B03(fld 4 wv Blue - FITC).tif"
            (<["n" := "E_1"]> (<["w" := "B03"]> (<["s" := "4"]>
               (<["c" := " Blue - FITC"]> ∅))))
            "E_1" "B03" IC6000_channels [] [] _ _ _ _)).
  - vm_compute. reflexivity.
  - reflexivity.
  - reflexivity.
  - reflexivity.
Defined.

(** X16. When [_IC6000_replace] returns, the experiment name holds no
    underscore, the well holds neither space nor hyphen and has at
    least 2 characters, the site has at least 3 characters, and the
    channel is the value of the channel map at the label of the file,
    spaces removed. *)
Theorem replace_fields params chans exp_name well site channel :
  _IC6000_replace params chans = Ok (exp_name, well, site, channel) ->
  Py.contains "_" exp_name = false
  /\ Py.contains " " well = false /\ Py.contains "-" well = false
  /\ 2 <= String.length well
  /\ 3 <= String.length site
  /\ exists c, params !! "c" = Some c /\ chans !! Py.replace " " "" c = Some channel.
Proof.
  unfold _IC6000_replace, getitem, list_item.
  destruct (params !! "n") as [n|]; [|discriminate].
  destruct (params !! "w") as [w_|]; [|discriminate].
  cbn [mbind outcome_bind].
  pose proof (split_parts "-" (Py.replace " " "" w_)) as Hhy.
  pose proof (contains_split " " "-" _ (replace_removes " " w_)) as Hsp.
  destruct (Py.split "-" (Py.replace " " "" w_)) as [|letter [|number rest]];
    cbn [nth_error mbind outcome_bind]; try discriminate.
  destruct (params !! "s") as [s|]; [|discriminate].
  destruct (params !! "c") as [c|]; [|discriminate].
  cbn [mbind outcome_bind].
  destruct (chans !! Py.replace " " "" c) as [ch|] eqn:Ech; [|discriminate].
  cbn [mbind outcome_bind]. intros H. inversion H; subst. clear H.
  inversion Hhy as [|? ? Hl Hhy']; subst. inversion Hhy' as [|? ? Hnum _]; subst.
  inversion Hsp as [|? ? Hl' Hsp']; subst. inversion Hsp' as [|? ? Hnum' _]; subst.
  split; [apply replace_removes|].
  split; [rewrite contains_append, Hl'; now apply contains_zfill|].
  split; [rewrite contains_append, Hl; now apply contains_zfill|].
  split; [rewrite length_append; pose proof (zfill_length 2 number); lia|].
  split; [apply zfill_length|].
  now exists c.
Qed.

Lemma replace_fields_witness :
  Py.contains "_" "E1" = false
  /\ Py.contains " " "B03" = false /\ Py.contains "-" "B03" = false
  /\ 2 <= String.length "B03"
  /\ 3 <= String.length "004"
  /\ exists c,
       (<["n" := "E_1"]> (<["w" := "B - 3"]> (<["s" := "4"]>
          (<["c" := " Blue - FITC"]> (∅ : gmap string string))))) !! "c" = Some c
       /\ IC6000_channels !! Py.replace " " "" c = Some "02".
Proof.
  exact (replace_fields
           (<["n" := "E_1"]> (<["w" := "B - 3"]> (<["s" := "4"]>
              (<["c" := " Blue - FITC"]> ∅))))
           IC6000_channels "E1" "B03" "004" "02" eq_refl).
Defined.

Lemma IC6000_match_groups s gf :
  Re.sre_match true IC6000_pattern s ∅ (fun _ g => Some g) = Some gf ->
  is_Some (gf !! "n") /\ is_Some (gf !! "w") /\ is_Some (gf !! "s") /\ is_Some (gf !! "c").
Proof.
  unfold IC6000_pattern. cbn [Re.seq]. intros H.
  apply seq_answer in H as (s1 & g1 & H & _ & Hn).
  apply seq_answer in H as (s2 & g2 & H & K2 & _).
  apply seq_answer in H as (s3 & g3 & H & K3 & Hw).
  apply seq_answer in H as (s4 & g4 & H & K4 & _).
  apply seq_answer in H as (s5 & g5 & H & K5 & _).
  apply seq_answer in H as (s6 & g6 & H & K6 & _).
  apply seq_answer in H as (s7 & g7 & H & K7 & Hs).
  apply seq_answer in H as (s8 & g8 & H & K8 & _).
  apply seq_answer in H as (s9 & g9 & H & K9 & _).
  apply seq_answer in H as (s10 & g10 & H & K10 & Hc).
  apply seq_answer in H as (s11 & g11 & H & K11 & _).
  apply seq_answer in H as (s12 & g12 & H & K12 & _).
  apply sre_match_answer in H as (s13 & g13 & H & K13 & _).
  inversion H; subst g13. clear H.
  assert (Kc : keeps g10 gf) by eauto using keeps_trans.
  assert (Ks : keeps g7 gf) by eauto using keeps_trans.
  assert (Kw : keeps g3 gf) by eauto 8 using keeps_trans.
  assert (Kn : keeps g1 gf) by eauto 8 using keeps_trans.
  auto.
Qed.

Lemma matched_groups name params :
  Re.search true IC6000_pattern name = Some params ->
  is_Some (params !! "n") /\ is_Some (params !! "w")
  /\ is_Some (params !! "s") /\ is_Some (params !! "c").
Proof.
  induction name as [|x name IH]; cbn [Re.search].
  - destruct (Re.sre_match true IC6000_pattern "" ∅ _) as [g|] eqn:E; [|discriminate].
    intros H. inversion H; subst. now apply IC6000_match_groups in E.
  - destruct (Re.sre_match true IC6000_pattern (String x name) ∅ _) as [g|] eqn:E.
    + intros H. inversion H; subst. now apply IC6000_match_groups in E.
    + exact IH.
Qed.

(** X17. Every match of the pattern defines the four groups [n], [w],
    [s] and [c]; so on the groups of a match [_IC6000_replace] either
    returns the four fields, or raises [IndexError] because the well,
    spaces removed, has no hyphen, or raises [KeyError] on the channel
    label, spaces removed, because the channel map does not have it:
    it raises no [KeyError] on a group. *)
Theorem replace_failure_modes name params chans :
  Re.search true IC6000_pattern name = Some params ->
  exists n w_ s c,
    params !! "n" = Some n /\ params !! "w" = Some w_
    /\ params !! "s" = Some s /\ params !! "c" = Some c
    /\ _IC6000_replace params chans =
       match Py.split "-" (Py.replace " " "" w_) with
       | well_letter :: well_number :: _ =>
           match chans !! Py.replace " " "" c with
           | Some channel =>
               Ok (Py.replace "_" "" n, well_letter +:+ Py.zfill 2 well_number,
                   Py.zfill 3 s, channel)
           | None => Raise (KeyError (Py.replace " " "" c))
           end
       | _ => Raise IndexError
       end.
Proof.
  intros H. apply matched_groups in H as ([n Hn] & [w_ Hw] & [s Hs] & [c Hc]).
  exists n, w_, s, c. repeat (split; [assumption|]).
  unfold _IC6000_replace, getitem, list_item. rewrite Hn, Hw, Hs, Hc.
  cbn [mbind outcome_bind].
  destruct (Py.split "-" (Py.replace " " "" w_)) as [|letter [|number rest]];
    cbn [nth_error mbind outcome_bind]; try reflexivity.
  destruct (chans !! Py.replace " " "" c); reflexivity.
Qed.

Lemma replace_failure_modes_witness :
  let params : gmap string string :=
    <["n" := "E_1"]> (<["w" := "B - 03"]> (<["s" := "4"]> (<["c" := " Cy3"]> ∅))) in
  exists n w_ s c,
    params !! "n" = Some n /\ params !! "w" = Some w_
    /\ params !! "s" = Some s /\ params !! "c" = Some c
    /\ _IC6000_replace params IC6000_channels =
       match Py.split "-" (Py.replace " " "" w_) with
       | well_letter :: well_number :: _ =>
           match IC6000_channels !! Py.replace " " "" c with
           | Some channel =>
               Ok (Py.replace "_" "" n, well_letter +:+ Py.zfill 2 well_number,
                   Py.zfill 3 s, channel)
           | None => Raise (KeyError (Py.replace " " "" c))
           end
       | _ => Raise IndexError
       end.
Proof.
  intros params.
  apply (replace_failure_modes "E_1_B - 03(fld 4 wv Cy3).tif" params IC6000_channels).
  vm_compute. reflexivity.
Defined.

(** ** Where the renamer moves a file *)

Lemma IC6000_channels_values key code :
  IC6000_channels !! key = Some code -> In code ["01"; "02"; "03"; "04"].
Proof.
  unfold IC6000_channels. intros H.
  repeat (apply lookup_insert_Some in H as [[_ <-]|[_ H]]; [cbn; tauto|]).
  now rewrite lookup_empty in H.
Qed.

Lemma replace_no_sep params e w s c :
  all_lack Path.sep params ->
  _IC6000_replace params IC6000_channels = Ok (e, w, s, c) ->
  Py.contains Path.sep (CV7000 e w s c) = false.
Proof.
  intros Hg. unfold _IC6000_replace, getitem, list_item.
  destruct (params !! "n") as [n|] eqn:En; [|discriminate].
  destruct (params !! "w") as [w_|] eqn:Ew; [|discriminate].
  cbn [mbind outcome_bind].
  pose proof (Hg _ _ En) as Hn. pose proof (Hg _ _ Ew) as Hw. cbv beta in Hn, Hw.
  pose proof (contains_split Path.sep "-" _
                (contains_replace Path.sep " " "" w_ eq_refl Hw)) as Hsp.
  destruct (Py.split "-" (Py.replace " " "" w_)) as [|letter [|number rest]];
    cbn [nth_error mbind outcome_bind]; try discriminate.
  destruct (params !! "s") as [s0|] eqn:Es; [|discriminate].
  destruct (params !! "c") as [c0|]; [|discriminate].
  cbn [mbind outcome_bind].
  destruct (IC6000_channels !! Py.replace " " "" c0) as [ch|] eqn:Ech; [|discriminate].
  cbn [mbind outcome_bind]. intros H. inversion H; subst. clear H.
  pose proof (Hg _ _ Es) as Hs0. cbv beta in Hs0.
  inversion Hsp as [|? ? Hl Hsp']; subst. inversion Hsp' as [|? ? Hnum _]; subst.
  unfold CV7000. rewrite !contains_append.
  rewrite (contains_replace Path.sep "_" "" n eq_refl Hn), Hl.
  rewrite !(contains_zfill Path.sep) by (reflexivity || assumption).
  apply IC6000_channels_values in Ech.
  destruct Ech as [<-|[<-|[<-|[<-|[]]]]]; reflexivity.
Qed.

Lemma CV7000_tif e w s c :
  exists stem, CV7000 e w s c = stem +:+ ".tif".
Proof.
  exists (e +:+ "_" +:+ w +:+ "_T0001F" +:+ s +:+ "L01A01Z01C" +:+ c).
  unfold CV7000. now rewrite !append_assoc.
Qed.

(** X18. When the second loop of the renamer ends, it has added one
    command per file, in order: [mv] of the file to a path in the
    directory of the file, whose base name holds no separator and
    ends with [.tif], also when the file is a [.png], which the
    pattern accepts as well. *)
Theorem rename_targets to_do cmds0 cmds :
  rename_cmds IC6000 to_do cmds0 = Ok cmds ->
  exists moves,
    cmds = cmds0 ++ moves
    /\ Forall2 (fun path cmd =>
         exists new stem,
           cmd = mv_fmt path new
           /\ Path.dirname new = Path.dirname path
           /\ Path.basename new = stem +:+ ".tif"
           /\ Py.contains Path.sep stem = false) to_do moves.
Proof.
  revert cmds0. induction to_do as [|path to_do IH]; intros cmds0 H.
  - cbn in H. inversion H; subst. exists []. split; [now rewrite app_nil_r|constructor].
  - cbn [rename_cmds pattern channels replace_fn IC6000] in H. cbn zeta in H.
    destruct (Re.search true IC6000_pattern (Path.basename path)) as [params|] eqn:Hs;
      [|discriminate].
    destruct (_IC6000_replace params IC6000_channels) as [[[[e w] s] c]|x|] eqn:Hr;
      cbn [mbind outcome_bind] in H; try discriminate.
    destruct (IH _ H) as (moves & -> & Hall).
    pose proof (search_groups Path.sep _ _ _ (basename_no_sep path) Hs) as Hg.
    pose proof (replace_no_sep _ _ _ _ _ Hg Hr) as Hname.
    destruct (dirname_join path _ Hname) as [Hd Hb].
    destruct (CV7000_tif e w s c) as [stem Est].
    eexists (_ :: moves). split; [now rewrite <- app_assoc|].
    constructor; [|exact Hall].
    eexists _, stem. split; [reflexivity|]. split; [exact Hd|]. split; [now rewrite Hb|].
    rewrite Est, contains_append in Hname. now apply orb_false_iff in Hname.
Qed.

Lemma rename_targets_witness :
  exists moves,
    ["mv '/data/plate 1/E_1_B - 03(fld 4 wv Blue - FITC).png' '/data/plate 1/E1_B03_T0001F004L01A01Z01C02.tif'"]
    = [] ++ moves
    /\ Forall2 (fun path cmd =>
         exists new stem,
           cmd = mv_fmt path new
           /\ Path.dirname new = Path.dirname path
           /\ Path.basename new = stem +:+ ".tif"
           /\ Py.contains Path.sep stem = false)
         ["/data/plate 1/E_1_B - 03(fld 4 wv Blue - FITC).png"] moves.
Proof.
  exact (rename_targets ["/data/plate 1/E_1_B - 03(fld 4 wv Blue - FITC).png"] [] _
           ltac:(vm_compute; reflexivity)).
Defined.

(** ** What the pattern asks of a name *)

Lemma lower_paren x : Py.lower_ascii x = "("%char -> x = "("%char.
Proof.
  destruct x as [[] [] [] [] [] [] [] []]; vm_compute; intros H;
    first [reflexivity | discriminate H].
Qed.

Lemma no_paren_no_match name :
  Py.contains "(" name = false ->
  Re.search true IC6000_pattern name = None.
Proof.
  assert (Hm : forall s, lacks "(" s ->
            Re.sre_match true IC6000_pattern s ∅ (fun _ g => Some g) = None).
  { intros s Hs. unfold IC6000_pattern. cbn [Re.seq].
    apply (seq_needs "("); [exact Hs|]. intros s1 g1 Hs1.
    apply (seq_needs "("); [exact Hs1|]. intros s2 g2 Hs2.
    apply (seq_needs "("); [exact Hs2|]. intros s3 g3 Hs3.
    rewrite chr_seq. destruct s3 as [|a3 s3]; [reflexivity|].
    unfold lacks in Hs3. cbn [Py.contains] in Hs3.
    apply orb_false_iff in Hs3 as [Ha3 _].
    cbn [Re.in_charset].
    destruct (Ascii.eqb_spec (Py.lower_ascii a3) (Py.lower_ascii "(")) as [E|];
      [|reflexivity].
    apply lower_paren in E. subst a3. discriminate. }
  induction name as [|x name IH]; intros Hc; cbn [Re.search]; rewrite (Hm _ Hc).
  - reflexivity.
  - apply IH. cbn [Py.contains] in Hc. now apply orb_false_iff in Hc.
Qed.

(** X19. A file whose base name holds no opening parenthesis is never
    matched by the pattern of IC6000, which asks for one before [fld]:
    the first loop of the renamer logs it as ignored, counts it and
    goes on.  The first example of the docstring of [_IC6000_replace],
    [C_13_fld_2_wv_405_Blue.tif], is such a name. *)
Theorem no_paren_ignored path inbox to_do ignored w sh t :
  Py.contains "(" (Path.basename path) = false ->
  rename_filter IC6000_pattern (path :: inbox) to_do ignored w sh t
  = rename_filter IC6000_pattern inbox to_do (ignored + 1)%Z w sh
      (t ++ [Log "WARNING" (Path.basename path +:+ ": Pattern does not match, ignored!")]).
Proof.
  intros Hc. cbn [rename_filter]. cbn zeta.
  rewrite (no_paren_no_match _ Hc). now rewrite bind_emit.
Qed.

Lemma no_paren_ignored_witness :
  rename_filter IC6000_pattern ["/data/C_13_fld_2_wv_405_Blue.tif"] [] 0%Z
    Example.w Example.sh []
  = ([Log "WARNING" "C_13_fld_2_wv_405_Blue.tif: Pattern does not match, ignored!"],
     Ok ([], 1%Z)).
Proof.
  exact (no_paren_ignored "/data/C_13_fld_2_wv_405_Blue.tif" [] [] 0%Z
           Example.w Example.sh [] eq_refl).
Defined.

(** ** Matching ignores the case *)

Lemma lower_ascii_idem x : Py.lower_ascii (Py.lower_ascii x) = Py.lower_ascii x.
Proof. destruct x as [[] [] [] [] [] [] [] []]; vm_compute; reflexivity. Qed.

Lemma lower_ascii_class x :
  (nat_of_ascii (Py.lower_ascii x) =? 10)%nat = (nat_of_ascii x =? 10)%nat
  /\ Re.is_digit (Py.lower_ascii x) = Re.is_digit x.
Proof. destruct x as [[] [] [] [] [] [] [] []]; vm_compute; split; reflexivity. Qed.

Lemma in_charset_lower cs x :
  Re.in_charset true cs (Py.lower_ascii x) = Re.in_charset true cs x.
Proof.
  destruct (lower_ascii_class x) as [Hn Hd].
  destruct cs; cbn [Re.in_charset]; rewrite ?lower_ascii_idem, ?Hn, ?Hd; reflexivity.
Qed.

Lemma star_lower cs (k1 k2 : string -> option (gmap string string)) s :
  (forall s', found (k1 (Py.lower s')) = found (k2 s')) ->
  found (Re.star true cs k1 (Py.lower s)) = found (Re.star true cs k2 s).
Proof.
  intros K. induction s as [|x s IH]; cbn [Py.lower Re.star]; [apply (K "")|].
  rewrite in_charset_lower. destruct (Re.in_charset true cs x); [|apply (K (String x s))].
  destruct (Re.star true cs k1 (Py.lower s)), (Re.star true cs k2 s);
    cbn [found] in *; try reflexivity; try discriminate.
  apply (K (String x s)).
Qed.

Lemma sre_match_lower r : forall s g1 g2 k1 k2,
  (forall s' g1' g2', found (k1 (Py.lower s') g1') = found (k2 s' g2')) ->
  found (Re.sre_match true r (Py.lower s) g1 k1) = found (Re.sre_match true r s g2 k2).
Proof.
  induction r as [|cs|cs|r1 IH1 r2 IH2|r1 IH1 r2 IH2|name r1 IH1];
    intros s g1 g2 k1 k2 K; cbn [Re.sre_match].
  - apply K.
  - destruct s as [|x s]; cbn [Py.lower]; [reflexivity|].
    rewrite in_charset_lower. destruct (Re.in_charset true cs x); [apply K|reflexivity].
  - apply star_lower. intros s'. apply K.
  - apply IH1. intros s' g1' g2'. now apply IH2.
  - specialize (IH1 s g1 g2 k1 k2 K). specialize (IH2 s g1 g2 k1 k2 K).
    destruct (Re.sre_match true r1 (Py.lower s) g1 k1),
             (Re.sre_match true r1 s g2 k2); cbn [found] in *;
      try reflexivity; try discriminate. exact IH2.
  - apply IH1. intros s' g1' g2'. apply K.
Qed.

(** X20. Under the flag [re.I] with which the renamer compiles the
    pattern, a name is matched exactly when its lower-case form is:
    the case of the letters of a file name plays no part in the
    choice of the files to rename. *)
Theorem search_ignores_case r name :
  found (Re.search true r (Py.lower name)) = found (Re.search true r name).
Proof.
  induction name as [|x name IH]; cbn [Py.lower Re.search].
  - pose proof (sre_match_lower r "" ∅ ∅ (fun _ g => Some g) (fun _ g => Some g)
                  (fun _ _ _ => eq_refl)) as H. cbn [Py.lower] in H.
    destruct (Re.sre_match true r "" ∅ _); reflexivity.
  - pose proof (sre_match_lower r (String x name) ∅ ∅ (fun _ g => Some g)
                  (fun _ g => Some g) (fun _ _ _ => eq_refl)) as H.
    cbn [Py.lower] in H.
    destruct (Re.sre_match true r (String (Py.lower_ascii x) (Py.lower name)) ∅ _),
             (Re.sre_match true r (String x name) ∅ _); cbn [found] in *;
      try reflexivity; try discriminate. exact IH.
Qed.

(** ** Quoting *)



(** ** The search is anchored at neither end *)

Lemma star_sound cs (k : string -> option (gmap string string)) s gf :
  Re.star true cs k s = Some gf ->
  exists s', derives (Re.Star cs) s s' /\ k s' = Some gf.
Proof.
  induction s as [|x s IH]; cbn [Re.star].
  - intros H. exists "". split; [constructor|exact H].
  - destruct (Re.in_charset true cs x) eqn:Ex.
    + destruct (Re.star true cs k s) as [g'|] eqn:E.
      * intros H. inversion H; subst. destruct (IH eq_refl) as (s' & Hd & Hk).
        exists s'. split; [now apply derives_star_step|exact Hk].
      * intros H. exists (String x s). split; [constructor|exact H].
    + intros H. exists (String x s). split; [constructor|exact H].
Qed.

(** What the matcher finds, the pattern derives. *)
Lemma sre_match_sound r : forall s g k gf,
  Re.sre_match true r s g k = Some gf ->
  exists s' g', derives r s s' /\ k s' g' = Some gf.
Proof.
  induction r as [|cs|cs|r1 IH1 r2 IH2|r1 IH1 r2 IH2|name r1 IH1];
    intros s g k gf; cbn [Re.sre_match].
  - intros H. exists s, g. split; [constructor|exact H].
  - destruct s as [|x s']; [discriminate|].
    destruct (Re.in_charset true cs x) eqn:Ex; [|discriminate].
    intros H. exists s', g. split; [now constructor|exact H].
  - intros H. apply star_sound in H as (s' & Hd & Hk). now exists s', g.
  - intros H. apply IH1 in H as (s1 & g1 & Hd1 & H).
    apply IH2 in H as (s2 & g2 & Hd2 & H).
    exists s2, g2. split; [now apply derives_seq with s1|exact H].
  - destruct (Re.sre_match true r1 s g k) as [g'|] eqn:E.
    + intros H. inversion H; subst. apply IH1 in E as (s1 & g1 & Hd & Hk).
      exists s1, g1. split; [now apply derives_alt_l|exact Hk].
    + intros H. apply IH2 in H as (s1 & g1 & Hd & Hk).
      exists s1, g1. split; [now apply derives_alt_r|exact Hk].
  - intros H. apply IH1 in H as (s1 & g1 & Hd & Hk).
    eexists s1, _. split; [now apply derives_group|exact Hk].
Qed.

(** What the pattern derives up to a point where the continuation
    accepts, the matcher finds, backtracking if it must. *)
Lemma sre_match_complete r s s' :
  derives r s s' ->
  forall k, (forall g, found (k s' g) = true) ->
  forall g, found (Re.sre_match true r s g k) = true.
Proof.
  induction 1 as [s|cs x s Hx|cs s|cs x s s' Hx Hd IH|r1 r2 s s1 s2 H1 IH1 H2 IH2
                 |r1 r2 s s' H1 IH1|r1 r2 s s' H2 IH2|name r s s' H1 IH1];
    intros k K g; cbn [Re.sre_match].
  - apply K.
  - rewrite Hx. apply K.
  - destruct s as [|x s]; cbn [Re.star]; [apply K|].
    destruct (Re.in_charset true cs x); [|apply K].
    destruct (Re.star true cs _ s); [reflexivity|apply K].
  - cbn [Re.star]. rewrite Hx. specialize (IH k K g). cbn [Re.sre_match] in IH.
    destruct (Re.star true cs _ s); [reflexivity|discriminate].
  - apply IH1. intros g'. now apply IH2.
  - specialize (IH1 k K g).
    destruct (Re.sre_match true r1 s g k); [reflexivity|discriminate].
  - specialize (IH2 k K g).
    destruct (Re.sre_match true r1 s g k); [reflexivity|exact IH2].
  - apply IH1. intros g'. apply K.
Qed.

Lemma derives_append r s s' x : derives r s s' -> derives r (s +:+ x) (s' +:+ x).
Proof.
  induction 1; rewrite ?append_cons;
    first [ now constructor
          | now apply derives_star_step
          | now apply derives_seq with (s1 +:+ x)
          | now apply derives_alt_l
          | now apply derives_alt_r ].
Qed.

Lemma search_of_match r s :
  found (Re.sre_match true r s ∅ (fun _ g => Some g)) = true ->
  found (Re.search true r s) = true.
Proof.
  intros H. destruct s as [|x s]; cbn [Re.search];
    destruct (Re.sre_match true r _ ∅ _); first [reflexivity|discriminate].
Qed.

Lemma search_later r x s :
  found (Re.search true r s) = true -> found (Re.search true r (String x s)) = true.
Proof.
  intros H. cbn [Re.search]. destruct (Re.sre_match true r (String x s) ∅ _);
    [reflexivity|exact H].
Qed.

Lemma search_suffix r s post :
  found (Re.search true r s) = true -> found (Re.search true r (s +:+ post)) = true.
Proof.
  assert (Hm : forall s gf, Re.sre_match true r s ∅ (fun _ g => Some g) = Some gf ->
                 found (Re.search true r (s +:+ post)) = true).
  { intros s0 gf E. apply sre_match_sound in E as (s' & g' & Hd & _).
    apply search_of_match.
    apply (sre_match_complete _ _ _ (derives_append _ _ _ post Hd)). reflexivity. }
  induction s as [|x s IH]; cbn [Re.search].
  - destruct (Re.sre_match true r "" ∅ _) as [gf|] eqn:E; [|discriminate].
    intros _. now apply (Hm "" gf).
  - destruct (Re.sre_match true r (String x s) ∅ _) as [gf|] eqn:E.
    + intros _. now apply (Hm (String x s) gf).
    + intros H. rewrite append_cons. apply search_later. now apply IH.
Qed.

Lemma slice_from_app_le a b : forall i,
  i <= String.length a -> Py.slice_from i (a +:+ b) = Py.slice_from i a +:+ b.
Proof.
  induction a as [|x a IH]; intros [|i] Hi; cbn [String.length] in *;
    try reflexivity; [lia|].
  rewrite append_cons. cbn [Py.slice_from]. apply IH. lia.
Qed.

Lemma basename_app path post :
  Py.contains Path.sep post = false ->
  Path.basename (path +:+ post) = Path.basename path +:+ post.
Proof.
  intros Hp. unfold Path.basename, Path.after_last_sep.
  rewrite (rfind_app_none _ _ _ (rfind_none _ _ Hp)).
  apply slice_from_app_le.
  pose proof (rfind_upper Path.sep path). pose proof (rfind_lower Path.sep path). lia.
Qed.

(** X22. [pattern.search] is anchored at neither end of the name: a
    name that holds a matched name between any two pieces is matched
    too.  So a file whose name is that of a selected file followed by
    more characters, a backup copy [....tif.bak] for one, is selected
    by the first loop of the renamer as well. *)
Theorem affixed_names_selected name pre post path inbox to_do ignored w sh t :
  found (Re.search true IC6000_pattern name) = true ->
  matches IC6000_pattern path = true ->
  Py.contains Path.sep post = false ->
  found (Re.search true IC6000_pattern (pre +:+ name +:+ post)) = true
  /\ rename_filter IC6000_pattern ((path +:+ post) :: inbox) to_do ignored w sh t
     = rename_filter IC6000_pattern inbox (to_do ++ [path +:+ post]) ignored w sh t.
Proof.
  intros Hn Hm Hp. split.
  - induction pre as [|x pre IH].
    + now apply (search_suffix IC6000_pattern name post).
    + rewrite append_cons. now apply search_later.
  - cbn [rename_filter]. cbn zeta. rewrite (basename_app _ _ Hp).
    assert (H : found (Re.search true IC6000_pattern (Path.basename path +:+ post)) = true).
    { apply search_suffix. unfold matches in Hm.
      destruct (Re.search true IC6000_pattern (Path.basename path));
        [reflexivity|discriminate]. }
    destruct (Re.search true IC6000_pattern (Path.basename path +:+ post));
      [reflexivity|discriminate].
Qed.

Lemma affixed_names_selected_witness :
  found (Re.search true IC6000_pattern
           ("copy of " +:+ "E_1_B - 03(fld 4 wv Blue - FITC).tif" +:+ "~")) = true
  /\ rename_filter IC6000_pattern
       ["/data/E_1_B - 03(fld 4 wv Blue - FITC).tif" +:+ ".bak"] [] 0%Z
       Example.w Example.sh []
     = ([], Ok (["/data/E_1_B - 03(fld 4 wv Blue - FITC).tif" +:+ ".bak"], 0%Z)).
Proof.
  destruct (affixed_names_selected "E_1_B - 03(fld 4 wv Blue - FITC).tif" "copy of " "~"
              "/data/E_1_B - 03(fld 4 wv Blue - FITC).tif" [] [] 0%Z Example.w Example.sh []
              ltac:(vm_compute; reflexivity) ltac:(vm_compute; reflexivity) eq_refl)
    as [H1 _].
  destruct (affixed_names_selected "E_1_B - 03(fld 4 wv Blue - FITC).tif" "" ".bak"
              "/data/E_1_B - 03(fld 4 wv Blue - FITC).tif" [] [] 0%Z Example.w Example.sh []
              ltac:(vm_compute; reflexivity) ltac:(vm_compute; reflexivity) eq_refl)
    as [_ H2].
  split; [exact H1|exact H2].
Defined.

(** ** One failure stops the renamer before anything is renamed *)

(** X23. If the translation of one matched file raises, whatever the
    exception and wherever the file stands in the list, [rename_func]
    ends with that exception right after the report: no command is
    printed, run or submitted, not even those of the files that come
    before the one that failed. *)
Theorem rename_all_or_nothing args m w sh t t1 inbox e :
  build_file_list (Args.path args) w sh t = (t1, Ok inbox) ->
  rename_cmds m (List.filter (matches (pattern m)) inbox) [] = Raise e ->
  rename_func args m w sh t =
    (t1 ++ map unmatched_log (List.filter (fun p => negb (matches (pattern m) p)) inbox)
        ++ [Stdout (report "rename" (length inbox)
                      (length (List.filter (matches (pattern m)) inbox))
                      (Z.of_nat (length (List.filter
                         (fun p => negb (matches (pattern m) p)) inbox))))],
     Raise e).
Proof.
  intros Hb He. rewrite (rename_func_report _ _ _ _ _ _ _ Hb).
  destruct (List.filter (matches (pattern m)) inbox) as [|p ps] eqn:Ef;
    [discriminate|].
  cbn [is_nil]. unfold lift, mbind, M_bind. rewrite He. now rewrite <- app_assoc.
Qed.

Lemma rename_all_or_nothing_witness :
  let args := {| Args.action_ := Args.rename;
                 Args.path := ["E_1_B - 03(fld 4 wv Blue - FITC).tif";
                               "E_1_B03(fld 4 wv Blue - FITC).tif"];
                 Args.keep := false; Args.check := false; Args.batch := false;
                 Args.batch_size := 200 |} in
  rename_func args IC6000 Example.w Example.sh []
  = ([Getcwd;
      PathExists "E_1_B - 03(fld 4 wv Blue - FITC).tif";
      PathIsdir "/home/user/E_1_B - 03(fld 4 wv Blue - FITC).tif";
      PathExists "E_1_B03(fld 4 wv Blue - FITC).tif";
      PathIsdir "/home/user/E_1_B03(fld 4 wv Blue - FITC).tif";
      Stdout "Examined 2 files: 2 to rename, 0 ignored."],
     Raise IndexError).
Proof.
  intros args.
  exact (rename_all_or_nothing args IC6000 Example.w Example.sh [] _ _ IndexError
           ltac:(vm_compute; reflexivity) ltac:(vm_compute; reflexivity)).
Defined.

(** ** The two actions in the immediate mode *)

(** X24. Without [--check] and [--batch], and with at least one TIFF
    file, the converter prints its notices and its report, then hands
    one command per TIFF file to the shell, in the order of the inbox
    and whatever the fate of the commands before, and ends with the
    summary: as many files done as commands that ended with status 0,
    the others counted as errors. *)
Theorem convert_immediate args w sh t t1 inbox :
  build_file_list (Args.path args) w sh t = (t1, Ok inbox) ->
  Args.check args = false ->
  Args.batch args = false ->
  let to_do := List.filter tiff_path inbox in
  let ignored := List.filter (fun p => negb (tiff_path p)) inbox in
  to_do <> [] ->
  let cmds := map (convert_cmd (Args.keep args)) to_do in
  let t2 := t1 ++ map (fun p => Stdout (p +:+ ": no TIFF extension, ignored!")) ignored
               ++ [Stdout (report "convert" (length inbox) (length to_do)
                                  (Z.of_nat (length ignored)))] in
  let done := Z.of_nat (successes sh t2 cmds) in
  convert_func args w sh t =
    (t2 ++ map CheckCall cmds
        ++ [Stdout (summary "convert" done (Z.of_nat (length to_do) - done))],
     Ok tt).
Proof.
  intros Hb Hc Hbatch to_do ignored Hne cmds t2 done.
  rewrite (convert_func_report _ _ _ _ _ _ Hb), Hc, Hbatch. fold to_do ignored.
  assert (Ec : map (fun '(old, new) => convert_fmt (Args.keep args) old new)
                 (map convert_op to_do) = cmds).
  { unfold cmds. rewrite map_map. reflexivity. }
  assert (El : length cmds = length to_do) by (unfold cmds; now rewrite length_map).
  rewrite Ec, length_map.
  destruct (map convert_op to_do) as [|op ops] eqn:Eo.
  { destruct to_do; [congruence|discriminate]. }
  cbn [is_nil]. unfold run. rewrite bind_ret. cbn [Z.b2z negb Z.eqb].
  rewrite (bind_ok _ _ _ _ _ _ _ (run_direct_spec _ _ _ _ _ _)).
  cbn [str_of_pyval]. unfold print, emit, summary, done, t2.
  rewrite !Z.add_0_l, El, <- !app_assoc. reflexivity.
Qed.

Lemma convert_immediate_witness :
  let args := {| Args.action_ := Args.convert; Args.path := ["/data"];
                 Args.keep := true; Args.check := false; Args.batch := false;
                 Args.batch_size := 200 |} in
  convert_func args Example.w Example.sh []
  = ([Getcwd; PathExists "/data"; PathIsdir "/data"; Walk "/data";
      Stdout "/data/notes.txt: no TIFF extension, ignored!";
      Stdout "Examined 3 files: 2 to convert, 1 ignored.";
      CheckCall "convert -depth 16 -colorspace gray '/data/plate 1/E_1_B - 03(fld 4 wv Blue - FITC).tif' '/data/plate 1/E_1_B - 03(fld 4 wv Blue - FITC).png'";
      CheckCall "convert -depth 16 -colorspace gray '/data/plate 1/E_1_B - 03(fld 4 wv Cy3).tif' '/data/plate 1/E_1_B - 03(fld 4 wv Cy3).png'";
      Stdout "Successfully applied convert to 2 files, 0 errors."],
     Ok tt).
Proof.
  intros args.
  exact (convert_immediate args Example.w Example.sh [] _ _
           ltac:(vm_compute; reflexivity) eq_refl eq_refl ltac:(vm_compute; discriminate)).
Defined.

(** X25. Without [--check] and [--batch], once the commands of the
    matched files are built, the renamer hands every [mv] to the
    shell, in order, after the warnings and the report, and ends with
    the summary of the moves done and failed. *)
Theorem rename_immediate args m w sh t t1 inbox cmds :
  build_file_list (Args.path args) w sh t = (t1, Ok inbox) ->
  Args.check args = false ->
  Args.batch args = false ->
  let to_do := List.filter (matches (pattern m)) inbox in
  let ignored := List.filter (fun p => negb (matches (pattern m) p)) inbox in
  to_do <> [] ->
  rename_cmds m to_do [] = Ok cmds ->
  let t2 := t1 ++ map unmatched_log ignored
               ++ [Stdout (report "rename" (length inbox) (length to_do)
                                  (Z.of_nat (length ignored)))] in
  let done := Z.of_nat (successes sh t2 cmds) in
  rename_func args m w sh t =
    (t2 ++ map CheckCall cmds
        ++ [Stdout (summary "rename" done (Z.of_nat (length cmds) - done))],
     Ok tt).
Proof.
  intros Hb Hc Hbatch to_do ignored Hne Hcmds t2 done.
  rewrite (rename_func_report _ _ _ _ _ _ _ Hb), Hc, Hbatch. fold to_do ignored.
  destruct to_do as [|p ps] eqn:E; [congruence|].
  cbn [is_nil]. rewrite Hcmds. unfold lift at 1.
  rewrite (bind_ok _ _ _ _ _ _ _ eq_refl).
  unfold run. rewrite bind_ret. cbn [Z.b2z negb Z.eqb].
  rewrite (bind_ok _ _ _ _ _ _ _ (run_direct_spec _ _ _ _ _ _)).
  cbn [str_of_pyval]. unfold print, emit, summary, done, t2.
  rewrite !Z.add_0_l, <- !app_assoc. reflexivity.
Qed.

Lemma rename_immediate_witness :
  let args := {| Args.action_ := Args.rename;
                 Args.path := ["E_1_B - 03(fld 4 wv Blue - FITC).tif"];
                 Args.keep := false; Args.check := false; Args.batch := false;
                 Args.batch_size := 200 |} in
  rename_func args IC6000 Example.w Example.sh []
  = ([Getcwd;
      PathExists "E_1_B - 03(fld 4 wv Blue - FITC).tif";
      PathIsdir "/home/user/E_1_B - 03(fld 4 wv Blue - FITC).tif";
      Stdout "Examined 1 files: 1 to rename, 0 ignored.";
      CheckCall "mv '/home/user/E_1_B - 03(fld 4 wv Blue - FITC).tif' '/home/user/E1_B03_T0001F004L01A01Z01C02.tif'";
      Stdout "Successfully applied rename to 1 files, 0 errors."],
     Ok tt).
Proof.
  intros args.
  exact (rename_immediate args IC6000 Example.w Example.sh [] _ _ _
           ltac:(vm_compute; reflexivity) eq_refl eq_refl ltac:(vm_compute; discriminate)
           ltac:(vm_compute; reflexivity)).
Defined.

(** ** The site and the channel of a canonical name *)

Lemma sre_match_preserves x r : forall s g k gf,
  binds x r = false ->
  Re.sre_match true r s g k = Some gf ->
  exists s' g', k s' g' = Some gf /\ g' !! x = g !! x.
Proof.
  induction r as [|cs|cs|r1 IH1 r2 IH2|r1 IH1 r2 IH2|name r1 IH1];
    intros s g k gf Hb; cbn [Re.sre_match binds] in *.
  - intros H. now exists s, g.
  - destruct s as [|a s']; [discriminate|].
    destruct (Re.in_charset true cs a); [|discriminate].
    intros H. now exists s', g.
  - intros H. apply star_answer in H as [s' H]. now exists s', g.
  - apply orb_false_iff in Hb as [Hb1 Hb2].
    intros H. apply (IH1 _ _ _ _ Hb1) in H as (s1 & g1 & H & E1).
    apply (IH2 _ _ _ _ Hb2) in H as (s2 & g2 & H & E2).
    exists s2, g2. split; [exact H|congruence].
  - apply orb_false_iff in Hb as [Hb1 Hb2].
    destruct (Re.sre_match true r1 s g k) as [g'|] eqn:E.
    + intros H. inversion H; subst. now apply (IH1 _ _ _ _ Hb1) in E.
    + intros H. now apply (IH2 _ _ _ _ Hb2) in H.
  - destruct name as [y|].
    + apply orb_false_iff in Hb as [Hxy Hb1].
      intros H. apply (IH1 _ _ _ _ Hb1) in H as (s1 & g1 & H & E1).
      eexists s1, _. split; [exact H|].
      rewrite lookup_insert_ne; [exact E1|].
      intros ->. now rewrite String.eqb_refl in Hxy.
    + intros H. apply (IH1 _ _ _ _ Hb) in H as (s1 & g1 & H & E1). now exists s1, g1.
Qed.

Lemma derives_length r s s' : derives r s s' -> String.length s' <= String.length s.
Proof. induction 1; cbn [String.length]; lia. Qed.

Lemma star_digits_text s s' :
  derives (Re.Star Re.Digit) s s' ->
  all_digits (Py.slice_to (String.length s - String.length s') s) = true.
Proof.
  remember (Re.Star Re.Digit) as r eqn:Er. induction 1; try discriminate.
  - rewrite Nat.sub_diag. now destruct s.
  - inversion Er; subst cs. specialize (IHderives eq_refl).
    pose proof (derives_length _ _ _ H0) as Hl. cbn [String.length].
    replace (S (String.length s) - String.length s')
      with (S (String.length s - String.length s')) by lia.
    cbn [Py.slice_to all_digits]. cbn [Re.in_charset] in H. now rewrite H.
Qed.

(** The text of a named group of digits. *)
Lemma digits_group_answer x r2 s g k gf :
  Re.sre_match true (Re.Seq (Re.Group (Some x) (Re.Star Re.Digit)) r2) s g k = Some gf ->
  exists s' g' v, Re.sre_match true r2 s' g' k = Some gf
    /\ g' !! x = Some v /\ all_digits v = true.
Proof.
  cbn [Re.sre_match]. intros H.
  apply star_sound in H as (s' & Hd & H).
  eexists s', _, _. split; [exact H|]. split; [apply lookup_insert_eq|].
  now apply star_digits_text.
Qed.

Lemma IC6000_site_digits s gf :
  Re.sre_match true IC6000_pattern s ∅ (fun _ g => Some g) = Some gf ->
  exists v, gf !! "s" = Some v /\ all_digits v = true.
Proof.
  unfold IC6000_pattern. cbn [Re.seq]. intros H.
  do 6 (apply seq_answer in H as (? & ? & H & _ & _)).
  apply digits_group_answer in H as (s7 & g7 & v & H & Hv & Hd).
  apply sre_match_preserves with (x := "s") in H as (s' & g' & H & E); [|reflexivity].
  inversion H; subst g'. exists v. split; [congruence|exact Hd].
Qed.

Lemma all_digits_append a b :
  all_digits (a +:+ b) = all_digits a && all_digits b.
Proof.
  induction a as [|x a IH]; [reflexivity|].
  rewrite append_cons. cbn [all_digits]. now rewrite IH, andb_assoc.
Qed.

Lemma all_digits_zeros n : all_digits (Py.zeros n) = true.
Proof. induction n as [|n IH]; [reflexivity|exact IH]. Qed.

Lemma all_digits_zfill n s : all_digits s = true -> all_digits (Py.zfill n s) = true.
Proof.
  intros H. unfold Py.zfill. destruct (n <=? String.length s)%nat; [exact H|].
  destruct s as [|a s']; [apply all_digits_zeros|].
  destruct (Ascii.eqb a "+" || Ascii.eqb a "-") eqn:E.
  - exfalso. cbn [all_digits] in H. apply andb_true_iff in H as [Ha _].
    apply orb_true_iff in E as [E|E]; apply Ascii.eqb_eq in E; subst a; discriminate.
  - now rewrite all_digits_append, all_digits_zeros, H.
Qed.

(** X26. For a file whose name the pattern matches and whose
    translation returns, the site field is made of decimal digits, at
    least 3 of them, and the channel field is one of the codes 01 to
    04: the digits of the name, padded with zeros, and the code of the
    channel map. *)
Theorem site_and_channel_codes name params exp_name well site channel :
  Re.search true IC6000_pattern name = Some params ->
  _IC6000_replace params IC6000_channels = Ok (exp_name, well, site, channel) ->
  all_digits site = true /\ 3 <= String.length site
  /\ In channel ["01"; "02"; "03"; "04"].
Proof.
  intros Hs Hr.
  assert (Hd : exists v, params !! "s" = Some v /\ all_digits v = true).
  { clear Hr. revert Hs. induction name as [|x name IH]; cbn [Re.search].
    - destruct (Re.sre_match true IC6000_pattern "" ∅ _) as [g|] eqn:E; [|discriminate].
      intros H. inversion H; subst. now apply IC6000_site_digits in E.
    - destruct (Re.sre_match true IC6000_pattern (String x name) ∅ _) as [g|] eqn:E.
      + intros H. inversion H; subst. now apply IC6000_site_digits in E.
      + exact IH. }
  destruct Hd as (v & Hv & Hd). clear Hs. revert Hr.
  unfold _IC6000_replace, getitem, list_item. rewrite Hv.
  destruct (params !! "n") as [n|]; [|discriminate].
  destruct (params !! "w") as [w_|]; [|discriminate].
  cbn [mbind outcome_bind].
  destruct (Py.split "-" (Py.replace " " "" w_)) as [|letter [|number rest]];
    cbn [nth_error mbind outcome_bind]; try discriminate.
  destruct (params !! "c") as [c|]; [|discriminate].
  cbn [mbind outcome_bind].
  destruct (IC6000_channels !! Py.replace " " "" c) as [ch|] eqn:Ech; [|discriminate].
  cbn [mbind outcome_bind]. intros H. inversion H; subst.
  split; [now apply all_digits_zfill|]. split; [apply zfill_length|].
  now apply IC6000_channels_values in Ech.
Qed.

Lemma site_and_channel_codes_witness :
  all_digits "004" = true /\ 3 <= String.length "004"
  /\ In "02" ["01"; "02"; "03"; "04"].
Proof.
  apply (site_and_channel_codes "E_1_B - 03(fld 4 wv Blue - FITC).tif"
           (<["n" := "E_1"]> (<["w" := "B - 03"]> (<["s" := "4"]>
              (<["c" := " Blue - FITC"]> ∅)))) "E1" "B03" "004" "02").
  - vm_compute. reflexivity.
  - reflexivity.
Defined.
